(** * Turn orchestration and retry engine of the MCP client

    A shallow embedding of [whatsapp-mcp-server/client.py]: the retrying
    wrapper [generate_with_retry] around the model backend and the
    interactive loop of [run], with the theorems that settle what the
    specification says about them.

    Conventions.
    - A Python [str] is a [string] whose characters are the code points
      below 256; [str.strip], [str.lower] and [int] are written out for
      that range.
    - The model backend, the tool server and the terminal are the
      environment: the backend and the tool server are oracles indexed by
      the number of calls made so far, standard input is the list of lines
      still to be read.
    - A computation of the client threads the conversation list and the
      call counters, may raise a Python exception, and emits the events
      (calls, sleeps, prints) it performs, in order.
    - The [candidates] of an answer and the [parts] of a content are
      lists, possibly empty, and a candidate is its content; an answer in
      which the library left one of them out ([None]) is not modelled. *)

From Stdlib Require Import Decimal DecimalString DecimalN DecimalZ.
From Stdlib Require Import ZArith NArith String Ascii Bool Lia List.
Import ListNotations.
Open Scope string_scope.
Open Scope list_scope.
Set Warnings "-register-all".

(** ** Python strings *)

Module PyStr.

(** [str.isspace] on one character: TAB..CR, FS..US, SPACE, NEL, NBSP. *)
Definition isspace (c : ascii) : bool :=
  let n := N_of_ascii c in
  ((9 <=? n) && (n <=? 13) || (28 <=? n) && (n <=? 32)
   || (n =? 133) || (n =? 160))%N.

(** [str.lower] on one character: A..Z and the accented capitals
    U+00C0..U+00DE (U+00D7, the multiplication sign, apart). *)
Definition lower_char (c : ascii) : ascii :=
  let n := N_of_ascii c in
  if ((65 <=? n) && (n <=? 90)
      || (192 <=? n) && (n <=? 222) && negb (n =? 215))%N
  then ascii_of_N (n + 32) else c.

Fixpoint lower (s : string) : string :=
  match s with
  | EmptyString => EmptyString
  | String c s' => String (lower_char c) (lower s')
  end.

Fixpoint lstrip (p : ascii -> bool) (s : string) : string :=
  match s with
  | EmptyString => EmptyString
  | String c s' => if p c then lstrip p s' else s
  end.

Fixpoint rstrip (p : ascii -> bool) (s : string) : string :=
  match s with
  | EmptyString => EmptyString
  | String c s' =>
      match rstrip p s' with
      | EmptyString => if p c then EmptyString else String c EmptyString
      | r => String c r
      end
  end.

Definition strip_by (p : ascii -> bool) (s : string) : string :=
  rstrip p (lstrip p s).

(** [s.strip()] *)
Definition strip (s : string) : string := strip_by isspace s.

Fixpoint mem (c : ascii) (chars : string) : bool :=
  match chars with
  | EmptyString => false
  | String d chars' => Ascii.eqb c d || mem c chars'
  end.

(** [s.strip(chars)] *)
Definition strip_chars (chars : string) (s : string) : string :=
  strip_by (fun c => mem c chars) s.

(** The digits of a decimal literal as [int] reads them: one or more
    digits, single underscores allowed between two digits. *)
Fixpoint int_digits (after_digit : bool) (s : string) : option uint :=
  match s with
  | EmptyString => if after_digit then Some Nil else None
  | String c s' =>
      if Ascii.eqb c "_"
      then (if after_digit then int_digits false s' else None)
      else uint_of_char c (int_digits true s')
  end.

(** The longest literal [int] converts by default (CPython 3.11 and
    later; earlier versions have no bound). *)
Definition max_str_digits : nat := 4300.

Definition int_magnitude (s : string) : option Z :=
  match int_digits false s with
  | Some d =>
      if (nb_digits d <=? max_str_digits)%nat then Some (Z.of_uint d)
      else None
  | None => None
  end.

(** The white space [int] takes off both ends of its argument: TAB..CR
    and SPACE, NEL and NBSP, not FS..US. *)
Definition int_space (c : ascii) : bool :=
  let n := N_of_ascii c in
  ((9 <=? n) && (n <=? 13) || (n =? 32) || (n =? 133) || (n =? 160))%N.

(** [int(s)] for a string [s]; [None] is [ValueError]. *)
Definition int (s : string) : option Z :=
  match strip_by int_space s with
  | String "+" r => int_magnitude r
  | String "-" r => option_map Z.opp (int_magnitude r)
  | r => int_magnitude r
  end.

End PyStr.

(** ** JSON values and Python exceptions *)

(** What [response.json()] returns, and the arguments of a tool call.  An
    object is the list of its items; a number keeps its literal, the
    client never computes with one. *)
Inductive json : Type :=
| JNull
| JBool (b : bool)
| JNumber (literal : string)
| JString (s : string)
| JArray (items : list json)
| JObject (items : list (string * json)).

Inductive Exn : Type :=
| ClientError (response_json : option json)
    (* genai.errors.ClientError; [None] when e.response.json() raises *)
| BackendError (msg : string)
    (* anything else generate_content raises *)
| ToolError (msg : string)
    (* what session.call_tool raises *)
| AttributeError
| TypeError
| ValueError
| IndexError
| EOFError
| OverflowError.

Inductive Outcome (A : Type) : Type :=
| Returned (a : A)
| Raised (e : Exn).
Arguments Returned {A} a.
Arguments Raised {A} e.

Definition obind {A B} (o : Outcome A) (f : A -> Outcome B) : Outcome B :=
  match o with
  | Returned a => f a
  | Raised e => Raised e
  end.

Module Py.

Fixpoint lookup (key : string) (items : list (string * json)) : option json :=
  match items with
  | [] => None
  | (k, v) :: rest => if String.eqb key k then Some v else lookup key rest
  end.

(** [d.get(key, default)]: only a dict has [get]. *)
Definition get (d : json) (key : string) (default : json) : Outcome json :=
  match d with
  | JObject items =>
      Returned (match lookup key items with Some v => v | None => default end)
  | _ => Raised AttributeError
  end.

(** [v == s] for a string literal [s]. *)
Definition eq_str (v : json) (s : string) : bool :=
  match v with
  | JString t => String.eqb t s
  | _ => false
  end.

Fixpoint chars (s : string) : list json :=
  match s with
  | EmptyString => []
  | String c s' => JString (String c EmptyString) :: chars s'
  end.

(** The elements [for x in v] goes through: a list's items, a dict's
    keys, a string's characters; nothing else is iterable. *)
Definition iter (v : json) : Outcome (list json) :=
  match v with
  | JArray items => Returned items
  | JObject items => Returned (map (fun kv => JString (fst kv)) items)
  | JString s => Returned (chars s)
  | _ => Raised TypeError
  end.

(** [v.strip(chars)]: only a string has [strip]. *)
Definition str_strip (v : json) (chars : string) : Outcome string :=
  match v with
  | JString s => Returned (PyStr.strip_chars chars s)
  | _ => Raised AttributeError
  end.

(** [int(s)] *)
Definition to_int (s : string) : Outcome Z :=
  match PyStr.int s with
  | Some z => Returned z
  | None => Raised ValueError
  end.

End Py.

(** ** Data model *)

Inductive Role : Type := user | model.

Record FunctionCall : Type :=
  { name : string; args : json }.

Record FunctionResponse : Type :=
  { fr_name : string; response : json }.

(** [types.Part]: every field is optional. *)
Record Part : Type :=
  { text : option string;
    function_call : option FunctionCall;
    function_response : option FunctionResponse }.

(** [types.Content] *)
Record Content : Type :=
  { role : Role; parts : list Part }.

(** The response of [generate_content]; a candidate is its content. *)
Record Response : Type :=
  { candidates : list Content }.

(** An element of a tool result: only a text element has [.text]. *)
Inductive ContentItem : Type :=
| TextContent (t : string)
| OtherContent.

Record CallToolResult : Type :=
  { content : list ContentItem }.

(** [types.Part(text=s)] *)
Definition text_part (s : string) : Part :=
  {| text := Some s; function_call := None; function_response := None |}.

(** [types.Part(function_call=fc)] *)
Definition function_call_part (fc : FunctionCall) : Part :=
  {| text := None; function_call := Some fc; function_response := None |}.

(** [types.Part.from_function_response(name=n, response=r)] *)
Definition from_function_response (n : string) (r : json) : Part :=
  {| text := None; function_call := None;
     function_response := Some {| fr_name := n; response := r |} |}.

(** ** Events *)

(** What the client prints, by call site. *)
Inductive Output : Type :=
| OutParseFailed
| OutRetrying (delay attempt max_retries : Z)
| OutMaxRetries
| OutUnexpected (error_data : json)
| OutDelayParseError (e : Exn)
| OutPart (p : Part)
| OutToolRequest (fc : FunctionCall)
| OutToolResult (r : CallToolResult)
| OutAssistant (t : string)
| OutToolFailed (n : string)
| OutNoResponse
| OutExiting.

Inductive Event : Type :=
| EvInput (line : string)
| EvGenerate (cs : list Content)
| EvSleep (seconds : Z)
| EvCallTool (n : string) (a : json)
| EvLogError (n : string) (e : Exn)
| EvPrint (o : Output).

(** ** The monad of the client *)

Record Session : Type :=
  { contents : list Content;   (* the conversation memory of [run] *)
    gen_calls : nat;            (* generate_content calls so far *)
    tool_calls : nat }.         (* call_tool calls so far *)

Definition M (A : Type) : Type := Session -> Outcome A * Session * list Event.

Definition ret {A} (a : A) : M A := fun s => (Returned a, s, []).

Definition raise {A} (e : Exn) : M A := fun s => (Raised e, s, []).

Definition bind {A B} (m : M A) (f : A -> M B) : M B :=
  fun s =>
    match m s with
    | (Returned a, s1, ev1) =>
        match f a s1 with
        | (o, s2, ev2) => (o, s2, ev1 ++ ev2)
        end
    | (Raised e, s1, ev1) => (Raised e, s1, ev1)
    end.

(** [try: m  except ...: h e]; [h e = None] when no clause matches [e]. *)
Definition catch {A} (m : M A) (h : Exn -> option (M A)) : M A :=
  fun s =>
    match m s with
    | (Returned a, s1, ev1) => (Returned a, s1, ev1)
    | (Raised e, s1, ev1) =>
        match h e with
        | Some k =>
            match k s1 with
            | (o, s2, ev2) => (o, s2, ev1 ++ ev2)
            end
        | None => (Raised e, s1, ev1)
        end
    end.

Definition lift {A} (o : Outcome A) : M A := fun s => (o, s, []).

Definition emit (e : Event) : M unit := fun s => (Returned tt, s, [e]).

Definition print (o : Output) : M unit := emit (EvPrint o).

(** The least integer that does not convert to a float. *)
Definition float_overflow : Z := (2 ^ 1024 - 2 ^ 970)%Z.

(** [asyncio.sleep] takes the delay: it does when the delay converts to
    a float (a delay of zero or less returns at once). *)
Definition sleepable (seconds : Z) : bool := (seconds <? float_overflow)%Z.

(** [await asyncio.sleep(seconds)]; the event is a sleep that took
    place, a delay too large raises [OverflowError] instead. *)
Definition sleep (seconds : Z) : M unit :=
  if sleepable seconds then emit (EvSleep seconds) else raise OverflowError.

Definition get_contents : M (list Content) := fun s => (Returned (contents s), s, []).

(** [contents.append(c)] *)
Definition append (c : Content) : M unit :=
  fun s =>
    (Returned tt,
     {| contents := contents s ++ [c];
        gen_calls := gen_calls s; tool_calls := tool_calls s |}, []).

Declare Scope client_scope.
Delimit Scope client_scope with client.
Notation "x <- m ;; k" := (bind m (fun x => k))
  (at level 61, m at next level, right associativity) : client_scope.
Notation "m ;; k" := (bind m (fun _ => k))
  (at level 61, right associativity) : client_scope.
Open Scope client_scope.

(** ** generate_with_retry *)

Definition RETRY_INFO : string := "type.googleapis.com/google.rpc.RetryInfo".

(** [error_data.get("error", {}).get("status", EMPTY)], [EMPTY] the empty
    string. *)
Definition status_of (error_data : json) : Outcome json :=
  obind (Py.get error_data "error" (JObject []))
        (fun err => Py.get err "status" (JString EmptyString)).

(** The test of line 54 on the status. *)
Definition is_rate_limit (status : json) : bool :=
  Py.eq_str status "RESOURCE_EXHAUSTED"
  || Py.eq_str status "429 RESOURCE_EXHAUSTED"
  || Py.eq_str status "Too Many Requests".

(** The body of the [for detail in ...] loop: [Some d] when a RetryInfo
    detail set [retry_delay] (and the loop broke), [None] when the loop
    ran to its end. *)
Fixpoint scan_details (details : list json) : Outcome (option Z) :=
  match details with
  | [] => Returned None
  | detail :: rest =>
      obind (Py.get detail "@type" JNull) (fun ty =>
      if Py.eq_str ty RETRY_INFO
      then obind (Py.get detail "retryDelay" (JString "30s")) (fun rd =>
           obind (Py.str_strip rd "s") (fun digits =>
           obind (Py.to_int digits) (fun d => Returned (Some d))))
      else scan_details rest)
  end.

(** [error_data.get("error", {}).get("details", [])] *)
Definition details_of (error_data : json) : Outcome json :=
  obind (Py.get error_data "error" (JObject []))
        (fun err => Py.get err "details" (JArray [])).

(** The [try] block of lines 56-60. *)
Definition parse_retry_delay (error_data : json) : Outcome (option Z) :=
  obind (details_of error_data) (fun details =>
  obind (Py.iter details) scan_details).

(** The default of the parameter [max_retries]. *)
Definition default_max_retries : Z := 3%Z.

(** [range(n)] *)
Definition range (n : Z) : list Z := map Z.of_nat (seq 0 (Z.to_nat n)).

Section Client.

(** [client.models.generate_content], for the model, the tool
    declarations and the temperature of the session: what the [k]-th
    call answers on a conversation. *)
Variable backend : nat -> list Content -> Outcome Response.

(** [session.call_tool]: what the [k]-th call answers. *)
Variable tool_server : nat -> string -> json -> Outcome CallToolResult.

Definition generate_content (cs : list Content) : M Response :=
  fun s =>
    (backend (gen_calls s) cs,
     {| contents := contents s;
        gen_calls := S (gen_calls s); tool_calls := tool_calls s |},
     [EvGenerate cs]).

(** Lines 55-62: the delay to wait, 30 unless a RetryInfo detail gives
    one. *)
Definition retry_delay_of (error_data : json) : M Z :=
  match parse_retry_delay error_data with
  | Returned (Some d) => ret d
  | Returned None => ret 30%Z
  | Raised parse_err => print (OutDelayParseError parse_err) ;; ret 30%Z
  end.

(** The [except genai.errors.ClientError as e] clause, lines 47-72;
    returning means the [for] loop goes on. *)
Definition on_client_error (e : Exn) (response_json : option json)
    (attempt max_retries : Z) : M unit :=
  match response_json with
  | None => print OutParseFailed ;; raise e
  | Some error_data =>
      status <- lift (status_of error_data) ;;
      if is_rate_limit status then
        retry_delay <- retry_delay_of error_data ;;
        if (attempt <? max_retries - 1)%Z then
          print (OutRetrying retry_delay (attempt + 1) max_retries) ;;
          sleep retry_delay
        else
          print OutMaxRetries ;; raise e
      else
        print (OutUnexpected error_data) ;; raise e
  end.

(** The [for attempt in ...] loop; [None] is falling off its end. *)
Fixpoint retry_loop (attempts : list Z) (max_retries : Z)
    (cs : list Content) : M (option Response) :=
  match attempts with
  | [] => ret None
  | attempt :: rest =>
      catch (r <- generate_content cs ;; ret (Some r))
            (fun e =>
               match e with
               | ClientError response_json =>
                   Some (on_client_error e response_json attempt max_retries ;;
                         retry_loop rest max_retries cs)
               | _ => None
               end)
  end.

Definition generate_with_retry (cs : list Content) (max_retries : Z)
  : M (option Response) :=
  retry_loop (range max_retries) max_retries cs.

(** ** run *)

(** [session.call_tool(n, arguments=a)] *)
Definition call_tool (n : string) (a : json) : M CallToolResult :=
  fun s =>
    (tool_server (tool_calls s) n a,
     {| contents := contents s;
        gen_calls := gen_calls s; tool_calls := S (tool_calls s) |},
     [EvCallTool n a]).

(** [tool_result.content[0].text if tool_result.content
     else "No result returned"] *)
Definition result_text (tool_result : CallToolResult) : Outcome string :=
  match content tool_result with
  | [] => Returned "No result returned"
  | TextContent t :: _ => Returned t
  | OtherContent :: _ => Raised AttributeError
  end.

(** [{"result": t}] *)
Definition result_dict (t : string) : json := JObject [("result", JString t)].

(** [if p.text]: the text when there is one and it is not empty. *)
Definition truthy (t : option string) : option string :=
  match t with
  | Some EmptyString => None
  | Some s => Some s
  | None => None
  end.

(** Lines 168-170. *)
Fixpoint show_texts (ps : list Part) : M unit :=
  match ps with
  | [] => ret tt
  | p :: rest =>
      match truthy (text p) with
      | Some t => print (OutAssistant t)
      | None => ret tt
      end ;;
      show_texts rest
  end.

(** Lines 180-184. *)
Fixpoint show_parts (ps : list Part) : M unit :=
  match ps with
  | [] => ret tt
  | p :: rest =>
      match truthy (text p) with
      | Some t => print (OutAssistant t)
      | None =>
          match function_call p with
          | Some fc => print (OutToolRequest fc)
          | None => ret tt
          end
      end ;;
      show_parts rest
  end.

(** [response.candidates[0]] with its content. *)
Definition first_candidate (r : option Response) : M Content :=
  match r with
  | None => raise AttributeError
  | Some r =>
      match candidates r with
      | [] => raise IndexError
      | c :: _ => ret c
      end
  end.

(** [candidate.content.parts[0]] *)
Definition first_part (c : Content) : M Part :=
  match parts c with
  | [] => raise IndexError
  | p :: _ => ret p
  end.

(** The [try] block of lines 129-170. *)
Definition tool_round_trip (fc : FunctionCall) : M unit :=
  tool_result <- call_tool (name fc) (args fc) ;;
  print (OutToolResult tool_result) ;;
  append {| role := model; parts := [function_call_part fc] |} ;;
  t <- lift (result_text tool_result) ;;
  append {| role := user;
            parts := [from_function_response (name fc) (result_dict t)] |} ;;
  t' <- lift (result_text tool_result) ;;
  let function_response_part :=
    from_function_response (name fc) (result_dict t') in
  append {| role := model; parts := [function_call_part fc] |} ;;
  append {| role := user; parts := [function_response_part] |} ;;
  cs <- get_contents ;;
  final_response <- generate_with_retry cs default_max_retries ;;
  match final_response with
  | Some _ =>
      c <- first_candidate final_response ;;
      append c ;;
      match parts c with
      | [] => ret tt
      | ps => show_texts ps
      end
  | None => ret tt
  end.

(** Lines 172-174. *)
Definition on_tool_failure (fc : FunctionCall) (e : Exn) : M unit :=
  emit (EvLogError (name fc) e) ;;
  print (OutToolFailed (name fc)).

(** One pass through the body of [while True] after the [exit] test,
    lines 112-186. *)
Definition turn (user_input : string) : M unit :=
  append {| role := user; parts := [text_part user_input] |} ;;
  cs <- get_contents ;;
  response <- generate_with_retry cs default_max_retries ;;
  candidate <- first_candidate response ;;
  part <- first_part candidate ;;
  print (OutPart part) ;;
  match function_call part with
  | Some fc =>
      print (OutToolRequest fc) ;;
      catch (tool_round_trip fc) (fun e => Some (on_tool_failure fc e))
  | None =>
      append candidate ;;
      match parts candidate with
      | [] => print OutNoResponse
      | ps => show_parts ps
      end
  end.

(** The [while True] loop of [run] over the lines of standard input;
    [input] raises [EOFError] when there is none left. *)
Fixpoint chat_loop (stdin : list string) : M unit :=
  match stdin with
  | [] => raise EOFError
  | line :: rest =>
      emit (EvInput line) ;;
      let user_input := PyStr.strip line in
      if String.eqb (PyStr.lower user_input) "exit" then
        print OutExiting
      else
        turn user_input ;;
        chat_loop rest
  end.

(** The session [run] starts its loop in: an empty conversation. *)
Definition fresh : Session :=
  {| contents := []; gen_calls := 0; tool_calls := 0 |}.

(** [run], from line 104 on. *)
Definition run (stdin : list string) : Outcome unit * Session * list Event :=
  chat_loop stdin fresh.

End Client.

(** ** Observations on a run *)

(** The conversations passed to [generate_content], in call order. *)
Fixpoint generations (evs : list Event) : list (list Content) :=
  match evs with
  | [] => []
  | EvGenerate cs :: rest => cs :: generations rest
  | _ :: rest => generations rest
  end.

(** The delays slept, in order. *)
Fixpoint sleeps (evs : list Event) : list Z :=
  match evs with
  | [] => []
  | EvSleep d :: rest => d :: sleeps rest
  | _ :: rest => sleeps rest
  end.

(** The tool calls issued, in order. *)
Fixpoint tool_invocations (evs : list Event) : list (string * json) :=
  match evs with
  | [] => []
  | EvCallTool n a :: rest => (n, a) :: tool_invocations rest
  | _ :: rest => tool_invocations rest
  end.

(** The tools named by a failure notice, in order. *)
Fixpoint failure_notices (evs : list Event) : list string :=
  match evs with
  | [] => []
  | EvPrint (OutToolFailed n) :: rest => n :: failure_notices rest
  | _ :: rest => failure_notices rest
  end.

(** The texts shown as the assistant's, in order. *)
Fixpoint assistant_texts (evs : list Event) : list string :=
  match evs with
  | [] => []
  | EvPrint (OutAssistant t) :: rest => t :: assistant_texts rest
  | _ :: rest => assistant_texts rest
  end.

(** The failure is a client error whose body parses and carries one of
    the three statuses the client retries on. *)
Definition rate_limited (error_data : json) : bool :=
  match status_of error_data with
  | Returned status => is_rate_limit status
  | Raised _ => false
  end.

(** The delay the client waits after a retryable failure: what
    [retry_delay_of] returns. *)
Definition retry_delay (error_data : json) : Z :=
  match parse_retry_delay error_data with
  | Returned (Some d) => d
  | _ => 30%Z
  end.

(** A detail the scan passes over: an object of another type. *)
Definition other_detail (detail : json) : bool :=
  match Py.get detail "@type" JNull with
  | Returned ty => negb (Py.eq_str ty RETRY_INFO)
  | Raised _ => false
  end.

(** A RetryInfo detail and the value of its [retryDelay], if it has one. *)
Definition retry_info (detail : json) (delay : option json) : Prop :=
  exists items,
    detail = JObject items
    /\ Py.lookup "@type" items = Some (JString RETRY_INFO)
    /\ Py.lookup "retryDelay" items = delay.

Definition is_digit (c : ascii) : bool :=
  let n := N_of_ascii c in ((48 <=? n) && (n <=? 57))%N.

Fixpoint all_chars (p : ascii -> bool) (s : string) : bool :=
  match s with
  | EmptyString => true
  | String c s' => p c && all_chars p s'
  end.

(** The decimal numeral of [n]. *)
Definition decimal (n : N) : string := NilZero.string_of_uint (N.to_uint n).

Definition is_user (c : Content) : bool :=
  match role c with user => true | model => false end.

(** No user turn comes right after another user turn. *)
Fixpoint no_user_user (cs : list Content) : bool :=
  match cs with
  | [] => true
  | c :: rest =>
      match rest with
      | [] => true
      | c' :: _ => negb (is_user c && is_user c') && no_user_user rest
      end
  end.

(** The conversation is empty or ends with a model turn. *)
Fixpoint model_last (cs : list Content) : bool :=
  match cs with
  | [] => true
  | c :: rest =>
      match rest with
      | [] => negb (is_user c)
      | _ :: _ => model_last rest
      end
  end.

(** What holds of the conversation between two passes of the loop when
    no pass failed. *)
Definition settled (cs : list Content) : Prop :=
  no_user_user cs = true /\ model_last cs = true.

(** Every candidate the backend returns has the model's role. *)
Definition replies_as_model (backend : nat -> list Content -> Outcome Response)
  : Prop :=
  forall k cs r c,
    backend k cs = Returned r -> In c (candidates r) -> role c = model.

(** The session after [k] more calls of [generate_content]. *)
Definition after_generations (k : nat) (s : Session) : Session :=
  {| contents := contents s;
     gen_calls := k + gen_calls s; tool_calls := tool_calls s |}.

(** What a retryable failure with body [error_data] at attempt [attempt]
    adds to the events before the next attempt. *)
Definition retry_events (error_data : json) (attempt max_retries : Z)
  : list Event :=
  match parse_retry_delay error_data with
  | Raised parse_err => [EvPrint (OutDelayParseError parse_err)]
  | Returned _ => []
  end
  ++ [EvPrint (OutRetrying (retry_delay error_data) (attempt + 1) max_retries);
      EvSleep (retry_delay error_data)].

(** The events of the attempts [i], [i+1], ... failing with the retryable
    bodies [bodies]. *)
Fixpoint waits (cs : list Content) (max_retries : Z) (i : nat)
    (bodies : list json) : list Event :=
  match bodies with
  | [] => []
  | b :: rest =>
      EvGenerate cs :: retry_events b (Z.of_nat i) max_retries
        ++ waits cs max_retries (S i) rest
  end.

(** The calls to the backend and the sleeps among the events. *)
Definition is_action (e : Event) : bool :=
  match e with
  | EvGenerate _ | EvSleep _ => true
  | _ => false
  end.

Definition actions (evs : list Event) : list Event := filter is_action evs.

(** A failure of the backend that is not a rate-limit failure: a client
    error whose body parses and carries another status, or a failure of
    another class. *)
Definition other_failure (e : Exn) : bool :=
  match e with
  | ClientError (Some error_data) =>
      match status_of error_data with
      | Returned status => negb (is_rate_limit status)
      | Raised _ => false
      end
  | ClientError None => false
  | _ => true
  end.

(** The events [generate_with_retry] can emit on the conversation [cs]. *)
Definition invoker_event (cs : list Content) (e : Event) : Prop :=
  match e with
  | EvGenerate cs' => cs' = cs
  | EvSleep _ => True
  | EvPrint (OutParseFailed | OutRetrying _ _ _ | OutMaxRetries
            | OutUnexpected _ | OutDelayParseError _) => True
  | _ => False
  end.

(** What lines 168-170 print for the parts [ps]. *)
Definition texts_shown (ps : list Part) : list Event :=
  flat_map (fun p =>
              match truthy (text p) with
              | Some t => [EvPrint (OutAssistant t)]
              | None => []
              end) ps.

(** What lines 180-184 print for the parts [ps]. *)
Definition parts_shown (ps : list Part) : list Event :=
  flat_map (fun p =>
              match truthy (text p) with
              | Some t => [EvPrint (OutAssistant t)]
              | None =>
                  match function_call p with
                  | Some fc => [EvPrint (OutToolRequest fc)]
                  | None => []
                  end
              end) ps.

(** The session with the turns [cs] appended to the conversation. *)
Definition with_turns (s : Session) (cs : list Content) : Session :=
  {| contents := contents s ++ cs;
     gen_calls := gen_calls s; tool_calls := tool_calls s |}.

(** The session after one more call of the tool server. *)
Definition after_tool_call (s : Session) : Session :=
  {| contents := contents s;
     gen_calls := gen_calls s; tool_calls := S (tool_calls s) |}.

(** The turns of the client's own making. *)
Definition user_turn (user_input : string) : Content :=
  {| role := user; parts := [text_part user_input] |}.

Definition call_turn (fc : FunctionCall) : Content :=
  {| role := model; parts := [function_call_part fc] |}.

Definition response_turn (fc : FunctionCall) (t : string) : Content :=
  {| role := user;
     parts := [from_function_response (name fc) (result_dict t)] |}.

(** The events of a pass up to the call of the tool. *)
Definition request_events (ev1 : list Event) (p : Part) (fc : FunctionCall)
  : list Event :=
  ev1 ++ [EvPrint (OutPart p); EvPrint (OutToolRequest fc);
          EvCallTool (name fc) (args fc)].

(** The events of the [except Exception] clause of lines 172-174. *)
Definition failure_events (fc : FunctionCall) (e : Exn) : list Event :=
  [EvLogError (name fc) e; EvPrint (OutToolFailed (name fc))].

(** The session sent back to the model after the tool answered [t]. *)
Definition fed_back (s2 : Session) (fc : FunctionCall) (t : string) : Session :=
  with_turns (after_tool_call s2)
    [call_turn fc; response_turn fc t; call_turn fc; response_turn fc t].

(** ** Scenarios *)

Module Scenario.

(** The body of a quota failure advising to retry after [delay]. *)
Definition quota_body (delay : string) : json :=
  JObject
    [("error",
      JObject
        [("code", JNumber "429");
         ("message", JString "Quota exceeded");
         ("status", JString "RESOURCE_EXHAUSTED");
         ("details",
          JArray
            [JObject [("@type", JString "type.googleapis.com/google.rpc.Help")];
             JObject [("@type", JString RETRY_INFO);
                      ("retryDelay", JString delay)]])])].

(** The body of a malformed-request failure. *)
Definition invalid_body : json :=
  JObject
    [("error",
      JObject [("code", JNumber "400");
               ("status", JString "INVALID_ARGUMENT")])].

Definition reply (ps : list Part) : Response :=
  {| candidates := [{| role := model; parts := ps |}] |}.

(** A backend out of quota on every call. *)
Definition out_of_quota (k : nat) (cs : list Content) : Outcome Response :=
  Raised (ClientError (Some (quota_body "5s"))).

(** A backend rejecting every call as malformed. *)
Definition rejecting (k : nat) (cs : list Content) : Outcome Response :=
  Raised (ClientError (Some invalid_body)).

(** A backend whose failures carry a body that is not JSON. *)
Definition garbled (k : nat) (cs : list Content) : Outcome Response :=
  Raised (ClientError None).

(** A backend out of quota on its first call, answering afterwards. *)
Definition recovering (delay : string) (k : nat) (cs : list Content)
  : Outcome Response :=
  match k with
  | O => Raised (ClientError (Some (quota_body delay)))
  | _ => Returned (reply [text_part "Hello"])
  end.

(** The model asks for the weather in Paris, then words the answer. *)
Definition get_weather : FunctionCall :=
  {| name := "get_weather"; args := JObject [("city", JString "Paris")] |}.

Definition weather_backend (k : nat) (cs : list Content) : Outcome Response :=
  match k with
  | O => Returned (reply [function_call_part get_weather])
  | _ => Returned (reply [text_part "It is 22C and sunny in Paris."])
  end.

(** A model answering with text that also carries a call. *)
Definition talkative_backend (k : nat) (cs : list Content) : Outcome Response :=
  Returned (reply [text_part "Let me check."; function_call_part get_weather]).

Definition weather_tool (k : nat) (n : string) (a : json)
  : Outcome CallToolResult :=
  Returned {| content := [TextContent "22C, sunny"] |}.

Definition broken_tool (k : nat) (n : string) (a : json)
  : Outcome CallToolResult :=
  Raised (ToolError "connection closed").

Definition question : string := "What is the weather in Paris?".

Definition follow_up : string := "And in Rome?".

Definition wording : Content :=
  {| role := model; parts := [text_part "It is 22C and sunny in Paris."] |}.

(** A backend out of quota on its first two calls. *)
Definition twice_out_of_quota (k : nat) (cs : list Content) : Outcome Response :=
  match k with
  | 0%nat | 1%nat => Raised (ClientError (Some (quota_body "5s")))
  | _ => Returned (reply [text_part "Hello"])
  end.

End Scenario.

(** ** The [except] clause, by cases *)

(** What the parse of the delay prints: the message of line 62 when the
    [try] block raised. *)
Definition parse_events (error_data : json) : list Event :=
  match parse_retry_delay error_data with
  | Raised parse_err => [EvPrint (OutDelayParseError parse_err)]
  | Returned _ => []
  end.

(** The outcome and the events of [on_client_error], read off its
    branches. *)
Definition client_error_result (e : Exn) (response_json : option json)
    (attempt max_retries : Z) : Outcome unit * list Event :=
  match response_json with
  | None => (Raised e, [EvPrint OutParseFailed])
  | Some error_data =>
      match status_of error_data with
      | Raised attribute_err => (Raised attribute_err, [])
      | Returned status =>
          if is_rate_limit status then
            if (attempt <? max_retries - 1)%Z then
              if sleepable (retry_delay error_data) then
                (Returned tt, retry_events error_data attempt max_retries)
              else
                (Raised OverflowError,
                 parse_events error_data
                 ++ [EvPrint (OutRetrying (retry_delay error_data)
                                (attempt + 1) max_retries)])
            else
              (Raised e, parse_events error_data ++ [EvPrint OutMaxRetries])
          else (Raised e, [EvPrint (OutUnexpected error_data)])
      end
  end.

(** The failure is one the invoker waits out (given attempts left): a
    client error whose body carries a rate-limit status. *)
Definition retryable (e : Exn) : bool :=
  match e with
  | ClientError (Some error_data) => rate_limited error_data
  | _ => false
  end.

(** How the invocation ends when its last call, at attempt [attempt],
    is answered by [answer]. *)
Definition last_outcome (max_retries attempt : Z) (answer : Outcome Response)
    (o : Outcome (option Response)) : Prop :=
  match answer with
  | Returned r => o = Returned (Some r)
  | Raised (ClientError body) =>
      match fst (client_error_result (ClientError body) body attempt
                   max_retries) with
      | Raised raised => o = Raised raised
      | Returned _ => False
      end
  | Raised e => o = Raised e
  end.

Module Faults.

(** A delay no float holds: 1 followed by 309 zeros, in seconds. *)
Definition huge_delay : string := (decimal (10 ^ 309) ++ "s")%string.

(** A backend out of quota, advising that delay. *)
Definition out_for_ages (k : nat) (cs : list Content) : Outcome Response :=
  Raised (ClientError (Some (Scenario.quota_body huge_delay))).

(** A backend out of quota on its first call, failing with [e] after. *)
Definition quota_then (e : Exn) (k : nat) (cs : list Content)
  : Outcome Response :=
  match k with
  | O => Raised (ClientError (Some (Scenario.quota_body "5s")))
  | _ => Raised e
  end.

(** A failure body whose [error] is a plain message. *)
Definition flat_body : json :=
  JObject [("error", JString "quota exceeded")].

Definition flat_failure (k : nat) (cs : list Content) : Outcome Response :=
  Raised (ClientError (Some flat_body)).

(** A tool answering with a picture first. *)
Definition picture_tool (k : nat) (n : string) (a : json)
  : Outcome CallToolResult :=
  Returned {| content := [OtherContent; TextContent "22C, sunny"] |}.

End Faults.

(** ** Further vocabulary *)

Definition is_object (v : json) : bool :=
  match v with
  | JObject _ => true
  | _ => false
  end.

Definition is_array (v : json) : bool :=
  match v with
  | JArray _ => true
  | _ => false
  end.

(** The line ends the loop: the test of line 108. *)
Definition is_exit (line : string) : bool :=
  String.eqb (PyStr.lower (PyStr.strip line)) "exit".

(** The calls and sleeps of an invocation that waited [delays] in turn. *)
Definition rounds (cs : list Content) (delays : list Z) : list Event :=
  flat_map (fun d => [EvGenerate cs; EvSleep d]) delays ++ [EvGenerate cs].

(** The print of line 186 is among the events. *)
Definition no_response_printed (evs : list Event) : Prop :=
  In (EvPrint OutNoResponse) evs.

Module Scenario2.

(** A failure body whose [error] is a plain message. *)
Definition flat_body : json :=
  JObject [("error", JString "quota exceeded")].

Definition flat_failure (k : nat) (cs : list Content) : Outcome Response :=
  Raised (ClientError (Some flat_body)).

(** A quota failure with the details [details]. *)
Definition quota_with (details : json) : json :=
  JObject
    [("error",
      JObject [("status", JString "RESOURCE_EXHAUSTED");
               ("details", details)])].

Definition retry_info_detail (delay : json) : json :=
  JObject [("@type", JString RETRY_INFO); ("retryDelay", delay)].

(** A model whose only candidate has no part. *)
Definition mute_backend (k : nat) (cs : list Content) : Outcome Response :=
  Returned (Scenario.reply []).

(** A model without any candidate. *)
Definition empty_backend (k : nat) (cs : list Content) : Outcome Response :=
  Returned {| candidates := [] |}.

(** A model that asks for the weather and then rejects every call. *)
Definition failing_after_call (k : nat) (cs : list Content) : Outcome Response :=
  match k with
  | O => Returned (Scenario.reply [function_call_part Scenario.get_weather])
  | _ => Raised (ClientError (Some Scenario.invalid_body))
  end.

(** A tool answering with a picture. *)
Definition image_tool (k : nat) (n : string) (a : json)
  : Outcome CallToolResult :=
  Returned {| content := [OtherContent; TextContent "22C, sunny"] |}.

(** A model answering in two texts around an empty one. *)
Definition two_texts : Content :=
  {| role := model;
     parts := [text_part "It is sunny."; text_part EmptyString;
               text_part "Take a hat."] |}.

Definition wordy_backend (k : nat) (cs : list Content) : Outcome Response :=
  Returned {| candidates := [two_texts] |}.

End Scenario2.

(** The conversation [cs'] is [cs] with turns appended. *)
Definition extends (cs cs' : list Content) : Prop :=
  exists more, cs' = cs ++ more.

(** Each conversation of [css] extends the one before it, the first one
    extends [cs]. *)
Fixpoint grows (cs : list Content) (css : list (list Content)) : Prop :=
  match css with
  | [] => True
  | cs' :: rest => extends cs cs' /\ grows cs' rest
  end.

(** The texts lines 168-170 and 180-182 show for the parts [ps]. *)
Definition texts_to_show (ps : list Part) : list string :=
  flat_map (fun p =>
              match truthy (text p) with
              | Some t => [t]
              | None => []
              end) ps.

(** ** The tool declarations, lines 85-101 *)

(** A tool as [session.list_tools()] describes it. *)
Record Tool : Type :=
  { tool_name : string;
    description : option string;
    inputSchema : json }.

Definition optional_str (o : option string) : json :=
  match o with
  | Some str => JString str
  | None => JNull
  end.

(** The dictionary of lines 92-96. *)
Definition function_declaration (tool : Tool) : json :=
  JObject [("name", JString (tool_name tool));
           ("description", optional_str (description tool));
           ("parameters", inputSchema tool)].

(** [tools], lines 89-100. *)
Definition tools_of (mcp_tools : list Tool) : json :=
  JArray
    [JObject [("function_declarations",
               JArray (map function_declaration mcp_tools))]].

(** The names printed at line 101. *)
Definition available_tools (mcp_tools : list Tool) : list string :=
  map tool_name mcp_tools.

(** Reading a declaration back. *)
Definition declared_tool (declaration : json) : option Tool :=
  match Py.get declaration "name" JNull,
        Py.get declaration "description" JNull,
        Py.get declaration "parameters" JNull with
  | Returned (JString n), Returned d, Returned schema =>
      match d with
      | JString str =>
          Some {| tool_name := n; description := Some str; inputSchema := schema |}
      | JNull =>
          Some {| tool_name := n; description := None; inputSchema := schema |}
      | _ => None
      end
  | _, _, _ => None
  end.

Fixpoint declared_tools (declarations : list json) : option (list Tool) :=
  match declarations with
  | [] => Some []
  | d :: rest =>
      match declared_tool d, declared_tools rest with
      | Some tool, Some tools => Some (tool :: tools)
      | _, _ => None
      end
  end.

(** Reading the tools back from what is sent to the model. *)
Definition tools_declared (tools : json) : option (list Tool) :=
  match tools with
  | JArray [bundle] =>
      match Py.get bundle "function_declarations" JNull with
      | Returned (JArray declarations) => declared_tools declarations
      | _ => None
      end
  | _ => None
  end.

(** What every pass of the loop keeps, from the session [s] it starts in
    to its result. *)
Definition pass_summary (s : Session)
    (res : Outcome unit * Session * list Event) : Prop :=
  let s' := snd (fst res) in
  let evs := snd res in
  grows (contents s) (generations evs ++ [contents s'])
  /\ (length (tool_invocations evs) <= 1)%nat
  /\ tool_calls s' = (tool_calls s + length (tool_invocations evs))%nat
  /\ (1 <= length (generations evs) <= 6)%nat
  /\ gen_calls s' = (gen_calls s + length (generations evs))%nat
  /\ ~ In (EvPrint OutNoResponse) evs.

(** What the loop keeps over the lines [stdin], from the session [s]. *)
Definition loop_summary (stdin : list string) (s : Session)
    (res : Outcome unit * Session * list Event) : Prop :=
  let s' := snd (fst res) in
  let evs := snd res in
  grows (contents s) (generations evs ++ [contents s'])
  /\ (length (tool_invocations evs) <= length stdin)%nat
  /\ tool_calls s' = (tool_calls s + length (tool_invocations evs))%nat
  /\ (length (generations evs) <= 6 * length stdin)%nat
  /\ gen_calls s' = (gen_calls s + length (generations evs))%nat
  /\ ~ In (EvPrint OutNoResponse) evs.

(** The retry notices printed, as (delay, attempt, max_retries), and
    whether the give-up message follows them. *)
Fixpoint retry_notices (evs : list Event) : list (Z * Z * Z) :=
  match evs with
  | [] => []
  | EvPrint (OutRetrying d a m) :: rest => (d, a, m) :: retry_notices rest
  | _ :: rest => retry_notices rest
  end.

Fixpoint gave_up (evs : list Event) : nat :=
  match evs with
  | [] => 0
  | EvPrint OutMaxRetries :: rest => S (gave_up rest)
  | _ :: rest => gave_up rest
  end.

(** The notices of the failures [bodies] at the attempts [i], [i+1], ... *)
Fixpoint notices_from (max_retries : Z) (i : nat) (bodies : list json)
  : list (Z * Z * Z) :=
  match bodies with
  | [] => []
  | b :: rest =>
      (retry_delay b, Z.of_nat i + 1, max_retries)%Z
      :: notices_from max_retries (S i) rest
  end.

Module Scenario3.

(** A model asking for two tools in one answer. *)
Definition get_time : FunctionCall :=
  {| name := "get_time"; args := JObject [] |}.

Definition two_calls_backend (k : nat) (cs : list Content) : Outcome Response :=
  match k with
  | O => Returned (Scenario.reply [function_call_part Scenario.get_weather;
                                   function_call_part get_time])
  | _ => Returned (Scenario.reply [function_call_part get_time])
  end.

End Scenario3.

(** The tool requests shown (lines 127 and 184), in order. *)
Fixpoint tool_requests (evs : list Event) : list FunctionCall :=
  match evs with
  | [] => []
  | EvPrint (OutToolRequest fc) :: rest => fc :: tool_requests rest
  | _ :: rest => tool_requests rest
  end.

(** * Proofs *)

(** ** The definitions at work *)

Example strip_lower_exit : PyStr.lower (PyStr.strip "  ExIt  ") = "exit".
Proof. reflexivity. Qed.

Example strip_seconds_30 : PyStr.strip_chars "s" "30s" = "30".
Proof. reflexivity. Qed.

Example int_literals :
  PyStr.int "30" = Some 30%Z /\ PyStr.int " -1_0 " = Some (-10)%Z
  /\ PyStr.int "007" = Some 7%Z /\ PyStr.int "1.5" = None
  /\ PyStr.int "1__0" = None /\ PyStr.int "_1" = None
  /\ PyStr.int "1_" = None /\ PyStr.int "+" = None.
Proof. repeat split; reflexivity. Qed.

(** FS is white space to [strip], not to [int]. *)
Example int_after_fs :
  PyStr.strip (String (ascii_of_N 28) "5") = "5"
  /\ PyStr.int (String (ascii_of_N 28) "5") = None
  /\ PyStr.int (String (ascii_of_N 133) "5") = Some 5%Z.
Proof. repeat split; reflexivity. Qed.

Example retry_delay_advised : retry_delay (Scenario.quota_body "5s") = 5%Z.
Proof. reflexivity. Qed.

Example retry_delay_fractional :
  retry_delay (Scenario.quota_body "1.5s") = 30%Z.
Proof. reflexivity. Qed.

Example retry_delay_no_details : retry_delay Scenario.invalid_body = 30%Z.
Proof. reflexivity. Qed.

(** Two quota failures advising 5 seconds, then an answer: three
    attempts, ten seconds slept. *)
Example two_failures_then_an_answer :
  exists r s' evs,
    generate_with_retry Scenario.twice_out_of_quota [] default_max_retries fresh
    = (Returned (Some r), s', evs)
    /\ sleeps evs = [5; 5]%Z
    /\ length (generations evs) = 3%nat.
Proof. eexists _, _, _. split; [vm_compute; reflexivity|]. now split. Qed.

(** ** Python strings *)

Section Strings.

Variable p : ascii -> bool.

Lemma lstrip_kept c s : p c = false -> PyStr.lstrip p (String c s) = String c s.
Proof. intros H. cbn. now rewrite H. Qed.

Lemma rstrip_kept s :
  all_chars (fun c => negb (p c)) s = true -> PyStr.rstrip p s = s.
Proof.
  induction s as [|c s IH]; [reflexivity|].
  cbn. intros [Hc Hs]%andb_prop. rewrite (IH Hs).
  apply negb_true_iff in Hc. rewrite Hc. now destruct s.
Qed.

Lemma rstrip_suffix s x :
  all_chars (fun c => negb (p c)) s = true -> p x = true ->
  PyStr.rstrip p (s ++ String x EmptyString)%string = s.
Proof.
  intros Hs Hx. induction s as [|c s IH].
  - cbn. now rewrite Hx.
  - cbn in Hs |- *. apply andb_prop in Hs as [Hc Hs]. rewrite (IH Hs).
    apply negb_true_iff in Hc. rewrite Hc. now destruct s.
Qed.

Lemma all_chars_impl (q : ascii -> bool) s :
  (forall c, p c = true -> q c = true) ->
  all_chars p s = true -> all_chars q s = true.
Proof.
  intros Hpq. induction s as [|c s IH]; [reflexivity|].
  cbn. intros [Hc Hs]%andb_prop. now rewrite (Hpq c Hc), (IH Hs).
Qed.

End Strings.

Lemma is_digit_cases c :
  is_digit c = true ->
  In c ["0"; "1"; "2"; "3"; "4"; "5"; "6"; "7"; "8"; "9"]%char.
Proof.
  destruct c as [[] [] [] [] [] [] [] []]; intros H; try discriminate H;
    cbn; tauto.
Qed.

Lemma digit_not_space c : is_digit c = true -> negb (PyStr.isspace c) = true.
Proof.
  intros H. apply is_digit_cases in H. cbn in H.
  repeat (destruct H as [<-|H]; [reflexivity|]). destruct H.
Qed.

Lemma digit_not_int_space c :
  is_digit c = true -> negb (PyStr.int_space c) = true.
Proof.
  intros H. apply is_digit_cases in H. cbn in H.
  repeat (destruct H as [<-|H]; [reflexivity|]). destruct H.
Qed.

Lemma digit_not_s c : is_digit c = true -> negb (PyStr.mem c "s") = true.
Proof.
  intros H. apply is_digit_cases in H. cbn in H.
  repeat (destruct H as [<-|H]; [reflexivity|]). destruct H.
Qed.

Lemma numeral_digits d : all_chars is_digit (NilEmpty.string_of_uint d) = true.
Proof. induction d; cbn; trivial. Qed.

Lemma int_digits_numeral d :
  PyStr.int_digits true (NilEmpty.string_of_uint d) = Some d.
Proof. induction d; cbn; rewrite ?IHd; reflexivity. Qed.

Lemma int_digits_numeral_start d :
  d <> Nil -> PyStr.int_digits false (NilEmpty.string_of_uint d) = Some d.
Proof.
  destruct d; intros H; try (now destruct H);
    cbn; rewrite int_digits_numeral; reflexivity.
Qed.

(** [int] on a string of digits reads its magnitude. *)
Lemma int_of_digits s :
  s <> EmptyString -> all_chars is_digit s = true ->
  PyStr.int s = PyStr.int_magnitude s.
Proof.
  intros Hne Hs. unfold PyStr.int, PyStr.strip_by.
  destruct s as [|c s]; [now destruct Hne|]. clear Hne.
  pose proof Hs as Hs'. cbn in Hs'. apply andb_prop in Hs' as [Hc _].
  rewrite lstrip_kept
    by (apply negb_true_iff; now apply digit_not_int_space).
  rewrite rstrip_kept
    by (apply all_chars_impl with (p := is_digit);
        [apply digit_not_int_space | exact Hs]).
  apply is_digit_cases in Hc. cbn in Hc.
  repeat (destruct Hc as [<-|Hc]; [reflexivity|]). destruct Hc.
Qed.

Lemma to_uint_nonnil n : N.to_uint n <> Nil.
Proof.
  destruct n as [|q]; [discriminate|]. apply DecimalPos.Unsigned.to_uint_nonnil.
Qed.

Lemma decimal_numeral n : decimal n = NilEmpty.string_of_uint (N.to_uint n).
Proof.
  unfold decimal, NilZero.string_of_uint.
  pose proof (to_uint_nonnil n). now destruct (N.to_uint n).
Qed.

Lemma decimal_nonempty n : decimal n <> EmptyString.
Proof.
  rewrite decimal_numeral. pose proof (to_uint_nonnil n) as H.
  destruct (N.to_uint n); try discriminate. now destruct H.
Qed.

(** [int] reads back the numeral of [n]. *)
Lemma int_decimal n :
  (nb_digits (N.to_uint n) <= PyStr.max_str_digits)%nat ->
  PyStr.int (decimal n) = Some (Z.of_N n).
Proof.
  intros Hlen. rewrite int_of_digits.
  - unfold PyStr.int_magnitude. rewrite decimal_numeral.
    rewrite int_digits_numeral_start by apply to_uint_nonnil.
    apply Nat.leb_le in Hlen. rewrite Hlen.
    unfold Z.of_uint. change (Pos.of_uint (N.to_uint n)) with (N.of_uint (N.to_uint n)).
    now rewrite DecimalN.Unsigned.of_to.
  - apply decimal_nonempty.
  - rewrite decimal_numeral. apply numeral_digits.
Qed.

(** Stripping the unit off a numeral with the suffix "s". *)
Lemma strip_seconds n :
  PyStr.strip_chars "s" (decimal n ++ "s")%string = decimal n.
Proof.
  unfold PyStr.strip_chars, PyStr.strip_by.
  pose proof (decimal_nonempty n) as Hne.
  assert (Hd : all_chars is_digit (decimal n) = true)
    by (rewrite decimal_numeral; apply numeral_digits).
  destruct (decimal n) as [|c s] eqn:E; [now destruct Hne|].
  pose proof Hd as Hd'. cbn in Hd'. apply andb_prop in Hd' as [Hc _].
  change (String c s ++ "s")%string with (String c (s ++ "s")%string).
  rewrite lstrip_kept by (apply negb_true_iff; now apply digit_not_s).
  change (String c (s ++ "s")%string) with (String c s ++ "s")%string.
  apply rstrip_suffix; [|reflexivity].
  apply all_chars_impl with (p := is_digit); [apply digit_not_s | exact Hd].
Qed.

(** ** The retry loop *)

Section RetryLoop.

Variable backend : nat -> list Content -> Outcome Response.

Lemma rate_limited_status error_data :
  rate_limited error_data = true ->
  exists status,
    status_of error_data = Returned status /\ is_rate_limit status = true.
Proof.
  unfold rate_limited. destruct (status_of error_data) as [status|e].
  - intros H. now exists status.
  - discriminate.
Qed.

(** The [except] clause does what its branches say. *)
Lemma on_client_error_run e body attempt max_retries s :
  on_client_error e body attempt max_retries s
  = (fst (client_error_result e body attempt max_retries), s,
     snd (client_error_result e body attempt max_retries)).
Proof.
  unfold on_client_error, client_error_result, retry_events, parse_events,
    retry_delay, retry_delay_of, bind, lift, print, sleep, emit, ret, raise.
  destruct body as [error_data|]; [|reflexivity].
  destruct (status_of error_data) as [status|e0]; [|reflexivity]. cbn.
  destruct (is_rate_limit status); [|reflexivity].
  destruct (parse_retry_delay error_data) as [[d|]|pe]; cbn;
    destruct (attempt <? max_retries - 1)%Z; cbn; try reflexivity;
    match goal with |- context [sleepable ?d] => destruct (sleepable d) end;
    reflexivity.
Qed.

Lemma client_error_result_actions e body attempt max_retries :
  match fst (client_error_result e body attempt max_retries) with
  | Returned _ =>
      exists error_data,
        body = Some error_data /\ rate_limited error_data = true
        /\ (attempt < max_retries - 1)%Z
        /\ sleepable (retry_delay error_data) = true
        /\ snd (client_error_result e body attempt max_retries)
           = retry_events error_data attempt max_retries
  | Raised _ =>
      actions (snd (client_error_result e body attempt max_retries)) = []
  end.
Proof.
  unfold client_error_result, rate_limited, parse_events.
  destruct body as [error_data|]; [|reflexivity].
  destruct (status_of error_data) as [status|e0] eqn:Hst; [|reflexivity].
  destruct (is_rate_limit status) eqn:Hrate; [|reflexivity].
  destruct (attempt <? max_retries - 1)%Z eqn:Hlt.
  - destruct (sleepable (retry_delay error_data)) eqn:Hsl; cbn [fst snd].
    + exists error_data. apply Z.ltb_lt in Hlt. rewrite Hst.
      now repeat split.
    + now destruct (parse_retry_delay error_data) as [[d|]|pe].
  - cbn [fst snd]. now destruct (parse_retry_delay error_data) as [[d|]|pe].
Qed.

Lemma on_client_error_retries e error_data attempt max_retries s :
  rate_limited error_data = true ->
  (attempt < max_retries - 1)%Z ->
  sleepable (retry_delay error_data) = true ->
  on_client_error e (Some error_data) attempt max_retries s
  = (Returned tt, s, retry_events error_data attempt max_retries).
Proof.
  intros Hrl Hlt Hsl. destruct (rate_limited_status _ Hrl) as (st & Hst & Hrate).
  apply Z.ltb_lt in Hlt.
  rewrite on_client_error_run. unfold client_error_result.
  now rewrite Hst, Hrate, Hlt, Hsl.
Qed.

Lemma on_client_error_exhausted e error_data attempt max_retries s :
  rate_limited error_data = true ->
  (max_retries - 1 <= attempt)%Z ->
  exists evs,
    on_client_error e (Some error_data) attempt max_retries s
    = (Raised e, s, evs)
    /\ actions evs = [].
Proof.
  intros Hrl Hge. destruct (rate_limited_status _ Hrl) as (st & Hst & Hrate).
  apply Z.ltb_ge in Hge.
  rewrite on_client_error_run. unfold client_error_result, parse_events.
  rewrite Hst, Hrate, Hge. cbn [fst snd]. eexists. split; [reflexivity|].
  now destruct (parse_retry_delay error_data) as [[d|]|pe].
Qed.

Lemma on_client_error_not_retryable e error_data status attempt max_retries s :
  status_of error_data = Returned status ->
  is_rate_limit status = false ->
  on_client_error e (Some error_data) attempt max_retries s
  = (Raised e, s, [EvPrint (OutUnexpected error_data)]).
Proof.
  intros Hst Hrate.
  rewrite on_client_error_run. unfold client_error_result.
  now rewrite Hst, Hrate.
Qed.

Lemma retry_loop_returns attempt rest max_retries cs s r :
  backend (gen_calls s) cs = Returned r ->
  retry_loop backend (attempt :: rest) max_retries cs s
  = (Returned (Some r), after_generations 1 s, [EvGenerate cs]).
Proof.
  intros Hb. cbn. unfold catch, bind, generate_content, ret.
  now rewrite Hb.
Qed.

Lemma retry_loop_client_error attempt rest max_retries cs s body :
  backend (gen_calls s) cs = Raised (ClientError body) ->
  retry_loop backend (attempt :: rest) max_retries cs s
  = match on_client_error (ClientError body) body attempt max_retries
            (after_generations 1 s) with
    | (Returned _, s1, ev1) =>
        match retry_loop backend rest max_retries cs s1 with
        | (o, s2, ev2) => (o, s2, EvGenerate cs :: ev1 ++ ev2)
        end
    | (Raised e, s1, ev1) => (Raised e, s1, EvGenerate cs :: ev1)
    end.
Proof.
  intros Hb. cbn. unfold catch, bind, generate_content.
  rewrite Hb. cbn.
  fold (after_generations 1 s).
  destruct (on_client_error _ _ _ _ _) as [[[u|e'] s1] ev1]; cbn.
  - destruct (retry_loop backend rest max_retries cs s1) as [[o s2] ev2].
    reflexivity.
  - reflexivity.
Qed.

Lemma retry_loop_other_error attempt rest max_retries cs s e :
  backend (gen_calls s) cs = Raised e ->
  (forall body, e <> ClientError body) ->
  retry_loop backend (attempt :: rest) max_retries cs s
  = (Raised e, after_generations 1 s, [EvGenerate cs]).
Proof.
  intros Hb Hne. cbn. unfold catch, bind, generate_content.
  rewrite Hb. cbn.
  destruct e; try reflexivity. now destruct (Hne response_json).
Qed.

Lemma after_generations_0 s : after_generations 0 s = s.
Proof. now destruct s. Qed.

Lemma after_generations_add k k' s :
  after_generations k (after_generations k' s) = after_generations (k + k') s.
Proof. unfold after_generations. cbn. f_equal. lia. Qed.

(** Attempts that fail with a retryable body and are not the last one
    are waited out. *)
Lemma retry_loop_waits bodies : forall i rest max_retries cs s,
  (forall j b, nth_error bodies j = Some b ->
     backend (gen_calls s + j) cs = Raised (ClientError (Some b))
     /\ rate_limited b = true) ->
  (forall b, In b bodies -> sleepable (retry_delay b) = true) ->
  (Z.of_nat (i + length bodies) <= max_retries - 1)%Z ->
  retry_loop backend (map Z.of_nat (seq i (length bodies)) ++ rest)
    max_retries cs s
  = match retry_loop backend rest max_retries cs
            (after_generations (length bodies) s) with
    | (o, s', evs) => (o, s', waits cs max_retries i bodies ++ evs)
    end.
Proof.
  induction bodies as [|b bodies IH]; intros i rest max_retries cs s Hb Hsl Hle.
  - cbn. rewrite after_generations_0.
    now destruct (retry_loop backend rest max_retries cs s) as [[o s'] evs].
  - destruct (Hb 0%nat b eq_refl) as [Hb0 Hrl].
    rewrite Nat.add_0_r in Hb0.
    cbn [length seq map app].
    rewrite (retry_loop_client_error _ _ _ _ _ _ Hb0).
    rewrite on_client_error_retries
      by first [assumption | cbn [length] in Hle; lia | apply Hsl; now left].
    rewrite IH.
    + rewrite after_generations_add.
      replace (length bodies + 1)%nat with (S (length bodies)) by lia.
      destruct (retry_loop backend rest max_retries cs _) as [[o s'] evs].
      cbn [waits]. now rewrite <- app_comm_cons, app_assoc.
    + intros j b' Hj. cbn [after_generations gen_calls].
      replace (1 + gen_calls s + j)%nat with (gen_calls s + S j)%nat by lia.
      now apply Hb.
    + intros b' Hin. apply Hsl. now right.
    + cbn [length] in Hle. lia.
Qed.

Lemma actions_app evs evs' : actions (evs ++ evs') = actions evs ++ actions evs'.
Proof. apply filter_app. Qed.

Lemma actions_retry_events b attempt max_retries :
  actions (retry_events b attempt max_retries) = [EvSleep (retry_delay b)].
Proof.
  unfold retry_events. now destruct (parse_retry_delay b) as [[d|]|pe].
Qed.

Lemma actions_waits cs max_retries bodies : forall i,
  actions (waits cs max_retries i bodies)
  = flat_map (fun b => [EvGenerate cs; EvSleep (retry_delay b)]) bodies.
Proof.
  induction bodies as [|b bodies IH]; intros i; [reflexivity|].
  cbn [waits flat_map]. change (EvGenerate cs :: ?l) with ([EvGenerate cs] ++ l).
  rewrite !actions_app, actions_retry_events, IH. reflexivity.
Qed.

Lemma sleeps_app evs evs' : sleeps (evs ++ evs') = sleeps evs ++ sleeps evs'.
Proof.
  induction evs as [|e evs IH]; [reflexivity|].
  destruct e; cbn; now rewrite ?IH.
Qed.

Lemma generations_app evs evs' :
  generations (evs ++ evs') = generations evs ++ generations evs'.
Proof.
  induction evs as [|e evs IH]; [reflexivity|].
  destruct e; cbn; now rewrite ?IH.
Qed.

Lemma sleeps_actions evs : sleeps (actions evs) = sleeps evs.
Proof.
  unfold actions. induction evs as [|e evs IH]; [reflexivity|].
  destruct e; cbn; now rewrite ?IH.
Qed.

Lemma generations_actions evs : generations (actions evs) = generations evs.
Proof.
  unfold actions. induction evs as [|e evs IH]; [reflexivity|].
  destruct e; cbn; now rewrite ?IH.
Qed.

Lemma sleeps_rounds cs (f : json -> Z) bodies :
  sleeps (flat_map (fun b => [EvGenerate cs; EvSleep (f b)]) bodies)
  = map f bodies.
Proof. induction bodies as [|b bodies IH]; cbn; now rewrite ?IH. Qed.

Lemma generations_rounds cs (f : json -> Z) bodies :
  generations (flat_map (fun b => [EvGenerate cs; EvSleep (f b)]) bodies)
  = map (fun _ => cs) bodies.
Proof. induction bodies as [|b bodies IH]; cbn; now rewrite ?IH. Qed.

Lemma range_split (max_retries : Z) (k : nat) :
  (Z.of_nat k < max_retries)%Z ->
  range max_retries
  = map Z.of_nat (seq 0 k)
    ++ Z.of_nat k :: map Z.of_nat (seq (S k) (Z.to_nat max_retries - S k)).
Proof.
  intros Hk. unfold range.
  replace (Z.to_nat max_retries) with (k + S (Z.to_nat max_retries - S k))%nat
    at 1 by lia.
  rewrite seq_app, map_app. reflexivity.
Qed.

(** After [k] retryable failures, with attempts left, the loop is at
    attempt [k]. *)
Lemma generate_with_retry_waits bodies max_retries cs s :
  (forall j b, nth_error bodies j = Some b ->
     backend (gen_calls s + j) cs = Raised (ClientError (Some b))
     /\ rate_limited b = true) ->
  (forall b, In b bodies -> sleepable (retry_delay b) = true) ->
  (Z.of_nat (length bodies) < max_retries)%Z ->
  generate_with_retry backend cs max_retries s
  = match retry_loop backend
            (Z.of_nat (length bodies)
             :: map Z.of_nat (seq (S (length bodies))
                                  (Z.to_nat max_retries - S (length bodies))))
            max_retries cs (after_generations (length bodies) s) with
    | (o, s', evs) => (o, s', waits cs max_retries 0 bodies ++ evs)
    end.
Proof.
  intros Hb Hsl Hlt. unfold generate_with_retry.
  rewrite (range_split max_retries (length bodies) Hlt).
  apply retry_loop_waits; trivial. cbn. lia.
Qed.

Lemma retry_loop_starts attempt rest max_retries cs s :
  exists o s' evs,
    retry_loop backend (attempt :: rest) max_retries cs s
    = (o, s', EvGenerate cs :: evs).
Proof.
  destruct (backend (gen_calls s) cs) as [r|e] eqn:Hb.
  - rewrite (retry_loop_returns attempt rest max_retries cs s r Hb).
    now eexists _, _, _.
  - destruct e as [body| | | | | | | |];
      try (rewrite (retry_loop_other_error attempt rest max_retries cs s _ Hb)
             by discriminate; now eexists _, _, _).
    rewrite (retry_loop_client_error attempt rest max_retries cs s _ Hb).
    destruct (on_client_error _ _ _ _ _) as [[[u|e'] s1] ev1].
    + destruct (retry_loop backend rest max_retries cs s1) as [[o s2] ev2].
      now eexists _, _, _.
    + now eexists _, _, _.
Qed.

(** After [k] retryable failures an answer is returned. *)
Lemma generate_with_retry_recovers bodies max_retries cs s r :
  (forall j b, nth_error bodies j = Some b ->
     backend (gen_calls s + j) cs = Raised (ClientError (Some b))
     /\ rate_limited b = true) ->
  (forall b, In b bodies -> sleepable (retry_delay b) = true) ->
  (Z.of_nat (length bodies) < max_retries)%Z ->
  backend (gen_calls s + length bodies) cs = Returned r ->
  generate_with_retry backend cs max_retries s
  = (Returned (Some r), after_generations (S (length bodies)) s,
     waits cs max_retries 0 bodies ++ [EvGenerate cs]).
Proof.
  intros Hb Hsl Hlt Hr.
  rewrite (generate_with_retry_waits bodies max_retries cs s Hb Hsl Hlt).
  rewrite (retry_loop_returns _ _ _ _ _ r)
    by (cbn [after_generations gen_calls]; now rewrite Nat.add_comm).
  now rewrite after_generations_add.
Qed.

(** An invocation, call by call: the calls before the last one failed
    with a rate-limit status and a delay [sleep] takes, and were waited
    out; the last call decides the outcome. *)
Lemma retry_loop_trace n : forall i max_retries cs s o s' evs,
  (0 < n)%nat ->
  Z.of_nat (i + n) = max_retries ->
  retry_loop backend (map Z.of_nat (seq i n)) max_retries cs s = (o, s', evs) ->
  exists bodies tail,
    (length bodies < n)%nat
    /\ (forall j b, nth_error bodies j = Some b ->
          backend (gen_calls s + j) cs = Raised (ClientError (Some b))
          /\ rate_limited b = true
          /\ sleepable (retry_delay b) = true)
    /\ evs = waits cs max_retries i bodies ++ EvGenerate cs :: tail
    /\ actions tail = []
    /\ s' = after_generations (S (length bodies)) s
    /\ last_outcome max_retries (Z.of_nat (i + length bodies))
         (backend (gen_calls s + length bodies) cs) o.
Proof.
  induction n as [|n IH]; intros i max_retries cs s o s' evs Hn Hmax Hrun;
    [lia|].
  cbn [seq map] in Hrun.
  destruct (backend (gen_calls s) cs) as [r|e] eqn:Hb.
  - rewrite (retry_loop_returns _ _ _ _ _ r Hb) in Hrun.
    injection Hrun as <- <- <-. exists [], [].
    cbn [length nth_error waits app]. rewrite !Nat.add_0_r, Hb.
    split; [lia|]. split; [now intros [|j] b|].
    repeat split; reflexivity.
  - destruct e as [body| | | | | | | |];
      try (rewrite (retry_loop_other_error _ _ _ _ _ _ Hb) in Hrun
             by discriminate;
           injection Hrun as <- <- <-; exists [], [];
           cbn [length nth_error waits app]; rewrite !Nat.add_0_r, Hb;
           split; [lia|]; split; [now intros [|j] b|];
           repeat split; reflexivity).
    rewrite (retry_loop_client_error _ _ _ _ _ _ Hb) in Hrun.
    rewrite on_client_error_run in Hrun.
    pose proof (client_error_result_actions (ClientError body) body
                  (Z.of_nat i) max_retries) as Hres.
    destruct (fst (client_error_result (ClientError body) body (Z.of_nat i)
                     max_retries)) as [u|raised] eqn:Hfst.
    + destruct Hres as (b & -> & Hrl & Hlt & Hsl & Hev). rewrite Hev in Hrun.
      destruct (retry_loop backend (map Z.of_nat (seq (S i) n)) max_retries cs
                  (after_generations 1 s)) as [[o2 s2] ev2] eqn:Hrest.
      injection Hrun as <- <- <-.
      apply IH in Hrest as (bodies & tail & Hlen & Hbodies & -> & Htail & -> & Hlast);
        [|lia|lia].
      exists (b :: bodies), tail. cbn [length].
      split; [lia|]. split; [|split; [|split; [|split]]].
      * intros [|j] b' Hj.
        -- injection Hj as <-. now rewrite Nat.add_0_r.
        -- cbn [after_generations gen_calls] in Hbodies.
           replace (gen_calls s + S j)%nat with (1 + gen_calls s + j)%nat by lia.
           now apply Hbodies.
      * cbn [waits]. now rewrite <- app_comm_cons, <- app_assoc.
      * exact Htail.
      * rewrite after_generations_add. f_equal. lia.
      * cbn [after_generations gen_calls] in Hlast.
        replace (i + S (length bodies))%nat with (S i + length bodies)%nat by lia.
        replace (gen_calls s + S (length bodies))%nat
          with (1 + gen_calls s + length bodies)%nat by lia.
        exact Hlast.
    + injection Hrun as <- <- <-.
      exists [], (snd (client_error_result (ClientError body) body (Z.of_nat i)
                         max_retries)).
      cbn [length nth_error waits app]. rewrite !Nat.add_0_r, Hb.
      split; [lia|]. split; [now intros [|j] b|].
      split; [reflexivity|]. split; [exact Hres|]. split; [reflexivity|].
      unfold last_outcome. now rewrite Hfst.
Qed.

End RetryLoop.

Lemma rounds_generations cs delays :
  generations (rounds cs delays) = map (fun _ => cs) delays ++ [cs].
Proof.
  unfold rounds. rewrite generations_app. cbn.
  f_equal. induction delays as [|d delays IH]; cbn; now rewrite ?IH.
Qed.

Lemma rounds_sleeps cs delays : sleeps (rounds cs delays) = delays.
Proof.
  unfold rounds. rewrite sleeps_app. cbn. rewrite app_nil_r.
  induction delays as [|d delays IH]; cbn; now rewrite ?IH.
Qed.

Lemma actions_waits_rounds cs max_retries bodies tail :
  actions tail = [] ->
  actions (waits cs max_retries 0 bodies ++ EvGenerate cs :: tail)
  = rounds cs (map retry_delay bodies).
Proof.
  intros Htail. rewrite actions_app, actions_waits.
  change (EvGenerate cs :: tail) with ([EvGenerate cs] ++ tail).
  rewrite actions_app, Htail. unfold rounds. cbn. f_equal.
  induction bodies as [|b bodies IH]; cbn; now rewrite ?IH.
Qed.

(** The trace of an invocation that has attempts to make. *)
Lemma generate_with_retry_trace backend cs max_retries s o s' evs :
  (0 < max_retries)%Z ->
  generate_with_retry backend cs max_retries s = (o, s', evs) ->
  exists bodies,
    (Z.of_nat (length bodies) < max_retries)%Z
    /\ (forall j b, nth_error bodies j = Some b ->
          backend (gen_calls s + j) cs = Raised (ClientError (Some b))
          /\ rate_limited b = true
          /\ sleepable (retry_delay b) = true)
    /\ actions evs = rounds cs (map retry_delay bodies)
    /\ s' = after_generations (S (length bodies)) s
    /\ last_outcome max_retries (Z.of_nat (length bodies))
         (backend (gen_calls s + length bodies) cs) o.
Proof.
  intros Hpos Hrun. unfold generate_with_retry, range in Hrun.
  apply retry_loop_trace in Hrun
      as (bodies & tail & Hlen & Hbodies & -> & Htail & -> & Hlast);
    [|lia|lia].
  exists bodies. split; [lia|]. split; [exact Hbodies|].
  split; [now apply actions_waits_rounds|]. now split.
Qed.

(** Without attempts to make nothing is done. *)
Lemma generate_with_retry_idle backend cs max_retries s :
  (max_retries <= 0)%Z ->
  generate_with_retry backend cs max_retries s = (Returned None, s, []).
Proof.
  intros Hle. unfold generate_with_retry, range.
  replace (Z.to_nat max_retries) with 0%nat by lia. reflexivity.
Qed.

Lemma status_of_raises error_data e :
  status_of error_data = Raised e -> e = AttributeError.
Proof.
  unfold status_of. destruct error_data as [| | | | |items]; cbn;
    try (now intros [= <-]).
  destruct (Py.lookup "error" items) as [[| | | | |items']|]; cbn;
    now intros [= <-].
Qed.

(** A call that failed otherwise than with a rate-limit status, at
    whichever attempt, is the last thing the invocation does. *)
Lemma not_retryable_is_last backend cs max_retries s o s' evs j e :
  generate_with_retry backend cs max_retries s = (o, s', evs) ->
  (j < length (generations evs))%nat ->
  backend (gen_calls s + j) cs = Raised e ->
  retryable e = false ->
  (exists delays, actions evs = rounds cs delays /\ length delays = j)
  /\ last_outcome max_retries (Z.of_nat j) (Raised e) o.
Proof.
  intros Hrun Hj Hb Hnot.
  destruct (Z.ltb_spec 0 max_retries) as [Hpos|Hle];
    [|rewrite generate_with_retry_idle in Hrun by trivial;
      injection Hrun as <- <- <-; cbn in Hj; lia].
  apply generate_with_retry_trace in Hrun
      as (bodies & Hlen & Hbodies & Hact & -> & Hlast); trivial.
  rewrite <- generations_actions, Hact, rounds_generations, length_app,
    !length_map in Hj. cbn in Hj.
  assert (Hjlen : j = length bodies).
  { destruct (Nat.eq_dec j (length bodies)) as [|Hne]; trivial.
    assert (Hlt : (j < length bodies)%nat) by lia.
    apply nth_error_Some in Hlt.
    destruct (nth_error bodies j) as [b|] eqn:Hnth; [|now destruct Hlt].
    destruct (Hbodies j b Hnth) as (Hbj & Hrl & _).
    rewrite Hb in Hbj. injection Hbj as ->. cbn in Hnot. congruence. }
  subst j. rewrite Hb in Hlast. split; [|exact Hlast].
  exists (map retry_delay bodies). now rewrite length_map.
Qed.

(** C3. A failure with a recognized rate-limit status is retried: when
    every one of the [max_retries] attempts fails so, and the delay of
    each failure waited out is one [sleep] takes, the invoker makes
    exactly [max_retries] attempts, sleeps before each of the
    [max_retries - 1] retries for the delay of the failure just seen (the
    advised one when it parses, 30 seconds otherwise), and raises the last
    failure. *)
Theorem rate_limit_retries_then_raises
    (backend : nat -> list Content -> Outcome Response)
    (cs : list Content) (max_retries : Z) (s : Session)
    (bodies : list json) (last_body : json) :
  (Z.of_nat (length bodies) + 1 = max_retries)%Z ->
  (forall j b, nth_error (bodies ++ [last_body]) j = Some b ->
     backend (gen_calls s + j) cs = Raised (ClientError (Some b))
     /\ rate_limited b = true) ->
  (forall b, In b bodies -> sleepable (retry_delay b) = true) ->
  exists s' evs,
    generate_with_retry backend cs max_retries s
    = (Raised (ClientError (Some last_body)), s', evs)
    /\ actions evs
       = flat_map (fun b => [EvGenerate cs; EvSleep (retry_delay b)]) bodies
         ++ [EvGenerate cs]
    /\ sleeps evs = map retry_delay bodies
    /\ length (sleeps evs) = Z.to_nat (max_retries - 1)
    /\ length (generations evs) = Z.to_nat max_retries.
Proof.
  intros Hlen Hb Hsl.
  assert (Hpre : forall j b, nth_error bodies j = Some b ->
            backend (gen_calls s + j) cs = Raised (ClientError (Some b))
            /\ rate_limited b = true).
  { intros j b Hj. apply Hb. rewrite nth_error_app1; trivial.
    apply nth_error_Some. congruence. }
  destruct (Hb (length bodies) last_body) as [Hlast Hrl].
  { now rewrite nth_error_app2, Nat.sub_diag by lia. }
  rewrite (generate_with_retry_waits backend bodies max_retries cs s Hpre Hsl)
    by lia.
  replace (Z.to_nat max_retries - S (length bodies))%nat with 0%nat by lia.
  cbn [seq map].
  rewrite (retry_loop_client_error backend _ _ _ _ _ (Some last_body))
    by (cbn [after_generations gen_calls]; now rewrite Nat.add_comm).
  destruct (on_client_error_exhausted (ClientError (Some last_body))
              last_body (Z.of_nat (length bodies)) max_retries
              (after_generations 1 (after_generations (length bodies) s)) Hrl)
    as (ev & -> & Hev); [lia|].
  eexists _, _. split; [reflexivity|].
  assert (Hact : actions (waits cs max_retries 0 bodies ++ EvGenerate cs :: ev)
                 = flat_map (fun b => [EvGenerate cs; EvSleep (retry_delay b)])
                     bodies ++ [EvGenerate cs]).
  { rewrite actions_app, actions_waits.
    change (EvGenerate cs :: ev) with ([EvGenerate cs] ++ ev).
    now rewrite actions_app, Hev. }
  split; [exact Hact|].
  rewrite <- sleeps_actions, <- generations_actions, Hact.
  rewrite sleeps_app, generations_app, !length_app.
  rewrite sleeps_rounds, generations_rounds, !length_map. cbn.
  rewrite app_nil_r. split; [reflexivity|lia].
Qed.

Lemma rate_limit_retries_then_raises_witness :
  exists s' evs,
    generate_with_retry Scenario.out_of_quota [] default_max_retries fresh
    = (Raised (ClientError (Some (Scenario.quota_body "5s"))), s', evs)
    /\ sleeps evs = [5; 5]%Z
    /\ generations evs = [[]; []; []].
Proof.
  destruct (rate_limit_retries_then_raises Scenario.out_of_quota []
              default_max_retries fresh
              [Scenario.quota_body "5s"; Scenario.quota_body "5s"]
              (Scenario.quota_body "5s"))
    as (s' & evs & Hrun & Hact & _).
  - reflexivity.
  - intros j b Hj.
    do 3 (destruct j as [|j]; [injection Hj as <-; split; reflexivity|]).
    destruct j; discriminate Hj.
  - intros b [<-|[<-|[]]]; reflexivity.
  - exists s', evs. split; [exact Hrun|].
    rewrite <- sleeps_actions, <- generations_actions, Hact. split; reflexivity.
Defined.

(** An advised delay that parses but that no float holds is not slept:
    the backend is out of quota at every call and advises 1 followed by
    309 zeros seconds; the invocation makes one attempt out of three,
    never sleeps, and raises OverflowError in place of the failure. *)
Lemma delay_beyond_float_is_not_slept :
  (forall k, Faults.out_for_ages k []
             = Raised (ClientError (Some (Scenario.quota_body Faults.huge_delay))))
  /\ rate_limited (Scenario.quota_body Faults.huge_delay) = true
  /\ retry_delay (Scenario.quota_body Faults.huge_delay) = (10 ^ 309)%Z
  /\ exists evs,
       generate_with_retry Faults.out_for_ages [] default_max_retries fresh
       = (Raised OverflowError, after_generations 1 fresh, evs)
       /\ generations evs = [[]]
       /\ sleeps evs = [].
Proof.
  split; [reflexivity|]. split; [reflexivity|]. split; [now vm_compute|].
  eexists. split; [now vm_compute|]. split; reflexivity.
Qed.

(** C4. A failure of the backend that is not one with a recognized
    rate-limit status, met at whichever attempt, ends the invocation: the
    failing call is the last call, no sleep follows it (the calls and
    sleeps made are the [j] rounds before it and the call itself), and
    the failure is raised, the one received when it is of another class,
    has an unparsed body, or carries a status; a parsed body with no
    place for a status raises AttributeError instead. *)
Theorem other_failure_raised_at_once
    (backend : nat -> list Content -> Outcome Response)
    (cs : list Content) (max_retries : Z) (s : Session)
    (o : Outcome (option Response)) (s' : Session) (evs : list Event)
    (j : nat) (e : Exn) :
  generate_with_retry backend cs max_retries s = (o, s', evs) ->
  (j < length (generations evs))%nat ->
  backend (gen_calls s + j) cs = Raised e ->
  retryable e = false ->
  (exists delays, actions evs = rounds cs delays /\ length delays = j)
  /\ s' = after_generations (S j) s
  /\ (other_failure e = true -> o = Raised e)
  /\ (e = ClientError None -> o = Raised e)
  /\ (forall error_data,
        e = ClientError (Some error_data) ->
        other_failure e = false ->
        o = Raised AttributeError).
Proof.
  intros Hrun Hj Hb Hnot.
  assert (Hs' : s' = after_generations (length (generations evs)) s).
  { destruct (Z.ltb_spec 0 max_retries) as [Hpos|Hle];
      [|rewrite generate_with_retry_idle in Hrun by trivial;
        injection Hrun as <- <- <-; cbn in Hj; lia].
    destruct (generate_with_retry_trace _ _ _ _ _ _ _ Hpos Hrun)
      as (bodies & _ & _ & Hact & -> & _).
    now rewrite <- generations_actions, Hact, rounds_generations, length_app,
      !length_map, Nat.add_comm. }
  destruct (not_retryable_is_last _ _ _ _ _ _ _ _ _ Hrun Hj Hb Hnot)
    as [Hact Hlast].
  split; [exact Hact|]. split.
  { destruct Hact as (delays & Hact & Hlen).
    now rewrite Hs', <- generations_actions, Hact, rounds_generations,
      length_app, length_map, Hlen, Nat.add_comm. }
  unfold last_outcome, client_error_result in Hlast.
  split; [|split].
  - intros Hother.
    destruct e as [[error_data|]| | | | | | | |]; try discriminate Hother;
      trivial.
    cbn in Hother.
    destruct (status_of error_data) as [status|ex]; [|discriminate].
    apply negb_true_iff in Hother. now rewrite Hother in Hlast.
  - intros ->. exact Hlast.
  - intros error_data -> Hother. cbn in Hnot, Hother.
    unfold rate_limited in Hnot.
    destruct (status_of error_data) as [status|ex] eqn:Hst.
    + rewrite Hnot in Hother. discriminate.
    + cbn in Hlast. now rewrite (status_of_raises _ _ Hst) in Hlast.
Qed.

Lemma other_failure_raised_at_once_witness :
  let e := ClientError (Some Scenario.invalid_body) in
  let run := generate_with_retry (Faults.quota_then e) [] default_max_retries
               fresh in
  (exists delays, actions (snd run) = rounds [] delays /\ length delays = 1%nat)
  /\ fst (fst run) = Raised e.
Proof.
  intros e run.
  destruct (other_failure_raised_at_once (Faults.quota_then e) []
              default_max_retries fresh (fst (fst run)) (snd (fst run))
              (snd run) 1 e)
    as (Hact & _ & Hraised & _); try reflexivity.
  - vm_compute. lia.
  - split; [exact Hact|]. now apply Hraised.
Defined.

(** A parsed body whose [error] is a plain message has no status, so none
    of the recognized ones; the invocation does not raise the failure
    received but the AttributeError of reading the status. *)
Lemma failure_without_status_is_not_reraised :
  let e := ClientError (Some Faults.flat_body) in
  (forall k, Faults.flat_failure k [] = Raised e)
  /\ retryable e = false
  /\ generate_with_retry Faults.flat_failure [] default_max_retries fresh
     = (Raised AttributeError, after_generations 1 fresh, [EvGenerate []])
  /\ Raised AttributeError <> @Raised (option Response) e.
Proof.
  cbv zeta. split; [reflexivity|]. split; [reflexivity|].
  split; [reflexivity|discriminate].
Qed.

(** C10. A client error whose body does not parse as JSON, met at
    whichever attempt, is raised at once: the original failure is the
    outcome, the failing call is the last call and no sleep follows it.
    The invoker sleeps only after a failure whose body parsed and carries
    a rate-limit status: its [j]-th sleep follows its [j]-th call, which
    failed so, and lasts the delay of that body. *)
Theorem unparsed_failure_raised_at_once
    (backend : nat -> list Content -> Outcome Response)
    (cs : list Content) (max_retries : Z) (s : Session)
    (o : Outcome (option Response)) (s' : Session) (evs : list Event) :
  generate_with_retry backend cs max_retries s = (o, s', evs) ->
  (forall j,
     (j < length (generations evs))%nat ->
     backend (gen_calls s + j) cs = Raised (ClientError None) ->
     o = Raised (ClientError None)
     /\ s' = after_generations (S j) s
     /\ exists delays, actions evs = rounds cs delays /\ length delays = j)
  /\ (forall j d,
        nth_error (sleeps evs) j = Some d ->
        exists error_data,
          backend (gen_calls s + j) cs = Raised (ClientError (Some error_data))
          /\ rate_limited error_data = true
          /\ d = retry_delay error_data).
Proof.
  intros Hrun. split.
  - intros j Hj Hb.
    destruct (not_retryable_is_last _ _ _ _ _ _ _ _ _ Hrun Hj Hb eq_refl)
      as [Hact Hlast].
    split; [exact Hlast|]. split; [|exact Hact].
    destruct (Z.ltb_spec 0 max_retries) as [Hpos|Hle];
      [|rewrite generate_with_retry_idle in Hrun by trivial;
        injection Hrun as <- <- <-; cbn in Hj; lia].
    destruct (generate_with_retry_trace _ _ _ _ _ _ _ Hpos Hrun)
      as (bodies & _ & _ & Hact' & -> & _).
    destruct Hact as (delays & Hact & Hlen). rewrite Hact in Hact'.
    apply (f_equal sleeps) in Hact'. rewrite !rounds_sleeps in Hact'.
    apply (f_equal (@length Z)) in Hact'. rewrite length_map in Hact'.
    f_equal. lia.
  - intros j d Hnth.
    destruct (Z.ltb_spec 0 max_retries) as [Hpos|Hle];
      [|rewrite generate_with_retry_idle in Hrun by trivial;
        injection Hrun as <- <- <-; now destruct j].
    destruct (generate_with_retry_trace _ _ _ _ _ _ _ Hpos Hrun)
      as (bodies & _ & Hbodies & Hact & _).
    rewrite <- sleeps_actions, Hact, rounds_sleeps, nth_error_map in Hnth.
    destruct (nth_error bodies j) as [b|] eqn:Hj; [|discriminate].
    injection Hnth as <-. exists b.
    destruct (Hbodies j b Hj) as (Hb & Hrl & _). now repeat split.
Qed.

Lemma unparsed_failure_raised_at_once_witness :
  let garbled_retry := Faults.quota_then (ClientError None) in
  let run := generate_with_retry garbled_retry [] default_max_retries fresh in
  fst (fst run) = Raised (ClientError None)
  /\ actions (snd run) = rounds [] [5%Z]
  /\ generate_with_retry Scenario.garbled [] default_max_retries fresh
     = (Raised (ClientError None), after_generations 1 fresh,
        [EvGenerate []; EvPrint OutParseFailed]).
Proof.
  intros garbled_retry run.
  destruct (unparsed_failure_raised_at_once garbled_retry []
              default_max_retries fresh (fst (fst run)) (snd (fst run))
              (snd run) eq_refl) as [Hraise _].
  destruct (Hraise 1%nat) as (Ho & _ & delays & Hact & Hlen);
    [vm_compute; lia|reflexivity|].
  split; [exact Ho|]. split; reflexivity.
Defined.

(** ** The delay of a retry *)

Lemma scan_details_skip pre rest :
  forallb other_detail pre = true ->
  scan_details (pre ++ rest) = scan_details rest.
Proof.
  induction pre as [|d pre IH]; [reflexivity|].
  cbn [forallb app scan_details]. intros [Hd Hpre]%andb_prop.
  unfold other_detail in Hd.
  destruct (Py.get d "@type" JNull) as [ty|e]; [|discriminate].
  apply negb_true_iff in Hd. cbn [obind]. rewrite Hd. now apply IH.
Qed.

Lemma scan_details_retry_info detail rest delay :
  retry_info detail delay ->
  scan_details (detail :: rest)
  = obind (Py.str_strip (match delay with Some v => v | None => JString "30s" end) "s")
          (fun digits => obind (Py.to_int digits) (fun d => Returned (Some d))).
Proof.
  intros (items & -> & Hty & Hdelay).
  cbn [scan_details Py.get]. rewrite Hty, Hdelay. reflexivity.
Qed.

Lemma retry_delay_scan error_data details :
  details_of error_data = Returned (JArray details) ->
  retry_delay error_data
  = match scan_details details with
    | Returned (Some d) => d
    | _ => 30%Z
    end.
Proof.
  intros H. unfold retry_delay, parse_retry_delay. now rewrite H.
Qed.

(** C5. After a retryable failure, at whichever attempt that is not the
    last, the wait is [retry_delay] of the failure: when [sleep] takes
    it, it is the sleep of that round and another attempt follows, and
    [sleep] takes the fallback of 30 seconds (a delay no float holds ends
    the invocation there with OverflowError).  The delay is the integer
    of the first RetryInfo detail when its [retryDelay] is that integer
    followed by "s"; it is 30 when no detail is a RetryInfo, when the
    [retryDelay] of the first one does not parse, and whenever reading
    the details fails. *)
Theorem retry_delay_hint_or_default
    (backend : nat -> list Content -> Outcome Response)
    (cs : list Content) (max_retries : Z) (s : Session)
    (o : Outcome (option Response)) (s' : Session) (evs : list Event)
    (j : nat) (error_data : json) :
  generate_with_retry backend cs max_retries s = (o, s', evs) ->
  (j < length (generations evs))%nat ->
  (Z.of_nat j < max_retries - 1)%Z ->
  backend (gen_calls s + j) cs = Raised (ClientError (Some error_data)) ->
  rate_limited error_data = true ->
  (sleepable (retry_delay error_data) = true ->
   exists delays,
     actions evs = rounds cs delays
     /\ nth_error delays j = Some (retry_delay error_data))
  /\ (retry_delay error_data = 30%Z ->
      exists delays,
        actions evs = rounds cs delays /\ nth_error delays j = Some 30%Z)
  /\ (sleepable (retry_delay error_data) = false ->
      o = Raised OverflowError
      /\ exists delays, actions evs = rounds cs delays /\ length delays = j)
  /\ (forall pre detail post n,
        details_of error_data = Returned (JArray (pre ++ detail :: post)) ->
        forallb other_detail pre = true ->
        retry_info detail (Some (JString (decimal n ++ "s")%string)) ->
        (nb_digits (N.to_uint n) <= PyStr.max_str_digits)%nat ->
        retry_delay error_data = Z.of_N n)
  /\ (forall details,
        details_of error_data = Returned (JArray details) ->
        forallb other_detail details = true ->
        retry_delay error_data = 30%Z)
  /\ (forall pre detail post v,
        details_of error_data = Returned (JArray (pre ++ detail :: post)) ->
        forallb other_detail pre = true ->
        retry_info detail (Some v) ->
        (forall str, v = JString str ->
                     PyStr.int (PyStr.strip_chars "s" str) = None) ->
        retry_delay error_data = 30%Z)
  /\ (forall e,
        parse_retry_delay error_data = Raised e ->
        retry_delay error_data = 30%Z).
Proof.
  intros Hrun Hj Hleft Hb Hrl.
  assert (Hround :
    (sleepable (retry_delay error_data) = true
     /\ exists delays,
          actions evs = rounds cs delays
          /\ nth_error delays j = Some (retry_delay error_data))
    \/ (sleepable (retry_delay error_data) = false
        /\ o = Raised OverflowError
        /\ exists delays, actions evs = rounds cs delays /\ length delays = j)).
  { assert (Hpos : (0 < max_retries)%Z) by lia.
    destruct (generate_with_retry_trace _ _ _ _ _ _ _ Hpos Hrun)
      as (bodies & _ & Hbodies & Hact & _ & Hlast).
    rewrite <- generations_actions, Hact, rounds_generations, length_app,
      !length_map in Hj. cbn in Hj.
    destruct (nth_error bodies j) as [b|] eqn:Hnth.
    - left. destruct (Hbodies j b Hnth) as (Hbj & _ & Hsl).
      rewrite Hb in Hbj. injection Hbj as <-. split; [exact Hsl|].
      exists (map retry_delay bodies). split; [exact Hact|].
      now rewrite nth_error_map, Hnth.
    - right. apply nth_error_None in Hnth.
      assert (Hlen : j = length bodies) by lia. subst j.
      rewrite Hb in Hlast. unfold last_outcome, client_error_result in Hlast.
      destruct (rate_limited_status _ Hrl) as (st & Hst & Hrate).
      rewrite Hst, Hrate in Hlast.
      replace (Z.of_nat (length bodies) <? max_retries - 1)%Z with true
        in Hlast by (symmetry; now apply Z.ltb_lt).
      destruct (sleepable (retry_delay error_data)); [now destruct Hlast|].
      split; [reflexivity|]. split; [exact Hlast|].
      exists (map retry_delay bodies). split; [exact Hact|].
      apply length_map. }
  split; [|split; [|split; [|split; [|split; [|split]]]]].
  - intros Hsl. destruct Hround as [[_ Hslept]|[Hno _]]; [exact Hslept|].
    rewrite Hsl in Hno. discriminate Hno.
  - intros H30. destruct Hround as [[_ Hslept]|[Hno _]].
    + now rewrite <- H30.
    + rewrite H30 in Hno. discriminate Hno.
  - intros Hno. destruct Hround as [[Hsl _]|[_ Hends]]; [|exact Hends].
    rewrite Hsl in Hno. discriminate Hno.
  - intros pre detail post n Hdet Hpre Hinfo Hlen.
    rewrite (retry_delay_scan _ _ Hdet), (scan_details_skip _ _ Hpre).
    rewrite (scan_details_retry_info _ _ _ Hinfo).
    cbn [Py.str_strip obind]. rewrite strip_seconds.
    unfold Py.to_int. now rewrite (int_decimal n Hlen).
  - intros details Hdet Hall.
    rewrite (retry_delay_scan _ _ Hdet).
    rewrite <- (app_nil_r details), (scan_details_skip _ _ Hall). reflexivity.
  - intros pre detail post v Hdet Hpre Hinfo Hbad.
    rewrite (retry_delay_scan _ _ Hdet), (scan_details_skip _ _ Hpre).
    rewrite (scan_details_retry_info _ _ _ Hinfo).
    destruct v as [| | |str| |]; try reflexivity.
    cbn [Py.str_strip obind]. unfold Py.to_int. now rewrite (Hbad str eq_refl).
  - intros e He. unfold retry_delay. now rewrite He.
Qed.

Lemma retry_delay_hint_or_default_witness :
  let run :=
    generate_with_retry Scenario.twice_out_of_quota [] default_max_retries
      fresh in
  (exists delays,
     actions (snd run) = rounds [] delays /\ nth_error delays 1 = Some 5%Z)
  /\ retry_delay (Scenario.quota_body (decimal 5 ++ "s")) = 5%Z.
Proof.
  intros run.
  destruct (retry_delay_hint_or_default Scenario.twice_out_of_quota []
              default_max_retries fresh (fst (fst run)) (snd (fst run))
              (snd run) 1 (Scenario.quota_body "5s"))
    as (Hslept & _ & _ & Hhint & _); try reflexivity.
  - vm_compute. lia.
  - split; [exact (Hslept eq_refl)|].
    apply (Hhint [JObject [("@type", JString "type.googleapis.com/google.rpc.Help")]]
             (JObject [("@type", JString RETRY_INFO);
                       ("retryDelay", JString "5s")]) [] 5%N); try reflexivity.
    + eexists. repeat split; reflexivity.
    + vm_compute. lia.
Defined.

(** ** What the invoker does to a session *)

Section Invoker.

Variable backend : nat -> list Content -> Outcome Response.

Lemma on_client_error_events cs e body attempt max_retries s o s' evs :
  on_client_error e body attempt max_retries s = (o, s', evs) ->
  s' = s /\ Forall (invoker_event cs) evs.
Proof.
  rewrite on_client_error_run. intros H; injection H as <- <- <-.
  split; trivial.
  unfold client_error_result, parse_events, retry_events.
  destruct body as [error_data|]; [|repeat constructor].
  destruct (status_of error_data) as [status|e0]; [|constructor].
  destruct (is_rate_limit status); [|repeat constructor].
  destruct (attempt <? max_retries - 1)%Z;
    [destruct (sleepable (retry_delay error_data))|];
    destruct (parse_retry_delay error_data) as [[d|]|pe];
    repeat constructor.
Qed.

Lemma retry_loop_events attempts max_retries cs : forall s o s' evs,
  retry_loop backend attempts max_retries cs s = (o, s', evs) ->
  contents s' = contents s /\ tool_calls s' = tool_calls s
  /\ Forall (invoker_event cs) evs.
Proof.
  induction attempts as [|attempt rest IH]; intros s o s' evs Hrun.
  - cbn in Hrun. injection Hrun as <- <- <-. repeat split. constructor.
  - destruct (backend (gen_calls s) cs) as [r|e] eqn:Hb.
    + rewrite (retry_loop_returns backend attempt rest max_retries cs s r Hb)
        in Hrun.
      injection Hrun as <- <- <-. repeat split. repeat constructor.
    + destruct e as [body| | | | | | | |];
        try (rewrite (retry_loop_other_error backend attempt rest max_retries
                        cs s _ Hb) in Hrun by discriminate;
             injection Hrun as <- <- <-; repeat split; repeat constructor).
      rewrite (retry_loop_client_error backend attempt rest max_retries cs s
                 _ Hb) in Hrun.
      destruct (on_client_error _ _ _ _ _) as [[[u|e'] s1] ev1] eqn:Hh;
        apply (on_client_error_events cs) in Hh as [-> Hev1].
      * destruct (retry_loop backend rest max_retries cs _)
          as [[o2 s2] ev2] eqn:Hrest.
        apply IH in Hrest as (Hc & Ht & Hev2).
        injection Hrun as <- <- <-. repeat split; trivial.
        constructor; [reflexivity|]. apply Forall_app. now split.
      * injection Hrun as <- <- <-. repeat split.
        constructor; [reflexivity|trivial].
Qed.

(** An answer of the invoker is an answer of the backend on the same
    conversation. *)
Lemma retry_loop_answer attempts max_retries cs : forall s r s' evs,
  retry_loop backend attempts max_retries cs s = (Returned (Some r), s', evs) ->
  exists k, backend k cs = Returned r.
Proof.
  induction attempts as [|attempt rest IH]; intros s r s' evs Hrun.
  - discriminate Hrun.
  - destruct (backend (gen_calls s) cs) as [r0|e] eqn:Hb.
    + rewrite (retry_loop_returns backend attempt rest max_retries cs s r0 Hb)
        in Hrun.
      injection Hrun as <- <- <-. now exists (gen_calls s).
    + destruct e as [body| | | | | | | |];
        try (rewrite (retry_loop_other_error backend attempt rest max_retries
                        cs s _ Hb) in Hrun by discriminate;
             discriminate Hrun).
      rewrite (retry_loop_client_error backend attempt rest max_retries cs s
                 _ Hb) in Hrun.
      destruct (on_client_error _ _ _ _ _) as [[[u|e'] s1] ev1];
        [|discriminate Hrun].
      destruct (retry_loop backend rest max_retries cs s1)
        as [[o2 s2] ev2] eqn:Hrest.
      injection Hrun as -> <- <-. eapply IH, Hrest.
Qed.

(** With attempts to make, the invoker does not fall off its loop. *)
Lemma retry_loop_not_none attempts max_retries cs : forall s s' evs,
  attempts <> [] ->
  (Forall (fun a => (0 <= a < max_retries)%Z) attempts) ->
  (last attempts 0%Z = max_retries - 1)%Z ->
  retry_loop backend attempts max_retries cs s <> (Returned None, s', evs).
Proof.
  induction attempts as [|attempt rest IH]; intros s s' evs Hne Hall Hlast Hrun;
    [now destruct Hne|].
  destruct (backend (gen_calls s) cs) as [r0|e] eqn:Hb.
  - rewrite (retry_loop_returns backend attempt rest max_retries cs s r0 Hb)
      in Hrun. discriminate Hrun.
  - destruct e as [body| | | | | | | |];
      try (rewrite (retry_loop_other_error backend attempt rest max_retries
                      cs s _ Hb) in Hrun by discriminate;
           discriminate Hrun).
    rewrite (retry_loop_client_error backend attempt rest max_retries cs s
               _ Hb) in Hrun.
    destruct (on_client_error _ _ _ _ _) as [[[u|e'] s1] ev1] eqn:Hh;
      [|discriminate Hrun].
    destruct rest as [|attempt' rest].
    + cbn in Hlast. subst attempt.
      rewrite on_client_error_run in Hh. unfold client_error_result in Hh.
      destruct body as [error_data|]; [|discriminate Hh].
      destruct (status_of error_data) as [status|e0]; [|discriminate Hh].
      destruct (is_rate_limit status); [|discriminate Hh].
      rewrite Z.ltb_irrefl in Hh. discriminate Hh.
    + destruct (retry_loop backend (attempt' :: rest) max_retries cs s1)
        as [[o2 s2] ev2] eqn:Hrest.
      injection Hrun as -> <- <-.
      eapply IH; [discriminate| |exact Hlast|exact Hrest].
      now inversion Hall.
Qed.

End Invoker.

(** ** One pass of the loop, path by path *)

Arguments generate_with_retry : simpl never.
Arguments show_parts : simpl never.
Arguments show_texts : simpl never.

Lemma show_texts_run ps : forall s, show_texts ps s = (Returned tt, s, texts_shown ps).
Proof.
  induction ps as [|p ps IH]; intros s; [reflexivity|].
  unfold show_texts; fold show_texts. unfold bind, texts_shown. cbn [flat_map].
  destruct (truthy (text p)); cbn; now rewrite IH.
Qed.

Lemma show_parts_run ps : forall s, show_parts ps s = (Returned tt, s, parts_shown ps).
Proof.
  induction ps as [|p ps IH]; intros s; [reflexivity|].
  unfold show_parts; fold show_parts. unfold bind, parts_shown. cbn [flat_map].
  destruct (truthy (text p)); cbn; [now rewrite IH|].
  destruct (function_call p); cbn; now rewrite IH.
Qed.

Ltac events_eq :=
  rewrite ?app_nil_r, <- ?app_assoc; cbn [app];
  rewrite ?app_nil_r, <- ?app_assoc; reflexivity.

Ltac run_client :=
  unfold turn, tool_round_trip, on_tool_failure, bind, catch, append,
    get_contents, first_candidate, first_part, call_tool, lift, print, emit,
    ret, raise;
  cbn.

Section Turn.

Variable backend : nat -> list Content -> Outcome Response.
Variable tool_server : nat -> string -> json -> Outcome CallToolResult.

(** The model answers with text. *)
Lemma turn_text_reply u s r s2 ev1 c cands p ps :
  generate_with_retry backend (contents s ++ [user_turn u]) default_max_retries
    (with_turns s [user_turn u]) = (Returned (Some r), s2, ev1) ->
  candidates r = c :: cands -> parts c = p :: ps -> function_call p = None ->
  turn backend tool_server u s
  = (Returned tt, with_turns s2 [c],
     ev1 ++ EvPrint (OutPart p) :: parts_shown (parts c)).
Proof.
  intros Hgen Hc Hp Hfc. unfold with_turns, user_turn in Hgen.
  run_client. rewrite Hgen, Hc, Hp, Hfc, show_parts_run. reflexivity.
Qed.

(** The model asks for a tool and the call raises. *)
Lemma turn_tool_raises u s r s2 ev1 c cands p ps fc e :
  generate_with_retry backend (contents s ++ [user_turn u]) default_max_retries
    (with_turns s [user_turn u]) = (Returned (Some r), s2, ev1) ->
  candidates r = c :: cands -> parts c = p :: ps -> function_call p = Some fc ->
  tool_server (tool_calls s2) (name fc) (args fc) = Raised e ->
  turn backend tool_server u s
  = (Returned tt, after_tool_call s2,
     request_events ev1 p fc ++ failure_events fc e).
Proof.
  intros Hgen Hc Hp Hfc Htool. unfold with_turns, user_turn in Hgen.
  run_client. rewrite Hgen, Hc, Hp, Hfc, Htool. unfold request_events.
  now rewrite <- app_assoc.
Qed.

(** The tool answers with something that has no text. *)
Lemma turn_tool_no_text u s r s2 ev1 c cands p ps fc tool_result e :
  generate_with_retry backend (contents s ++ [user_turn u]) default_max_retries
    (with_turns s [user_turn u]) = (Returned (Some r), s2, ev1) ->
  candidates r = c :: cands -> parts c = p :: ps -> function_call p = Some fc ->
  tool_server (tool_calls s2) (name fc) (args fc) = Returned tool_result ->
  result_text tool_result = Raised e ->
  turn backend tool_server u s
  = (Returned tt, with_turns (after_tool_call s2) [call_turn fc],
     request_events ev1 p fc
     ++ EvPrint (OutToolResult tool_result) :: failure_events fc e).
Proof.
  intros Hgen Hc Hp Hfc Htool Htext. unfold with_turns, user_turn in Hgen.
  run_client. rewrite Hgen, Hc, Hp, Hfc, Htool, Htext. unfold request_events.
  now rewrite <- app_assoc.
Qed.

(** The tool answers [t]: what the pass does with the outcome of the
    second generation. *)
Lemma turn_tool_answers u s r s2 ev1 c cands p ps fc tool_result t o s4 ev2 :
  generate_with_retry backend (contents s ++ [user_turn u]) default_max_retries
    (with_turns s [user_turn u]) = (Returned (Some r), s2, ev1) ->
  candidates r = c :: cands -> parts c = p :: ps -> function_call p = Some fc ->
  tool_server (tool_calls s2) (name fc) (args fc) = Returned tool_result ->
  result_text tool_result = Returned t ->
  generate_with_retry backend (contents (fed_back s2 fc t)) default_max_retries
    (fed_back s2 fc t) = (o, s4, ev2) ->
  turn backend tool_server u s
  = match o with
    | Returned (Some r2) =>
        match candidates r2 with
        | c2 :: _ =>
            (Returned tt, with_turns s4 [c2],
             request_events ev1 p fc
             ++ EvPrint (OutToolResult tool_result) :: ev2
             ++ texts_shown (parts c2))
        | [] =>
            (Returned tt, s4,
             request_events ev1 p fc
             ++ EvPrint (OutToolResult tool_result) :: ev2
             ++ failure_events fc IndexError)
        end
    | Returned None =>
        (Returned tt, s4,
         request_events ev1 p fc
         ++ EvPrint (OutToolResult tool_result) :: ev2)
    | Raised e =>
        (Returned tt, s4,
         request_events ev1 p fc
         ++ EvPrint (OutToolResult tool_result) :: ev2
         ++ failure_events fc e)
    end.
Proof.
  intros Hgen Hc Hp Hfc Htool Htext Hgen2.
  unfold with_turns, user_turn in Hgen.
  unfold fed_back, with_turns, after_tool_call, call_turn, response_turn
    in Hgen2. cbn in Hgen2.
  run_client. rewrite Hgen, Hc, Hp, Hfc, Htool, Htext.
  rewrite <- !app_assoc. cbn [app]. rewrite Hgen2. unfold request_events.
  unfold failure_events.
  destruct o as [[r2|]|e]; cbn.
  - destruct (candidates r2) as [|c2 cands2]; cbn; [events_eq|].
    destruct (parts c2) as [|p2 ps2] eqn:Hp2; cbn; [events_eq|].
    rewrite show_texts_run. events_eq.
  - events_eq.
  - events_eq.
Qed.

(** The first generation gives no part to look at: the pass raises. *)
Lemma turn_raises u s o s2 ev1 :
  generate_with_retry backend (contents s ++ [user_turn u]) default_max_retries
    (with_turns s [user_turn u]) = (o, s2, ev1) ->
  match o with
  | Returned (Some r) =>
      match candidates r with
      | c :: _ => parts c = []
      | [] => True
      end
  | _ => True
  end ->
  exists e, turn backend tool_server u s = (Raised e, s2, ev1).
Proof.
  intros Hgen Hnone. unfold with_turns, user_turn in Hgen.
  run_client. rewrite Hgen.
  destruct o as [[r|]|e]; cbn.
  - destruct (candidates r) as [|c cands]; cbn.
    + eexists. events_eq.
    + rewrite Hnone. cbn. eexists. events_eq.
  - eexists. events_eq.
  - now eexists.
Qed.

End Turn.

(** ** Observations on the events of a pass *)

Lemma failure_notices_app evs evs' :
  failure_notices (evs ++ evs') = failure_notices evs ++ failure_notices evs'.
Proof.
  induction evs as [|e evs IH]; [reflexivity|].
  destruct e as [| | | | |o]; cbn; rewrite ?IH; trivial.
  destruct o; cbn; now rewrite ?IH.
Qed.

Lemma assistant_texts_app evs evs' :
  assistant_texts (evs ++ evs') = assistant_texts evs ++ assistant_texts evs'.
Proof.
  induction evs as [|e evs IH]; [reflexivity|].
  destruct e as [| | | | |o]; cbn; rewrite ?IH; trivial.
  destruct o; cbn; now rewrite ?IH.
Qed.

Lemma tool_invocations_app evs evs' :
  tool_invocations (evs ++ evs')
  = tool_invocations evs ++ tool_invocations evs'.
Proof.
  induction evs as [|e evs IH]; [reflexivity|].
  destruct e; cbn; now rewrite ?IH.
Qed.

Lemma invoker_events_observed cs evs :
  Forall (invoker_event cs) evs ->
  Forall (eq cs) (generations evs)
  /\ failure_notices evs = []
  /\ assistant_texts evs = []
  /\ tool_invocations evs = [].
Proof.
  induction 1 as [|e evs He _ (IH1 & IH2 & IH3 & IH4)]; [now repeat split|].
  destruct e as [| | | | |o]; cbn in He |- *; try (now destruct He);
    try (now repeat split).
  - subst. repeat split; trivial. now constructor.
  - destruct o; cbn; try (now destruct He); now repeat split.
Qed.

Lemma texts_shown_observed ps :
  generations (texts_shown ps) = []
  /\ failure_notices (texts_shown ps) = []
  /\ tool_invocations (texts_shown ps) = []
  /\ (forall t, In t (assistant_texts (texts_shown ps)) ->
                exists p, In p ps /\ text p = Some t).
Proof.
  unfold texts_shown.
  induction ps as [|p ps (IH1 & IH2 & IH3 & IH4)];
    [repeat split; intros t []|].
  cbn [flat_map].
  rewrite generations_app, failure_notices_app, tool_invocations_app,
    assistant_texts_app, IH1, IH2, IH3.
  destruct (text p) as [[|a t0]|] eqn:Ht; cbn; repeat split; trivial.
  - intros t Hin. destruct (IH4 t Hin) as (q & Hq & Hqt). exists q. now split; [right|].
  - intros t [<-|Hin].
    + exists p. now split; [left|].
    + destruct (IH4 t Hin) as (q & Hq & Hqt). exists q. now split; [right|].
  - intros t Hin. destruct (IH4 t Hin) as (q & Hq & Hqt). exists q. now split; [right|].
Qed.

Lemma parts_shown_observed ps :
  generations (parts_shown ps) = []
  /\ failure_notices (parts_shown ps) = []
  /\ tool_invocations (parts_shown ps) = [].
Proof.
  unfold parts_shown. induction ps as [|p ps (IH1 & IH2 & IH3)]; [now repeat split|].
  cbn [flat_map].
  rewrite generations_app, failure_notices_app, tool_invocations_app,
    IH1, IH2, IH3.
  destruct (truthy (text p)); [now repeat split|].
  destruct (function_call p); now repeat split.
Qed.

(** A call carried by a part without text is shown as a request. *)
Lemma parts_shown_request ps q fc :
  In q ps -> function_call q = Some fc -> truthy (text q) = None ->
  In (EvPrint (OutToolRequest fc)) (parts_shown ps).
Proof.
  intros Hq Hfc Htext. unfold parts_shown. apply in_flat_map.
  exists q. split; trivial. rewrite Htext, Hfc. now left.
Qed.

Lemma generate_with_retry_events backend cs max_retries s o s' evs :
  generate_with_retry backend cs max_retries s = (o, s', evs) ->
  contents s' = contents s /\ tool_calls s' = tool_calls s
  /\ Forall (invoker_event cs) evs.
Proof. apply retry_loop_events. Qed.

Lemma generate_with_retry_answer backend cs max_retries s r s' evs :
  generate_with_retry backend cs max_retries s = (Returned (Some r), s', evs) ->
  exists k, backend k cs = Returned r.
Proof. apply retry_loop_answer. Qed.

Lemma generate_with_retry_starts backend cs s :
  exists o s' evs,
    generate_with_retry backend cs default_max_retries s
    = (o, s', EvGenerate cs :: evs).
Proof. apply retry_loop_starts. Qed.

Lemma generate_with_retry_not_none backend cs s s' evs :
  generate_with_retry backend cs default_max_retries s <> (Returned None, s', evs).
Proof.
  apply retry_loop_not_none; [discriminate| |reflexivity].
  repeat constructor; discriminate.
Qed.

(** ** The interactive loop *)

Section Loop.

Variable backend : nat -> list Content -> Outcome Response.
Variable tool_server : nat -> string -> json -> Outcome CallToolResult.

Lemma chat_loop_exit line rest s :
  PyStr.lower (PyStr.strip line) = "exit" ->
  chat_loop backend tool_server (line :: rest) s
  = (Returned tt, s, [EvInput line; EvPrint OutExiting]).
Proof.
  intros Hexit. cbn [chat_loop]. unfold bind, emit, print.
  now rewrite Hexit.
Qed.

Lemma chat_loop_turn line rest s :
  PyStr.lower (PyStr.strip line) <> "exit" ->
  chat_loop backend tool_server (line :: rest) s
  = match turn backend tool_server (PyStr.strip line) s with
    | (Returned _, s1, ev1) =>
        match chat_loop backend tool_server rest s1 with
        | (o, s2, ev2) => (o, s2, EvInput line :: ev1 ++ ev2)
        end
    | (Raised e, s1, ev1) => (Raised e, s1, EvInput line :: ev1)
    end.
Proof.
  intros Hexit. apply String.eqb_neq in Hexit.
  cbn [chat_loop]. unfold bind at 1. unfold emit. rewrite Hexit.
  unfold bind.
  destruct (turn backend tool_server (PyStr.strip line) s)
    as [[[u|e] s1] ev1]; [|reflexivity].
  now destruct (chat_loop backend tool_server rest s1) as [[o s2] ev2].
Qed.

(** A pass starts by sending the conversation with the user's turn. *)
Lemma turn_starts u s :
  exists o s' evs,
    turn backend tool_server u s
    = (o, s', EvGenerate (contents s ++ [user_turn u]) :: evs).
Proof.
  destruct (generate_with_retry_starts backend (contents s ++ [user_turn u])
              (with_turns s [user_turn u])) as (o1 & s1 & ev1 & Hgen).
  unfold with_turns, user_turn in Hgen.
  unfold turn, append, get_contents. unfold bind at 1 2 3. cbn.
  rewrite Hgen. destruct o1 as [r|e]; [|now eexists _, _, _].
  destruct (bind _ _ s1) as [[o s'] ev2]. now eexists _, _, _.
Qed.

End Loop.

(** C8. A line that is "exit" once trimmed and lowered ends the loop:
    nothing is sent to the model and the conversation is left as it was.
    Any other line is taken as the user's: the conversation with its
    trimmed text appended as a user turn is sent to the model. *)
Theorem exit_ends_the_loop
    (backend : nat -> list Content -> Outcome Response)
    (tool_server : nat -> string -> json -> Outcome CallToolResult)
    (line : string) (rest : list string) (s : Session) :
  (PyStr.lower (PyStr.strip line) = "exit" ->
   chat_loop backend tool_server (line :: rest) s
   = (Returned tt, s, [EvInput line; EvPrint OutExiting]))
  /\ (PyStr.lower (PyStr.strip line) <> "exit" ->
      exists o s' evs,
        chat_loop backend tool_server (line :: rest) s
        = (o, s',
           EvInput line
           :: EvGenerate (contents s ++ [user_turn (PyStr.strip line)])
           :: evs)).
Proof.
  split; intros Hexit.
  - now apply chat_loop_exit.
  - rewrite (chat_loop_turn backend tool_server line rest s Hexit).
    destruct (turn_starts backend tool_server (PyStr.strip line) s)
      as (o1 & s1 & ev1 & ->).
    destruct o1 as [u|e]; [|now eexists _, _, _].
    destruct (chat_loop backend tool_server rest s1) as [[o s2] ev2].
    now eexists _, _, _.
Qed.

Lemma exit_ends_the_loop_witness :
  chat_loop Scenario.weather_backend Scenario.weather_tool
    ["  ExIt  "; Scenario.question] fresh
  = (Returned tt, fresh, [EvInput "  ExIt  "; EvPrint OutExiting]).
Proof.
  apply (exit_ends_the_loop Scenario.weather_backend Scenario.weather_tool
           "  ExIt  " [Scenario.question] fresh).
  reflexivity.
Defined.

(** C7. When the call of the tool raises, the pass prints one failure
    notice, naming the tool, and returns; the only turn added to the
    conversation is the user's text, and the loop goes on to read the next
    line. *)
Theorem tool_failure_is_reported
    (backend : nat -> list Content -> Outcome Response)
    (tool_server : nat -> string -> json -> Outcome CallToolResult)
    (line : string) (rest : list string) (s : Session)
    (r : Response) (s2 : Session) (ev1 : list Event)
    (c : Content) (cands : list Content) (p : Part) (ps : list Part)
    (fc : FunctionCall) (e : Exn) :
  PyStr.lower (PyStr.strip line) <> "exit" ->
  generate_with_retry backend (contents s ++ [user_turn (PyStr.strip line)])
    default_max_retries (with_turns s [user_turn (PyStr.strip line)])
  = (Returned (Some r), s2, ev1) ->
  candidates r = c :: cands -> parts c = p :: ps ->
  function_call p = Some fc ->
  tool_server (tool_calls s2) (name fc) (args fc) = Raised e ->
  exists s' evs,
    turn backend tool_server (PyStr.strip line) s = (Returned tt, s', evs)
    /\ failure_notices evs = [name fc]
    /\ contents s' = contents s ++ [user_turn (PyStr.strip line)]
    /\ chat_loop backend tool_server (line :: rest) s
       = match chat_loop backend tool_server rest s' with
         | (o, s'', evs') => (o, s'', EvInput line :: evs ++ evs')
         end.
Proof.
  intros Hexit Hgen Hc Hp Hfc Htool.
  pose proof (turn_tool_raises backend tool_server _ _ _ _ _ _ _ _ _ _ _
                Hgen Hc Hp Hfc Htool) as Hturn.
  destruct (generate_with_retry_events _ _ _ _ _ _ _ Hgen) as (Hcs & _ & Hev).
  destruct (invoker_events_observed _ _ Hev) as (_ & Hnone & _).
  eexists _, _. split; [exact Hturn|]. split; [|split].
  - unfold request_events, failure_events.
    rewrite !failure_notices_app, Hnone. reflexivity.
  - exact Hcs.
  - rewrite (chat_loop_turn backend tool_server line rest s Hexit), Hturn.
    reflexivity.
Qed.

Lemma tool_failure_is_reported_witness :
  exists s' evs,
    turn Scenario.weather_backend Scenario.broken_tool
      (PyStr.strip Scenario.question) fresh = (Returned tt, s', evs)
    /\ failure_notices evs = ["get_weather"]
    /\ contents s' = [user_turn Scenario.question]
    /\ chat_loop Scenario.weather_backend Scenario.broken_tool
         [Scenario.question; "exit"] fresh
       = match chat_loop Scenario.weather_backend Scenario.broken_tool
                 ["exit"] s' with
         | (o, s'', evs') => (o, s'', EvInput Scenario.question :: evs ++ evs')
         end.
Proof.
  apply (tool_failure_is_reported Scenario.weather_backend Scenario.broken_tool
           Scenario.question ["exit"] fresh
           (Scenario.reply [function_call_part Scenario.get_weather])
           (after_generations 1 (with_turns fresh [user_turn Scenario.question]))
           [EvGenerate [user_turn Scenario.question]]
           {| role := model;
              parts := [function_call_part Scenario.get_weather] |}
           [] (function_call_part Scenario.get_weather) []
           Scenario.get_weather (ToolError "connection closed"));
    try reflexivity.
  discriminate.
Defined.

(** C9. When the first part of the answer carries no call, the pass calls
    no tool: a call carried by a later part without text is printed as a
    request, and nothing is sent to the tool server. *)
Theorem text_reply_never_dispatches
    (backend : nat -> list Content -> Outcome Response)
    (tool_server : nat -> string -> json -> Outcome CallToolResult)
    (u : string) (s : Session)
    (r : Response) (s2 : Session) (ev1 : list Event)
    (c : Content) (cands : list Content) (p : Part) (ps : list Part) :
  generate_with_retry backend (contents s ++ [user_turn u])
    default_max_retries (with_turns s [user_turn u])
  = (Returned (Some r), s2, ev1) ->
  candidates r = c :: cands -> parts c = p :: ps ->
  function_call p = None ->
  exists s' evs,
    turn backend tool_server u s = (Returned tt, s', evs)
    /\ tool_invocations evs = []
    /\ tool_calls s' = tool_calls s
    /\ (forall q fc,
          In q (parts c) -> function_call q = Some fc ->
          truthy (text q) = None ->
          In (EvPrint (OutToolRequest fc)) evs).
Proof.
  intros Hgen Hc Hp Hfc.
  pose proof (turn_text_reply backend tool_server _ _ _ _ _ _ _ _ _
                Hgen Hc Hp Hfc) as Hturn.
  destruct (generate_with_retry_events _ _ _ _ _ _ _ Hgen) as (_ & Htc & Hev).
  destruct (invoker_events_observed _ _ Hev) as (_ & _ & _ & Hnone).
  destruct (parts_shown_observed (parts c)) as (_ & _ & Hshown).
  eexists _, _. split; [exact Hturn|]. split; [|split].
  - change (EvPrint (OutPart p) :: parts_shown (parts c))
      with ([EvPrint (OutPart p)] ++ parts_shown (parts c)).
    rewrite !tool_invocations_app, Hnone, Hshown. reflexivity.
  - exact Htc.
  - intros q fc Hq Hqfc Hqt. apply in_or_app. right. right.
    now apply parts_shown_request with (q := q).
Qed.

Lemma text_reply_never_dispatches_witness :
  exists s' evs,
    turn Scenario.talkative_backend Scenario.weather_tool Scenario.question
      fresh = (Returned tt, s', evs)
    /\ tool_invocations evs = []
    /\ tool_calls s' = 0%nat
    /\ In (EvPrint (OutToolRequest Scenario.get_weather)) evs.
Proof.
  destruct (text_reply_never_dispatches Scenario.talkative_backend
              Scenario.weather_tool Scenario.question fresh
              (Scenario.reply [text_part "Let me check.";
                               function_call_part Scenario.get_weather])
              (after_generations 1 (with_turns fresh [user_turn Scenario.question]))
              [EvGenerate [user_turn Scenario.question]]
              {| role := model;
                 parts := [text_part "Let me check.";
                           function_call_part Scenario.get_weather] |}
              [] (text_part "Let me check.")
              [function_call_part Scenario.get_weather])
    as (s' & evs & Hturn & Hnone & Htc & Hshow); try reflexivity.
  exists s', evs. repeat split; trivial.
  apply (Hshow (function_call_part Scenario.get_weather)); try reflexivity.
  right. now left.
Defined.

Lemma result_text_found tool_result :
  hd_error (content tool_result) <> Some OtherContent ->
  result_text tool_result
  = Returned (match content tool_result with
              | TextContent t :: _ => t
              | _ => "No result returned"
              end).
Proof.
  unfold result_text. destruct (content tool_result) as [|[t|] items];
    trivial. intros H. now destruct H.
Qed.

Lemma assistant_texts_texts_shown ps :
  assistant_texts (texts_shown ps) = texts_to_show ps.
Proof.
  unfold texts_shown, texts_to_show.
  induction ps as [|p ps IH]; [reflexivity|].
  cbn [flat_map]. rewrite assistant_texts_app, IH.
  now destruct (truthy (text p)).
Qed.

(** C6. When the tool answers nothing or a text first, the pass goes on
    to a second invocation of the model, every call of which is on the
    conversation holding the FunctionResponse part whose [result] is the
    text of the first element of the answer, or "No result returned" when
    the answer is empty.  When that invocation returns an answer with a
    candidate, the texts shown as the assistant's are exactly the
    non-empty texts of the parts of that candidate, in order, an answer
    of the backend on that conversation, and the candidate is stored;
    when it raises or answers without a candidate nothing is shown as the
    assistant's but the notice of a failed tool. *)
Theorem tool_result_fed_back
    (backend : nat -> list Content -> Outcome Response)
    (tool_server : nat -> string -> json -> Outcome CallToolResult)
    (u : string) (s : Session)
    (r : Response) (s2 : Session) (ev1 : list Event)
    (c : Content) (cands : list Content) (p : Part) (ps : list Part)
    (fc : FunctionCall) (tool_result : CallToolResult) :
  generate_with_retry backend (contents s ++ [user_turn u])
    default_max_retries (with_turns s [user_turn u])
  = (Returned (Some r), s2, ev1) ->
  candidates r = c :: cands -> parts c = p :: ps ->
  function_call p = Some fc ->
  tool_server (tool_calls s2) (name fc) (args fc) = Returned tool_result ->
  hd_error (content tool_result) <> Some OtherContent ->
  let result :=
    match content tool_result with
    | TextContent t :: _ => t
    | _ => "No result returned"
    end in
  let answer :=
    {| role := user;
       parts := [{| text := None; function_call := None;
                    function_response :=
                      Some {| fr_name := name fc;
                              response := JObject [("result", JString result)] |}
                 |}] |} in
  let cs2 :=
    contents s ++ [user_turn u; call_turn fc; answer; call_turn fc; answer] in
  exists o s4 ev2 s' evs,
    generate_with_retry backend cs2 default_max_retries (fed_back s2 fc result)
    = (o, s4, ev2)
    /\ turn backend tool_server u s = (Returned tt, s', evs)
    /\ generations evs = generations ev1 ++ generations ev2
    /\ hd_error (generations ev2) = Some cs2
    /\ Forall (eq cs2) (generations ev2)
    /\ match o with
       | Returned (Some r2) =>
           (exists k, backend k cs2 = Returned r2)
           /\ match candidates r2 with
              | c2 :: _ =>
                  assistant_texts evs = texts_to_show (parts c2)
                  /\ failure_notices evs = []
                  /\ contents s' = cs2 ++ [c2]
              | [] =>
                  assistant_texts evs = []
                  /\ failure_notices evs = [name fc]
                  /\ contents s' = cs2
              end
       | Returned None => False
       | Raised e =>
           assistant_texts evs = []
           /\ failure_notices evs = [name fc]
           /\ contents s' = cs2
       end.
Proof.
  intros Hgen Hc Hp Hfc Htool Hhd result answer cs2.
  pose proof (result_text_found tool_result Hhd) as Htext. fold result in Htext.
  destruct (generate_with_retry_events _ _ _ _ _ _ _ Hgen) as (Hcs & _ & Hev1).
  destruct (invoker_events_observed _ _ Hev1) as (_ & Hfail1 & Hquiet1 & _).
  assert (Hcs2 : contents (fed_back s2 fc result) = cs2).
  { cbn. rewrite Hcs. cbn. now rewrite <- app_assoc. }
  destruct (generate_with_retry backend cs2 default_max_retries
              (fed_back s2 fc result)) as [[o s4] ev2] eqn:Hgen2.
  pose proof Hgen2 as Hgen2'. rewrite <- Hcs2 in Hgen2' at 1.
  pose proof (turn_tool_answers backend tool_server _ _ _ _ _ _ _ _ _ _ _ _ _ _ _
                Hgen Hc Hp Hfc Htool Htext Hgen2') as Hturn.
  destruct (generate_with_retry_events _ _ _ _ _ _ _ Hgen2)
    as (Hcs4 & _ & Hev2).
  rewrite Hcs2 in Hcs4.
  destruct (invoker_events_observed _ _ Hev2) as (Hall2 & Hfail2 & Hquiet2 & _).
  destruct (generate_with_retry_starts backend cs2 (fed_back s2 fc result))
    as (o' & s4' & ev2' & Hstart).
  rewrite Hgen2 in Hstart. injection Hstart as _ _ Hev2'.
  assert (Hgens : forall tail,
             generations tail = [] ->
             generations
               (request_events ev1 p fc
                ++ EvPrint (OutToolResult tool_result) :: ev2 ++ tail)
             = generations ev1 ++ generations ev2).
  { intros tail Htail. unfold request_events.
    change (EvPrint (OutToolResult tool_result) :: ev2 ++ tail)
      with ([EvPrint (OutToolResult tool_result)] ++ ev2 ++ tail).
    rewrite !generations_app, Htail. cbn. now rewrite !app_nil_r. }
  assert (Hshown : forall tail,
             assistant_texts
               (request_events ev1 p fc
                ++ EvPrint (OutToolResult tool_result) :: ev2 ++ tail)
             = assistant_texts tail).
  { intros tail. unfold request_events.
    change (EvPrint (OutToolResult tool_result) :: ev2 ++ tail)
      with ([EvPrint (OutToolResult tool_result)] ++ ev2 ++ tail).
    now rewrite !assistant_texts_app, Hquiet1, Hquiet2. }
  assert (Hnoticed : forall tail,
             failure_notices
               (request_events ev1 p fc
                ++ EvPrint (OutToolResult tool_result) :: ev2 ++ tail)
             = failure_notices tail).
  { intros tail. unfold request_events.
    change (EvPrint (OutToolResult tool_result) :: ev2 ++ tail)
      with ([EvPrint (OutToolResult tool_result)] ++ ev2 ++ tail).
    now rewrite !failure_notices_app, Hfail1, Hfail2. }
  assert (Hhd2 : hd_error (generations ev2) = Some cs2)
    by now rewrite Hev2'.
  exists o, s4, ev2.
  destruct o as [[r2|]|e].
  - destruct (generate_with_retry_answer _ _ _ _ _ _ _ Hgen2) as (k & Hk).
    destruct (candidates r2) as [|c2 cands2] eqn:Hc2.
    + eexists _, _. split; [reflexivity|]. split; [exact Hturn|].
      split; [now apply Hgens|]. split; [exact Hhd2|]. split; [exact Hall2|].
      split; [now exists k|]. rewrite Hshown, Hnoticed. now repeat split.
    + destruct (texts_shown_observed (parts c2)) as (Hg3 & Hf3 & _).
      eexists _, _. split; [reflexivity|]. split; [exact Hturn|].
      split; [now apply Hgens|]. split; [exact Hhd2|]. split; [exact Hall2|].
      split; [now exists k|].
      rewrite Hshown, Hnoticed, assistant_texts_texts_shown, Hf3.
      cbn [with_turns contents]. now rewrite Hcs4.
  - now destruct (generate_with_retry_not_none _ _ _ _ _ Hgen2).
  - eexists _, _. split; [reflexivity|]. split; [exact Hturn|].
    split; [now apply Hgens|]. split; [exact Hhd2|]. split; [exact Hall2|].
    rewrite Hshown, Hnoticed. now repeat split.
Qed.

Lemma tool_result_fed_back_witness :
  exists s' evs,
    turn Scenario.weather_backend Scenario.weather_tool Scenario.question fresh
    = (Returned tt, s', evs)
    /\ generations evs
       = [[user_turn Scenario.question];
          [user_turn Scenario.question;
           call_turn Scenario.get_weather;
           response_turn Scenario.get_weather "22C, sunny";
           call_turn Scenario.get_weather;
           response_turn Scenario.get_weather "22C, sunny"]]
    /\ assistant_texts evs = ["It is 22C and sunny in Paris."].
Proof.
  destruct (tool_result_fed_back Scenario.weather_backend Scenario.weather_tool
              Scenario.question fresh
              (Scenario.reply [function_call_part Scenario.get_weather])
              (after_generations 1 (with_turns fresh [user_turn Scenario.question]))
              [EvGenerate [user_turn Scenario.question]]
              {| role := model;
                 parts := [function_call_part Scenario.get_weather] |}
              [] (function_call_part Scenario.get_weather) []
              Scenario.get_weather {| content := [TextContent "22C, sunny"] |})
    as (o & s4 & ev2 & s' & evs & Hgen2 & Hturn & Hgens & _ & _ & Hout);
    try reflexivity.
  - discriminate.
  - vm_compute in Hgen2. injection Hgen2 as <- <- <-.
    destruct Hout as (_ & Htexts & _).
    exists s', evs. split; [exact Hturn|]. split; [exact Hgens|exact Htexts].
Defined.

(** A tool that answers, with a picture first: the call of the tool
    returned, but reading the text of the picture raises; no
    FunctionResponse is built, the model is not called a second time, and
    the pass ends on the notice of a failed tool with the call stored
    unanswered. *)
Lemma picture_result_is_not_fed_back :
  Faults.picture_tool 0 (name Scenario.get_weather) (args Scenario.get_weather)
  = Returned {| content := [OtherContent; TextContent "22C, sunny"] |}
  /\ exists s' evs,
       turn Scenario.weather_backend Faults.picture_tool Scenario.question fresh
       = (Returned tt, s', evs)
       /\ tool_invocations evs
          = [(name Scenario.get_weather, args Scenario.get_weather)]
       /\ generations evs = [[user_turn Scenario.question]]
       /\ contents s'
          = [user_turn Scenario.question; call_turn Scenario.get_weather]
       /\ assistant_texts evs = []
       /\ failure_notices evs = ["get_weather"].
Proof.
  split; [reflexivity|]. eexists _, _. split; [now vm_compute|].
  now repeat split.
Qed.

(** ** Alternation of roles *)

Lemma no_user_user_snoc cs c :
  no_user_user cs = true ->
  model_last cs = true \/ role c = model ->
  no_user_user (cs ++ [c]) = true.
Proof.
  induction cs as [|a cs IH]; [reflexivity|].
  destruct cs as [|b cs].
  - cbn. unfold is_user. intros _ [Ha| ->].
    + apply negb_true_iff in Ha. unfold is_user in Ha. now rewrite Ha.
    + now rewrite andb_false_r.
  - cbn [app no_user_user model_last]. intros [Hab Hrest]%andb_prop Hlast.
    rewrite Hab. cbn [andb]. now apply IH.
Qed.

Lemma model_last_snoc cs c : model_last (cs ++ [c]) = negb (is_user c).
Proof.
  induction cs as [|a cs IH]; [reflexivity|].
  cbn [app model_last]. destruct (cs ++ [c]) eqn:E; [|exact IH].
  now destruct cs.
Qed.

Lemma failure_events_noticed fc e evs evs' :
  failure_notices (evs ++ failure_events fc e ++ evs') <> [].
Proof.
  rewrite !failure_notices_app. cbn. intros H.
  apply app_eq_nil in H as [_ H]. discriminate H.
Qed.

Section Alternation.

Variable backend : nat -> list Content -> Outcome Response.
Variable tool_server : nat -> string -> json -> Outcome CallToolResult.
Hypothesis Hmodel : replies_as_model backend.

Lemma answer_settles cs r s s' evs c cands :
  no_user_user cs = true ->
  generate_with_retry backend cs default_max_retries s
  = (Returned (Some r), s', evs) ->
  candidates r = c :: cands ->
  settled (cs ++ [c]).
Proof.
  intros Hcs Hgen Hc.
  destruct (generate_with_retry_answer _ _ _ _ _ _ _ Hgen) as (k & Hk).
  assert (Hrole : role c = model)
    by (apply (Hmodel k cs r c Hk); rewrite Hc; now left).
  split.
  - apply no_user_user_snoc; auto.
  - rewrite model_last_snoc. unfold is_user. now rewrite Hrole.
Qed.

Lemma turn_alternates u s o s' evs :
  settled (contents s) ->
  turn backend tool_server u s = (o, s', evs) ->
  failure_notices evs = [] ->
  Forall (fun cs => no_user_user cs = true) (generations evs)
  /\ match o with
     | Returned _ => settled (contents s')
     | Raised _ => True
     end.
Proof.
  intros [Hnuu Hlast] Hturn Hquiet.
  destruct (generate_with_retry backend (contents s ++ [user_turn u])
              default_max_retries (with_turns s [user_turn u]))
    as [[o1 s2] ev1] eqn:Hgen.
  destruct (generate_with_retry_events _ _ _ _ _ _ _ Hgen) as (Hcs & _ & Hev1).
  cbn in Hcs.
  destruct (invoker_events_observed _ _ Hev1) as (Hsent1 & _).
  assert (Hcs1 : no_user_user (contents s ++ [user_turn u]) = true)
    by (apply no_user_user_snoc; auto).
  assert (Hgens1 : Forall (fun cs => no_user_user cs = true) (generations ev1)).
  { eapply Forall_impl; [|exact Hsent1]. now intros cs <-. }
  assert (Hcrash : (exists e, turn backend tool_server u s = (Raised e, s2, ev1)) ->
                   Forall (fun cs => no_user_user cs = true) (generations evs)
                   /\ match o with
                      | Returned _ => settled (contents s')
                      | Raised _ => True
                      end).
  { intros (e & He). rewrite He in Hturn. injection Hturn as <- <- <-.
    now split. }
  destruct o1 as [[r|]|e];
    try (apply Hcrash; now apply (turn_raises backend tool_server u s _ s2 ev1
                                    Hgen)).
  destruct (candidates r) as [|c cands] eqn:Hc;
    [apply Hcrash;
     apply (turn_raises backend tool_server u s _ s2 ev1 Hgen);
     cbn; now rewrite Hc|].
  destruct (parts c) as [|p ps] eqn:Hp;
    [apply Hcrash;
     apply (turn_raises backend tool_server u s _ s2 ev1 Hgen);
     cbn; now rewrite Hc|].
  clear Hcrash.
  destruct (function_call p) as [fc|] eqn:Hfc.
  - destruct (tool_server (tool_calls s2) (name fc) (args fc))
      as [tool_result|e] eqn:Htool.
    + destruct (result_text tool_result) as [t|e] eqn:Htext.
      * destruct (generate_with_retry backend (contents (fed_back s2 fc t))
                    default_max_retries (fed_back s2 fc t))
          as [[o2 s4] ev2] eqn:Hgen2.
        rewrite (turn_tool_answers backend tool_server _ _ _ _ _ _ _ _ _ _ _ _
                   _ _ _ Hgen Hc Hp Hfc Htool Htext Hgen2) in Hturn.
        destruct (generate_with_retry_events _ _ _ _ _ _ _ Hgen2)
          as (Hcs4 & _ & Hev2).
        destruct (invoker_events_observed _ _ Hev2) as (Hsent2 & _).
        assert (Hfed : contents (fed_back s2 fc t)
                       = ((((contents s ++ [user_turn u]) ++ [call_turn fc])
                           ++ [response_turn fc t]) ++ [call_turn fc])
                         ++ [response_turn fc t]).
        { cbn. rewrite Hcs. now rewrite <- !app_assoc. }
        assert (Hcs2 : no_user_user (contents (fed_back s2 fc t)) = true).
        { rewrite Hfed.
          repeat (apply no_user_user_snoc;
                  [|first [right; reflexivity
                          |left; rewrite model_last_snoc; reflexivity]]).
          exact Hcs1. }
        assert (Hgens2 : Forall (fun cs => no_user_user cs = true)
                           (generations ev2)).
        { eapply Forall_impl; [|exact Hsent2]. now intros cs <-. }
        destruct o2 as [[r2|]|e].
        -- destruct (candidates r2) as [|c2 cands2] eqn:Hc2.
           ++ injection Hturn as <- <- <-.
              exfalso. revert Hquiet.
              change (EvPrint (OutToolResult tool_result)
                      :: ev2 ++ failure_events fc IndexError)
                with ((EvPrint (OutToolResult tool_result) :: ev2)
                      ++ failure_events fc IndexError).
              rewrite app_assoc, <- (app_nil_r (failure_events fc IndexError)).
              apply failure_events_noticed.
           ++ injection Hturn as <- <- <-. split.
              ** unfold request_events.
                 change (EvPrint (OutToolResult tool_result)
                         :: ev2 ++ texts_shown (parts c2))
                   with ([EvPrint (OutToolResult tool_result)]
                         ++ ev2 ++ texts_shown (parts c2)).
                 rewrite !generations_app.
                 destruct (texts_shown_observed (parts c2)) as (-> & _).
                 cbn. rewrite !app_nil_r. apply Forall_app. now split.
              ** cbn [with_turns contents]. rewrite Hcs4.
                 eapply answer_settles; eauto.
        -- now destruct (generate_with_retry_not_none _ _ _ _ _ Hgen2).
        -- injection Hturn as <- <- <-.
           exfalso. revert Hquiet.
           change (EvPrint (OutToolResult tool_result)
                   :: ev2 ++ failure_events fc e)
             with ((EvPrint (OutToolResult tool_result) :: ev2)
                   ++ failure_events fc e).
           rewrite app_assoc, <- (app_nil_r (failure_events fc e)).
           apply failure_events_noticed.
      * rewrite (turn_tool_no_text backend tool_server _ _ _ _ _ _ _ _ _ _ _ _
                   Hgen Hc Hp Hfc Htool Htext) in Hturn.
        injection Hturn as <- <- <-.
        exfalso. revert Hquiet.
        change (EvPrint (OutToolResult tool_result) :: failure_events fc e)
          with ([EvPrint (OutToolResult tool_result)] ++ failure_events fc e).
        rewrite app_assoc, <- (app_nil_r (failure_events fc e)).
        apply failure_events_noticed.
    + rewrite (turn_tool_raises backend tool_server _ _ _ _ _ _ _ _ _ _ _
                 Hgen Hc Hp Hfc Htool) in Hturn.
      injection Hturn as <- <- <-.
      exfalso. revert Hquiet.
      rewrite <- (app_nil_r (failure_events fc e)).
      apply failure_events_noticed.
  - rewrite (turn_text_reply backend tool_server _ _ _ _ _ _ _ _ _
               Hgen Hc Hp Hfc) in Hturn.
    injection Hturn as <- <- <-. split.
    + change (EvPrint (OutPart p) :: parts_shown (parts c))
        with ([EvPrint (OutPart p)] ++ parts_shown (parts c)).
      rewrite !generations_app.
      destruct (parts_shown_observed (parts c)) as (-> & _).
      cbn. now rewrite app_nil_r.
    + cbn [with_turns contents]. rewrite Hcs.
      eapply answer_settles; eauto.
Qed.

Lemma chat_loop_alternates stdin : forall s o s' evs,
  settled (contents s) ->
  chat_loop backend tool_server stdin s = (o, s', evs) ->
  failure_notices evs = [] ->
  Forall (fun cs => no_user_user cs = true) (generations evs).
Proof.
  induction stdin as [|line rest IH]; intros s o s' evs Hs Hrun Hquiet.
  - cbn in Hrun. injection Hrun as <- <- <-. constructor.
  - destruct (String.eqb_spec (PyStr.lower (PyStr.strip line)) "exit")
      as [Hexit|Hexit].
    + rewrite (chat_loop_exit backend tool_server line rest s Hexit) in Hrun.
      injection Hrun as <- <- <-. constructor.
    + rewrite (chat_loop_turn backend tool_server line rest s Hexit) in Hrun.
      destruct (turn backend tool_server (PyStr.strip line) s)
        as [[o1 s1] ev1] eqn:Hturn.
      destruct o1 as [u1|e].
      * destruct (chat_loop backend tool_server rest s1)
          as [[o2 s2] ev2] eqn:Hrest.
        injection Hrun as <- <- <-.
        cbn [failure_notices] in Hquiet. rewrite failure_notices_app in Hquiet.
        apply app_eq_nil in Hquiet as [Hq1 Hq2].
        destruct (turn_alternates _ _ _ _ _ Hs Hturn Hq1) as [Hg1 Hs1].
        cbn [generations]. rewrite generations_app. apply Forall_app.
        split; [exact Hg1|]. eapply IH; eauto.
      * injection Hrun as <- <- <-. cbn [failure_notices] in Hquiet.
        destruct (turn_alternates _ _ _ _ _ Hs Hturn Hquiet) as [Hg1 _].
        exact Hg1.
Qed.

End Alternation.

(** C2, as the code has it.  In a run of the loop that prints no failure
    notice, against a backend whose candidates all have the model's role,
    no conversation sent to the model has a user turn right after another
    user turn. *)
Theorem no_user_turns_in_a_row_without_failure
    (backend : nat -> list Content -> Outcome Response)
    (tool_server : nat -> string -> json -> Outcome CallToolResult)
    (stdin : list string) :
  replies_as_model backend ->
  failure_notices (snd (run backend tool_server stdin)) = [] ->
  Forall (fun cs => no_user_user cs = true)
         (generations (snd (run backend tool_server stdin))).
Proof.
  intros Hmodel. unfold run.
  destruct (chat_loop backend tool_server stdin fresh) as [[o s'] evs] eqn:Hrun.
  cbn [snd]. intros Hquiet.
  apply (chat_loop_alternates backend tool_server Hmodel stdin fresh o s' evs);
    trivial.
  now split.
Qed.

Lemma weather_backend_replies_as_model :
  replies_as_model Scenario.weather_backend.
Proof.
  intros k cs r c Hk Hin.
  destruct k; injection Hk as <-; destruct Hin as [<-|[]]; reflexivity.
Qed.

Lemma no_user_turns_in_a_row_without_failure_witness :
  Forall (fun cs => no_user_user cs = true)
         (generations
            (snd (run Scenario.weather_backend Scenario.weather_tool
                    [Scenario.question; Scenario.follow_up; "exit"]))).
Proof.
  apply (no_user_turns_in_a_row_without_failure Scenario.weather_backend
           Scenario.weather_tool
           [Scenario.question; Scenario.follow_up; "exit"]).
  - exact weather_backend_replies_as_model.
  - vm_compute. reflexivity.
Defined.

(** C2, as stated, fails: after a tool call that raised, the next line of
    the user is sent to the model right after the previous one. *)
Lemma user_turns_in_a_row_after_tool_failure :
  replies_as_model Scenario.weather_backend
  /\ generations
       (snd (run Scenario.weather_backend Scenario.broken_tool
               [Scenario.question; Scenario.follow_up; "exit"]))
     = [[user_turn Scenario.question];
        [user_turn Scenario.question; user_turn Scenario.follow_up]]
  /\ no_user_user [user_turn Scenario.question; user_turn Scenario.follow_up]
     = false.
Proof.
  split; [exact weather_backend_replies_as_model|].
  split; vm_compute; reflexivity.
Qed.

(** ** The conversation after a tool round trip *)

(** Whenever the tool answers and the model words the answer, the pass
    leaves the call and its response in the conversation twice over. *)
Lemma round_trip_store
    (backend : nat -> list Content -> Outcome Response)
    (tool_server : nat -> string -> json -> Outcome CallToolResult)
    (u : string) (s : Session)
    (r : Response) (s2 : Session) (ev1 : list Event)
    (c : Content) (cands : list Content) (p : Part) (ps : list Part)
    (fc : FunctionCall) (tool_result : CallToolResult) (t : string)
    (r2 : Response) (s4 : Session) (ev2 : list Event)
    (c2 : Content) (cands2 : list Content) :
  generate_with_retry backend (contents s ++ [user_turn u])
    default_max_retries (with_turns s [user_turn u])
  = (Returned (Some r), s2, ev1) ->
  candidates r = c :: cands -> parts c = p :: ps ->
  function_call p = Some fc ->
  tool_server (tool_calls s2) (name fc) (args fc) = Returned tool_result ->
  result_text tool_result = Returned t ->
  generate_with_retry backend (contents (fed_back s2 fc t)) default_max_retries
    (fed_back s2 fc t) = (Returned (Some r2), s4, ev2) ->
  candidates r2 = c2 :: cands2 ->
  exists s' evs,
    turn backend tool_server u s = (Returned tt, s', evs)
    /\ contents s'
       = contents s
         ++ [user_turn u; call_turn fc; response_turn fc t;
             call_turn fc; response_turn fc t; c2].
Proof.
  intros Hgen Hc Hp Hfc Htool Htext Hgen2 Hc2.
  pose proof (turn_tool_answers backend tool_server _ _ _ _ _ _ _ _ _ _ _ _ _ _ _
                Hgen Hc Hp Hfc Htool Htext Hgen2) as Hturn.
  cbn in Hturn. rewrite Hc2 in Hturn.
  destruct (generate_with_retry_events _ _ _ _ _ _ _ Hgen) as (Hcs & _).
  destruct (generate_with_retry_events _ _ _ _ _ _ _ Hgen2) as (Hcs4 & _).
  eexists _, _. split; [exact Hturn|].
  cbn in Hcs, Hcs4 |- *. rewrite Hcs4, Hcs, <- !app_assoc. reflexivity.
Qed.

(** C1. The round trip of the weather question: the tool answers, the
    model words the answer, and the conversation afterwards holds the
    user's text, the call and its response, the call and its response
    once more, and the model's text: six turns, not the four the claim
    lists. *)
Theorem round_trip_logs_the_call_twice :
  exists s' evs,
    run Scenario.weather_backend Scenario.weather_tool
      [Scenario.question; "exit"] = (Returned tt, s', evs)
    /\ contents s'
       = [user_turn Scenario.question;
          call_turn Scenario.get_weather;
          response_turn Scenario.get_weather "22C, sunny";
          call_turn Scenario.get_weather;
          response_turn Scenario.get_weather "22C, sunny";
          Scenario.wording]
    /\ contents s'
       <> [user_turn Scenario.question;
           call_turn Scenario.get_weather;
           response_turn Scenario.get_weather "22C, sunny";
           Scenario.wording].
Proof.
  eexists _, _. split; [vm_compute; reflexivity|].
  split; [reflexivity|discriminate].
Qed.

(** * Further properties of the client *)

(** ** The invoker on any backend *)

Lemma on_client_error_inv e body attempt max_retries s o s' evs :
  on_client_error e body attempt max_retries s = (o, s', evs) ->
  s' = s
  /\ match o with
     | Returned _ =>
         (attempt < max_retries - 1)%Z /\ exists d, actions evs = [EvSleep d]
     | Raised _ => actions evs = []
     end.
Proof.
  rewrite on_client_error_run. intros H; injection H as <- <- <-.
  split; trivial.
  pose proof (client_error_result_actions e body attempt max_retries) as Hres.
  destruct (fst (client_error_result e body attempt max_retries)).
  - destruct Hres as (b & _ & _ & Hlt & _ & ->). split; trivial.
    eexists. apply actions_retry_events.
  - exact Hres.
Qed.

Section InvokerShape.

Variable backend : nat -> list Content -> Outcome Response.

(** With attempts left, the calls and the sleeps of the loop alternate,
    from a call to a call. *)
Lemma retry_loop_shape n : forall i max_retries cs s o s' evs,
  (0 < n)%nat ->
  Z.of_nat (i + n) = max_retries ->
  retry_loop backend (map Z.of_nat (seq i n)) max_retries cs s = (o, s', evs) ->
  exists delays,
    actions evs = rounds cs delays
    /\ (length delays < n)%nat
    /\ gen_calls s' = (S (length delays) + gen_calls s)%nat.
Proof.
  induction n as [|n IH]; intros i max_retries cs s o s' evs Hn Hmax Hrun;
    [lia|].
  cbn [seq map] in Hrun.
  destruct (backend (gen_calls s) cs) as [r|e] eqn:Hb.
  - rewrite (retry_loop_returns backend _ _ _ _ _ r Hb) in Hrun.
    injection Hrun as <- <- <-. exists []. cbn. repeat split; lia.
  - destruct e as [body| | | | | | | |];
      try (rewrite (retry_loop_other_error backend _ _ _ _ _ _ Hb) in Hrun
             by discriminate;
           injection Hrun as <- <- <-; exists []; cbn; repeat split; lia).
    rewrite (retry_loop_client_error backend _ _ _ _ _ _ Hb) in Hrun.
    destruct (on_client_error _ _ _ _ _) as [[[u|e'] s1] ev1] eqn:Hh;
      apply on_client_error_inv in Hh as [-> Hact].
    + destruct Hact as [Hlt [d Hd]].
      destruct (retry_loop backend (map Z.of_nat (seq (S i) n)) max_retries cs
                  (after_generations 1 s)) as [[o2 s2] ev2] eqn:Hrest.
      injection Hrun as <- <- <-.
      apply IH in Hrest as (delays & Hact2 & Hlen & Hcalls); [|lia|lia].
      exists (d :: delays).
      change (EvGenerate cs :: ev1 ++ ev2) with ([EvGenerate cs] ++ ev1 ++ ev2).
      rewrite !actions_app, Hd, Hact2. cbn in Hcalls |- *.
      repeat split; lia.
    + injection Hrun as <- <- <-. exists [].
      change (EvGenerate cs :: ev1) with ([EvGenerate cs] ++ ev1).
      rewrite actions_app, Hact. cbn. repeat split; lia.
Qed.

(** The answer returned is the backend's answer to the last call made. *)
Lemma retry_loop_answer_last attempts max_retries cs : forall s r s' evs,
  retry_loop backend attempts max_retries cs s = (Returned (Some r), s', evs) ->
  exists k,
    gen_calls s' = S k /\ (gen_calls s <= k)%nat /\ backend k cs = Returned r.
Proof.
  induction attempts as [|attempt rest IH]; intros s r s' evs Hrun.
  - discriminate Hrun.
  - destruct (backend (gen_calls s) cs) as [r0|e] eqn:Hb.
    + rewrite (retry_loop_returns backend attempt rest max_retries cs s r0 Hb)
        in Hrun.
      injection Hrun as <- <- <-. exists (gen_calls s). now repeat split.
    + destruct e as [body| | | | | | | |];
        try (rewrite (retry_loop_other_error backend attempt rest max_retries
                        cs s _ Hb) in Hrun by discriminate;
             discriminate Hrun).
      rewrite (retry_loop_client_error backend attempt rest max_retries cs s
                 _ Hb) in Hrun.
      destruct (on_client_error _ _ _ _ _) as [[[u|e'] s1] ev1] eqn:Hh;
        [|discriminate Hrun].
      apply on_client_error_inv in Hh as [-> _].
      destruct (retry_loop backend rest max_retries cs _)
        as [[o2 s2] ev2] eqn:Hrest.
      injection Hrun as -> <- <-.
      apply IH in Hrest as (k & Hk & Hle & Hans). exists k.
      cbn in Hle. repeat split; trivial. lia.
Qed.

End InvokerShape.

(** X1. After [k] failures with a rate-limit status, [k] below
    [max_retries], each with a delay [sleep] takes, an answer of the
    backend is returned: [k + 1] calls, the [k] delays slept in
    between. *)
Theorem retries_then_returns_the_answer
    (backend : nat -> list Content -> Outcome Response)
    (cs : list Content) (max_retries : Z) (s : Session)
    (bodies : list json) (r : Response) :
  (Z.of_nat (length bodies) < max_retries)%Z ->
  (forall j b, nth_error bodies j = Some b ->
     backend (gen_calls s + j) cs = Raised (ClientError (Some b))
     /\ rate_limited b = true) ->
  (forall b, In b bodies -> sleepable (retry_delay b) = true) ->
  backend (gen_calls s + length bodies) cs = Returned r ->
  exists evs,
    generate_with_retry backend cs max_retries s
    = (Returned (Some r), after_generations (S (length bodies)) s, evs)
    /\ actions evs = rounds cs (map retry_delay bodies).
Proof.
  intros Hlt Hb Hsl Hr.
  rewrite (generate_with_retry_recovers backend bodies max_retries cs s r Hb Hsl
             Hlt Hr).
  eexists. split; [reflexivity|].
  rewrite actions_app, actions_waits. unfold rounds. f_equal.
  clear. induction bodies as [|b bodies IH]; cbn; now rewrite ?IH.
Qed.

Lemma retries_then_returns_the_answer_witness :
  exists evs,
    generate_with_retry Scenario.twice_out_of_quota [] default_max_retries fresh
    = (Returned (Some (Scenario.reply [text_part "Hello"])),
       after_generations 3 fresh, evs)
    /\ actions evs = rounds [] [5; 5]%Z.
Proof.
  apply (retries_then_returns_the_answer Scenario.twice_out_of_quota []
           default_max_retries fresh
           [Scenario.quota_body "5s"; Scenario.quota_body "5s"]
           (Scenario.reply [text_part "Hello"])).
  - reflexivity.
  - intros j b Hj.
    do 2 (destruct j as [|j]; [injection Hj as <-; split; reflexivity|]).
    destruct j; discriminate Hj.
  - intros b [<-|[<-|[]]]; reflexivity.
  - reflexivity.
Defined.

(** X2. With no attempt allowed ([max_retries] zero or negative) the
    invoker calls nothing and returns [None]; with one or more it never
    returns [None]: it returns an answer or raises. *)
Theorem none_only_without_attempts
    (backend : nat -> list Content -> Outcome Response)
    (cs : list Content) (max_retries : Z) (s : Session) :
  ((max_retries <= 0)%Z ->
   generate_with_retry backend cs max_retries s = (Returned None, s, []))
  /\ ((0 < max_retries)%Z ->
      forall s' evs,
        generate_with_retry backend cs max_retries s <> (Returned None, s', evs)).
Proof.
  split.
  - intros Hle. unfold generate_with_retry, range.
    replace (Z.to_nat max_retries) with 0%nat by lia. reflexivity.
  - intros Hpos s' evs. unfold generate_with_retry.
    apply retry_loop_not_none.
    + unfold range. replace (Z.to_nat max_retries)
        with (S (Z.to_nat max_retries - 1)) by lia. discriminate.
    + unfold range. apply Forall_forall. intros a Ha.
      apply in_map_iff in Ha as (k & <- & Hk). apply in_seq in Hk. lia.
    + unfold range.
      replace (Z.to_nat max_retries) with (Z.to_nat max_retries - 1 + 1)%nat
        by lia.
      rewrite seq_app, map_app. cbn [seq map]. rewrite last_last. lia.
Qed.

Lemma none_only_without_attempts_witness :
  generate_with_retry Scenario.out_of_quota [] 0 fresh = (Returned None, fresh, []).
Proof.
  apply (none_only_without_attempts Scenario.out_of_quota [] 0 fresh).
  discriminate.
Defined.

(** X3. Whatever the backend does, the calls and the sleeps of one
    invocation alternate, from a call to a call: at most [max_retries]
    calls, all on the conversation given, one sleep fewer, and the call
    counter advanced by the number of calls. *)
Theorem calls_and_sleeps_alternate
    (backend : nat -> list Content -> Outcome Response)
    (cs : list Content) (max_retries : Z) (s : Session)
    (o : Outcome (option Response)) (s' : Session) (evs : list Event) :
  (0 < max_retries)%Z ->
  generate_with_retry backend cs max_retries s = (o, s', evs) ->
  exists delays,
    actions evs = rounds cs delays
    /\ sleeps evs = delays
    /\ generations evs = map (fun _ => cs) delays ++ [cs]
    /\ (Z.of_nat (length delays) < max_retries)%Z
    /\ gen_calls s' = (S (length delays) + gen_calls s)%nat.
Proof.
  intros Hpos Hrun. unfold generate_with_retry, range in Hrun.
  apply retry_loop_shape in Hrun as (delays & Hact & Hlen & Hcalls); [|lia|lia].
  exists delays.
  rewrite <- sleeps_actions, <- generations_actions, Hact.
  rewrite rounds_sleeps, rounds_generations. repeat split; trivial. lia.
Qed.

Lemma calls_and_sleeps_alternate_witness :
  exists delays,
    actions (snd (generate_with_retry Scenario.out_of_quota [] 3 fresh))
    = rounds [] delays
    /\ (Z.of_nat (length delays) < 3)%Z.
Proof.
  destruct (calls_and_sleeps_alternate Scenario.out_of_quota [] 3 fresh
              (fst (fst (generate_with_retry Scenario.out_of_quota [] 3 fresh)))
              (snd (fst (generate_with_retry Scenario.out_of_quota [] 3 fresh)))
              (snd (generate_with_retry Scenario.out_of_quota [] 3 fresh)))
    as (delays & Hact & _ & _ & Hlen & _); try reflexivity.
  now exists delays.
Defined.

(** X4. An invocation leaves the conversation and the tool server alone:
    it changes neither the conversation nor the count of tool calls, calls
    no tool, and prints neither an assistant text nor a failure notice. *)
Theorem invoker_leaves_the_session_alone
    (backend : nat -> list Content -> Outcome Response)
    (cs : list Content) (max_retries : Z) (s : Session) :
  let '(_, s', evs) := generate_with_retry backend cs max_retries s in
  contents s' = contents s
  /\ tool_calls s' = tool_calls s
  /\ tool_invocations evs = []
  /\ assistant_texts evs = []
  /\ failure_notices evs = [].
Proof.
  destruct (generate_with_retry backend cs max_retries s) as [[o s'] evs] eqn:Hrun.
  destruct (generate_with_retry_events _ _ _ _ _ _ _ Hrun) as (Hc & Ht & Hev).
  destruct (invoker_events_observed _ _ Hev) as (_ & Hf & Ha & Hi).
  now repeat split.
Qed.

(** X5. An answer returned by the invoker is what the backend answered to
    the last call the invoker made, on the conversation given. *)
Theorem answer_is_the_last_call
    (backend : nat -> list Content -> Outcome Response)
    (cs : list Content) (max_retries : Z) (s : Session)
    (r : Response) (s' : Session) (evs : list Event) :
  generate_with_retry backend cs max_retries s = (Returned (Some r), s', evs) ->
  (gen_calls s < gen_calls s')%nat
  /\ backend (pred (gen_calls s')) cs = Returned r.
Proof.
  intros Hrun. apply retry_loop_answer_last in Hrun as (k & Hk & Hle & Hans).
  rewrite Hk. cbn. split; [lia|exact Hans].
Qed.

Lemma answer_is_the_last_call_witness :
  Scenario.twice_out_of_quota 2 [] = Returned (Scenario.reply [text_part "Hello"]).
Proof.
  apply (answer_is_the_last_call Scenario.twice_out_of_quota []
           default_max_retries fresh (Scenario.reply [text_part "Hello"])
           (after_generations 3 fresh)
           (snd (generate_with_retry Scenario.twice_out_of_quota []
                   default_max_retries fresh))).
  reflexivity.
Defined.

(** X6. A client error whose body parses but has no place for a status
    (the body, or its [error], is not an object) makes line 53 raise
    [AttributeError] in place of the failure: after one call, without
    sleep, print or retry. *)
Theorem body_without_status_raises_attribute_error
    (backend : nat -> list Content -> Outcome Response)
    (cs : list Content) (max_retries : Z) (s : Session) (error_data : json) :
  (0 < max_retries)%Z ->
  backend (gen_calls s) cs = Raised (ClientError (Some error_data)) ->
  is_object error_data = false
  \/ (exists items v,
        error_data = JObject items /\ Py.lookup "error" items = Some v
        /\ is_object v = false) ->
  generate_with_retry backend cs max_retries s
  = (Raised AttributeError, after_generations 1 s, [EvGenerate cs]).
Proof.
  intros Hmax Hb Hshape. unfold generate_with_retry.
  rewrite (range_split max_retries 0) by lia. cbn [seq map app].
  rewrite (retry_loop_client_error backend _ _ _ _ _ _ Hb).
  assert (Hst : status_of error_data = Raised AttributeError).
  { unfold status_of. destruct Hshape as [Hno|(items & v & -> & Hv & Hno)].
    - now destruct error_data.
    - cbn. rewrite Hv. now destruct v. }
  unfold on_client_error, bind, lift. rewrite Hst. reflexivity.
Qed.

Lemma body_without_status_raises_attribute_error_witness :
  generate_with_retry Scenario2.flat_failure [] default_max_retries fresh
  = (Raised AttributeError, after_generations 1 fresh, [EvGenerate []]).
Proof.
  apply (body_without_status_raises_attribute_error Scenario2.flat_failure []
           default_max_retries fresh Scenario2.flat_body); try reflexivity.
  right. exists [("error", JString "quota exceeded")], (JString "quota exceeded").
  repeat split.
Defined.

(** ** The delay, edge by edge *)

Lemma retry_delay_of_run error_data s :
  exists evs,
    retry_delay_of error_data s = (Returned (retry_delay error_data), s, evs)
    /\ actions evs = [].
Proof.
  unfold retry_delay_of, retry_delay, bind, print, emit, ret.
  destruct (parse_retry_delay error_data) as [[d|]|pe]; now eexists.
Qed.

Lemma parse_retry_delay_scan error_data details :
  details_of error_data = Returned details ->
  parse_retry_delay error_data = obind (Py.iter details) scan_details.
Proof. intros H. unfold parse_retry_delay. now rewrite H. Qed.

Lemma scan_details_not_object d rest :
  is_object d = false -> scan_details (d :: rest) = Raised AttributeError.
Proof. now destruct d. Qed.

(** X7. Details that are not a list of objects give the default: when
    the [details] value is not a list, and when an element that is not an
    object is met before any RetryInfo detail (whatever comes after it),
    the delay computed is 30 and nothing is raised. *)
Theorem malformed_details_give_the_default (error_data : json) (s : Session) :
  (forall details,
     details_of error_data = Returned details -> is_array details = false ->
     exists evs, retry_delay_of error_data s = (Returned 30%Z, s, evs))
  /\ (forall pre d post,
        details_of error_data = Returned (JArray (pre ++ d :: post)) ->
        forallb other_detail pre = true -> is_object d = false ->
        exists evs, retry_delay_of error_data s = (Returned 30%Z, s, evs)).
Proof.
  assert (Hrun : forall o,
            parse_retry_delay error_data = o ->
            match o with Returned (Some _) => False | _ => True end ->
            exists evs, retry_delay_of error_data s = (Returned 30%Z, s, evs)).
  { intros o Ho Hnot. unfold retry_delay_of, bind, print, emit, ret.
    rewrite Ho. destruct o as [[d|]|pe]; [now destruct Hnot| |]; now eexists. }
  split.
  - intros details Hdet Harr.
    apply (Hrun _ (parse_retry_delay_scan _ _ Hdet)).
    destruct details as [| | |str| |items]; try exact I; try discriminate Harr.
    + now destruct str.
    + now destruct items as [|[k v] items].
  - intros pre d post Hdet Hpre Hd.
    apply (Hrun _ (parse_retry_delay_scan _ _ Hdet)).
    cbn [Py.iter obind]. rewrite (scan_details_skip _ _ Hpre).
    now rewrite (scan_details_not_object _ _ Hd).
Qed.

Lemma malformed_details_give_the_default_witness :
  exists evs,
    retry_delay_of
      (Scenario2.quota_with
         (JArray [JString "see docs";
                  Scenario2.retry_info_detail (JString "5s")])) fresh
    = (Returned 30%Z, fresh, evs).
Proof.
  apply (proj2 (malformed_details_give_the_default
                  (Scenario2.quota_with
                     (JArray [JString "see docs";
                              Scenario2.retry_info_detail (JString "5s")]))
                  fresh)
           [] (JString "see docs") [Scenario2.retry_info_detail (JString "5s")]);
    reflexivity.
Defined.

Lemma retry_delay_of_value error_data s d :
  retry_delay error_data = d ->
  exists evs, retry_delay_of error_data s = (Returned d, s, evs).
Proof.
  intros <-. destruct (retry_delay_of_run error_data s) as (evs & H & _).
  now exists evs.
Qed.

(** The delay when the first RetryInfo detail carries the string [str]. *)
Lemma retry_delay_of_string error_data pre detail post str :
  details_of error_data = Returned (JArray (pre ++ detail :: post)) ->
  forallb other_detail pre = true ->
  retry_info detail (Some (JString str)) ->
  retry_delay error_data
  = match PyStr.int (PyStr.strip_chars "s" str) with
    | Some d => d
    | None => 30%Z
    end.
Proof.
  intros Hdet Hpre Hinfo.
  rewrite (retry_delay_scan _ _ Hdet), (scan_details_skip _ _ Hpre).
  rewrite (scan_details_retry_info _ _ _ Hinfo).
  cbn [Py.str_strip obind]. unfold Py.to_int.
  now destruct (PyStr.int (PyStr.strip_chars "s" str)).
Qed.

(** X8. A RetryInfo detail without a [retryDelay] gives the default of
    line 59, "30s": the delay is 30, and details after it are not read. *)
Theorem retry_info_without_delay_gives_30
    (error_data : json) (s : Session) (pre : list json) (detail : json)
    (post : list json) :
  details_of error_data = Returned (JArray (pre ++ detail :: post)) ->
  forallb other_detail pre = true ->
  retry_info detail None ->
  exists evs, retry_delay_of error_data s = (Returned 30%Z, s, evs).
Proof.
  intros Hdet Hpre Hinfo. apply retry_delay_of_value.
  rewrite (retry_delay_scan _ _ Hdet), (scan_details_skip _ _ Hpre).
  now rewrite (scan_details_retry_info _ _ _ Hinfo).
Qed.

Lemma retry_info_without_delay_gives_30_witness :
  exists evs,
    retry_delay_of
      (Scenario2.quota_with
         (JArray [JObject [("@type", JString RETRY_INFO)];
                  Scenario2.retry_info_detail (JString "5s")])) fresh
    = (Returned 30%Z, fresh, evs).
Proof.
  apply (retry_info_without_delay_gives_30
           (Scenario2.quota_with
              (JArray [JObject [("@type", JString RETRY_INFO)];
                       Scenario2.retry_info_detail (JString "5s")]))
           fresh [] (JObject [("@type", JString RETRY_INFO)])
           [Scenario2.retry_info_detail (JString "5s")]); try reflexivity.
  eexists. repeat split.
Defined.

Lemma decimal_digits n : all_chars is_digit (decimal n) = true.
Proof. rewrite decimal_numeral. apply numeral_digits. Qed.

Lemma int_minus_decimal n :
  (nb_digits (N.to_uint n) <= PyStr.max_str_digits)%nat ->
  PyStr.int (String "-" (decimal n)) = Some (- Z.of_N n)%Z.
Proof.
  intros Hlen. unfold PyStr.int, PyStr.strip_by.
  rewrite lstrip_kept by reflexivity.
  rewrite rstrip_kept.
  - pose proof (int_decimal n Hlen) as Hint.
    rewrite int_of_digits in Hint
      by (apply decimal_nonempty || apply decimal_digits).
    now rewrite Hint.
  - cbn. apply all_chars_impl with (p := is_digit);
      [apply digit_not_int_space | apply decimal_digits].
Qed.

Lemma float_overflow_pos : (0 < float_overflow)%Z.
Proof. now vm_compute. Qed.

Lemma strip_seconds_minus n :
  PyStr.strip_chars "s" (String "-" (decimal n) ++ "s")%string
  = String "-" (decimal n).
Proof.
  unfold PyStr.strip_chars, PyStr.strip_by.
  change (String "-" (decimal n) ++ "s")%string
    with (String "-" (decimal n ++ "s")%string).
  rewrite lstrip_kept by reflexivity.
  change (String "-" (decimal n ++ "s")%string)
    with (String "-" (decimal n) ++ "s")%string.
  apply rstrip_suffix; [|reflexivity].
  cbn. apply all_chars_impl with (p := is_digit);
    [apply digit_not_s | apply decimal_digits].
Qed.

Lemma strip_seconds_absent n :
  PyStr.strip_chars "s" (decimal n) = decimal n.
Proof.
  unfold PyStr.strip_chars, PyStr.strip_by.
  pose proof (decimal_nonempty n) as Hne. pose proof (decimal_digits n) as Hd.
  destruct (decimal n) as [|c str]; [now destruct Hne|].
  pose proof Hd as Hd'. cbn in Hd'. apply andb_prop in Hd' as [Hc _].
  rewrite lstrip_kept by (apply negb_true_iff; now apply digit_not_s).
  apply rstrip_kept.
  apply all_chars_impl with (p := is_digit); [apply digit_not_s | exact Hd].
Qed.

(** X9. The delay is read leniently and is not bounded below: a
    [retryDelay] that is a numeral without the unit gives that number,
    slept when it is one a float holds, and one with a minus sign gives
    the negative number, which is what the invoker then passes to
    [sleep]. *)
Theorem delay_without_unit_or_negative
    (backend : nat -> list Content -> Outcome Response)
    (cs : list Content) (max_retries : Z) (s : Session)
    (error_data : json) (pre : list json) (detail : json) (post : list json)
    (str : string) (n : N) :
  (1 < max_retries)%Z ->
  backend (gen_calls s) cs = Raised (ClientError (Some error_data)) ->
  rate_limited error_data = true ->
  details_of error_data = Returned (JArray (pre ++ detail :: post)) ->
  forallb other_detail pre = true ->
  retry_info detail (Some (JString str)) ->
  (nb_digits (N.to_uint n) <= PyStr.max_str_digits)%nat ->
  (str = decimal n ->
   (Z.of_N n < float_overflow)%Z ->
   hd_error (sleeps (snd (generate_with_retry backend cs max_retries s)))
   = Some (Z.of_N n))
  /\ (str = (String "-" (decimal n) ++ "s")%string ->
      hd_error (sleeps (snd (generate_with_retry backend cs max_retries s)))
      = Some (- Z.of_N n)%Z).
Proof.
  intros Hmax Hb Hrl Hdet Hpre Hinfo Hlen.
  assert (Hslept :
            (retry_delay error_data < float_overflow)%Z ->
            hd_error (sleeps (snd (generate_with_retry backend cs max_retries s)))
            = Some (retry_delay error_data)).
  { intros Hlt.
    rewrite (generate_with_retry_waits backend [error_data] max_retries cs s).
    - destruct (retry_loop backend _ max_retries cs _) as [[o s'] evs].
      cbn [snd]. rewrite <- sleeps_actions, actions_app, actions_waits.
      reflexivity.
    - intros [|[|j]] b Hj; try discriminate Hj. injection Hj as <-.
      now rewrite Nat.add_0_r.
    - intros b [<-|[]]. now apply Z.ltb_lt.
    - cbn. lia. }
  rewrite (retry_delay_of_string _ _ _ _ _ Hdet Hpre Hinfo) in Hslept.
  split; intros ->.
  - intros Hlt.
    rewrite strip_seconds_absent, (int_decimal n Hlen) in Hslept.
    now apply Hslept.
  - rewrite strip_seconds_minus, (int_minus_decimal n Hlen) in Hslept.
    apply Hslept. pose proof float_overflow_pos. lia.
Qed.

Lemma delay_without_unit_or_negative_witness :
  hd_error
    (sleeps
       (snd (generate_with_retry
               (fun k cs =>
                  Raised (ClientError
                            (Some (Scenario2.quota_with
                                     (JArray [Scenario2.retry_info_detail
                                                (JString "-7s")])))))
               [] default_max_retries fresh)))
  = Some (-7)%Z.
Proof.
  apply (proj2 (delay_without_unit_or_negative
                  (fun k cs =>
                     Raised (ClientError
                               (Some (Scenario2.quota_with
                                        (JArray [Scenario2.retry_info_detail
                                                   (JString "-7s")])))))
                  [] default_max_retries fresh
                  (Scenario2.quota_with
                     (JArray [Scenario2.retry_info_detail (JString "-7s")]))
                  [] (Scenario2.retry_info_detail (JString "-7s")) []
                  "-7s" 7%N
                  eq_refl eq_refl eq_refl eq_refl eq_refl
                  (ex_intro _ _ (conj eq_refl (conj eq_refl eq_refl)))
                  ltac:(vm_compute; lia))).
  reflexivity.
Defined.

(** ** Reading the lines *)

Section Stripping.

Variable p : ascii -> bool.

Lemma lstrip_blank ws : all_chars p ws = true -> PyStr.lstrip p ws = EmptyString.
Proof.
  induction ws as [|c ws IH]; [reflexivity|].
  cbn. intros [Hc Hws]%andb_prop. rewrite Hc. now apply IH.
Qed.

Lemma lstrip_blank_app ws rest :
  all_chars p ws = true ->
  PyStr.lstrip p (ws ++ rest)%string = PyStr.lstrip p rest.
Proof.
  induction ws as [|c ws IH]; [reflexivity|].
  cbn. intros [Hc Hws]%andb_prop. rewrite Hc. now apply IH.
Qed.

Lemma rstrip_blank ws : all_chars p ws = true -> PyStr.rstrip p ws = EmptyString.
Proof.
  induction ws as [|c ws IH]; [reflexivity|].
  cbn. intros [Hc Hws]%andb_prop. now rewrite (IH Hws), Hc.
Qed.

Lemma rstrip_blank_app core ws :
  all_chars p ws = true ->
  PyStr.rstrip p (core ++ ws)%string = PyStr.rstrip p core.
Proof.
  intros Hws. induction core as [|c core IH]; cbn.
  - now apply rstrip_blank.
  - now rewrite IH.
Qed.

(** Stripping takes the padding off a core that has none of its own. *)
Lemma strip_padded ws1 core ws2 :
  all_chars p ws1 = true -> all_chars p ws2 = true ->
  all_chars (fun c => negb (p c)) core = true ->
  PyStr.strip_by p (ws1 ++ core ++ ws2)%string = core.
Proof.
  intros H1 H2 Hcore. unfold PyStr.strip_by.
  rewrite (lstrip_blank_app _ _ H1).
  destruct core as [|c core].
  - cbn. rewrite (lstrip_blank _ H2). reflexivity.
  - pose proof Hcore as Hc. cbn in Hc. apply andb_prop in Hc as [Hc _].
    apply negb_true_iff in Hc.
    change (String c core ++ ws2)%string with (String c (core ++ ws2)%string).
    rewrite (lstrip_kept p c _ Hc).
    change (String c (core ++ ws2)%string) with (String c core ++ ws2)%string.
    rewrite (rstrip_blank_app _ _ H2). now apply rstrip_kept.
Qed.

End Stripping.

Lemma isspace_lower_char c : PyStr.isspace (PyStr.lower_char c) = PyStr.isspace c.
Proof. destruct c as [[] [] [] [] [] [] [] []]; reflexivity. Qed.

Lemma lower_keeps_spaces str :
  all_chars (fun c => negb (PyStr.isspace c)) (PyStr.lower str)
  = all_chars (fun c => negb (PyStr.isspace c)) str.
Proof.
  induction str as [|c str IH]; [reflexivity|].
  cbn. now rewrite isspace_lower_char, IH.
Qed.

Lemma strip_exit ws1 core ws2 :
  all_chars PyStr.isspace ws1 = true -> all_chars PyStr.isspace ws2 = true ->
  PyStr.lower core = "exit" ->
  PyStr.strip (ws1 ++ core ++ ws2)%string = core.
Proof.
  intros H1 H2 Hcore. apply strip_padded; trivial.
  rewrite <- lower_keeps_spaces, Hcore. reflexivity.
Qed.

(** X10. The exit test is blind to letter case and to surrounding white
    space: a line made of white space, the word in any casing, and white
    space ends the loop, with nothing sent and nothing appended. *)
Theorem exit_in_any_case_and_padding
    (backend : nat -> list Content -> Outcome Response)
    (tool_server : nat -> string -> json -> Outcome CallToolResult)
    (ws1 core ws2 : string) (rest : list string) (s : Session) :
  all_chars PyStr.isspace ws1 = true ->
  all_chars PyStr.isspace ws2 = true ->
  PyStr.lower core = "exit" ->
  chat_loop backend tool_server ((ws1 ++ core ++ ws2)%string :: rest) s
  = (Returned tt, s,
     [EvInput (ws1 ++ core ++ ws2)%string; EvPrint OutExiting]).
Proof.
  intros H1 H2 Hcore. apply chat_loop_exit.
  now rewrite (strip_exit _ _ _ H1 H2 Hcore).
Qed.

Lemma exit_in_any_case_and_padding_witness :
  chat_loop Scenario.weather_backend Scenario.weather_tool
    ["	 eXiT  "; Scenario.question] fresh
  = (Returned tt, fresh, [EvInput "	 eXiT  "; EvPrint OutExiting]).
Proof.
  apply (exit_in_any_case_and_padding Scenario.weather_backend
           Scenario.weather_tool "	 " "eXiT" "  " [Scenario.question] fresh);
    reflexivity.
Defined.

(** X11. There is no guard against an empty utterance: a line that is
    empty or all white space is not an exit, and the conversation is sent
    to the model with a user turn whose text is empty. *)
Theorem blank_line_is_sent_as_empty_text
    (backend : nat -> list Content -> Outcome Response)
    (tool_server : nat -> string -> json -> Outcome CallToolResult)
    (line : string) (rest : list string) (s : Session) :
  all_chars PyStr.isspace line = true ->
  exists o s' evs,
    chat_loop backend tool_server (line :: rest) s
    = (o, s',
       EvInput line
       :: EvGenerate (contents s ++ [user_turn EmptyString]) :: evs).
Proof.
  intros Hblank.
  assert (Hstrip : PyStr.strip line = EmptyString).
  { unfold PyStr.strip, PyStr.strip_by. now rewrite (lstrip_blank _ _ Hblank). }
  rewrite (chat_loop_turn backend tool_server line rest s)
    by (rewrite Hstrip; discriminate).
  rewrite Hstrip.
  destruct (turn_starts backend tool_server EmptyString s)
    as (o1 & s1 & ev1 & ->).
  destruct o1 as [u|e]; [|now eexists _, _, _].
  destruct (chat_loop backend tool_server rest s1) as [[o s2] ev2].
  now eexists _, _, _.
Qed.

Lemma blank_line_is_sent_as_empty_text_witness :
  exists o s' evs,
    chat_loop Scenario.weather_backend Scenario.weather_tool ["  "; "exit"] fresh
    = (o, s', EvInput "  " :: EvGenerate [user_turn EmptyString] :: evs).
Proof.
  apply (blank_line_is_sent_as_empty_text Scenario.weather_backend
           Scenario.weather_tool "  " ["exit"] fresh).
  reflexivity.
Defined.

Lemma last_after {A} (l : list A) x l' d :
  last (l ++ x :: l') d = last (x :: l') d.
Proof.
  induction l as [|a l IH]; [reflexivity|].
  cbn [app]. rewrite <- IH. destruct (l ++ x :: l') eqn:E; [|reflexivity].
  now destruct l.
Qed.

Section Lines.

Variable backend : nat -> list Content -> Outcome Response.
Variable tool_server : nat -> string -> json -> Outcome CallToolResult.

Lemma is_exit_true line :
  is_exit line = true -> PyStr.lower (PyStr.strip line) = "exit".
Proof. apply String.eqb_eq. Qed.

Lemma is_exit_false line :
  is_exit line = false -> PyStr.lower (PyStr.strip line) <> "exit".
Proof. apply String.eqb_neq. Qed.

Lemma chat_loop_returns_inv stdin : forall s u s' evs,
  chat_loop backend tool_server stdin s = (Returned u, s', evs) ->
  existsb is_exit stdin = true /\ last evs (EvPrint OutNoResponse) = EvPrint OutExiting.
Proof.
  induction stdin as [|line rest IH]; intros s u s' evs Hrun.
  - discriminate Hrun.
  - cbn [existsb]. destruct (is_exit line) eqn:Hl.
    + rewrite chat_loop_exit in Hrun by now apply is_exit_true.
      injection Hrun as <- <- <-. now split.
    + rewrite chat_loop_turn in Hrun by now apply is_exit_false.
      destruct (turn backend tool_server (PyStr.strip line) s)
        as [[[u1|e] s1] ev1]; [|discriminate Hrun].
      destruct (chat_loop backend tool_server rest s1) as [[o2 s2] ev2] eqn:Hrest.
      injection Hrun as -> <- <-.
      apply IH in Hrest as [Hex Hlast]. split; [exact Hex|].
      destruct ev2 as [|e2 ev2]; [discriminate Hlast|].
      change (EvInput line :: ev1 ++ e2 :: ev2)
        with ((EvInput line :: ev1) ++ e2 :: ev2).
      rewrite last_after. exact Hlast.
Qed.

End Lines.

(** X12. Lines after an exit line are never read: what the loop does is
    the same whatever follows the first exit line. *)
Theorem lines_after_exit_are_not_read
    (backend : nat -> list Content -> Outcome Response)
    (tool_server : nat -> string -> json -> Outcome CallToolResult)
    (pre : list string) (line : string) (rest rest' : list string)
    (s : Session) :
  is_exit line = true ->
  chat_loop backend tool_server (pre ++ line :: rest) s
  = chat_loop backend tool_server (pre ++ line :: rest') s.
Proof.
  intros Hexit. revert s.
  induction pre as [|l pre IH]; intros s.
  - cbn [app]. now rewrite !chat_loop_exit by now apply is_exit_true.
  - cbn [app]. destruct (is_exit l) eqn:Hl.
    + now rewrite !chat_loop_exit by now apply is_exit_true.
    + rewrite !chat_loop_turn by now apply is_exit_false.
      destruct (turn backend tool_server (PyStr.strip l) s)
        as [[[u|e] s1] ev1]; [|reflexivity].
      now rewrite (IH s1).
Qed.

Lemma lines_after_exit_are_not_read_witness :
  chat_loop Scenario.weather_backend Scenario.weather_tool
    ([Scenario.question] ++ "exit" :: [Scenario.follow_up]) fresh
  = chat_loop Scenario.weather_backend Scenario.weather_tool
      ([Scenario.question] ++ "exit" :: []) fresh.
Proof.
  apply (lines_after_exit_are_not_read Scenario.weather_backend
           Scenario.weather_tool [Scenario.question] "exit"
           [Scenario.follow_up] [] fresh).
  reflexivity.
Defined.

(** X13. The loop ends without an exception only by reading an exit
    line: when it returns, the input held one and the last thing printed
    is the exit message; input that runs out first ends in [EOFError] or
    in the exception of a pass. *)
Theorem loop_returns_only_on_exit
    (backend : nat -> list Content -> Outcome Response)
    (tool_server : nat -> string -> json -> Outcome CallToolResult)
    (stdin : list string) (s : Session) :
  (forall u s' evs,
     chat_loop backend tool_server stdin s = (Returned u, s', evs) ->
     existsb is_exit stdin = true
     /\ last evs (EvPrint OutNoResponse) = EvPrint OutExiting)
  /\ (existsb is_exit stdin = false ->
      exists e, fst (fst (chat_loop backend tool_server stdin s)) = Raised e).
Proof.
  split.
  - apply chat_loop_returns_inv.
  - intros Hnone.
    destruct (chat_loop backend tool_server stdin s) as [[[u|e] s'] evs] eqn:Hrun.
    + apply chat_loop_returns_inv in Hrun as [Hex _]. congruence.
    + now exists e.
Qed.

Lemma loop_returns_only_on_exit_witness :
  exists e,
    fst (fst (chat_loop Scenario.talkative_backend Scenario.weather_tool
                [Scenario.question] fresh)) = Raised e.
Proof.
  apply (proj2 (loop_returns_only_on_exit Scenario.talkative_backend
                  Scenario.weather_tool [Scenario.question] fresh)).
  reflexivity.
Defined.

(** ** A pass of the loop, whatever the environment does *)

Section Passes.

Variable backend : nat -> list Content -> Outcome Response.
Variable tool_server : nat -> string -> json -> Outcome CallToolResult.

(** The ways through a pass: what holds of the result on each of them
    holds of the pass. *)
Lemma turn_cases u s (P : Outcome unit * Session * list Event -> Prop) :
  (forall o s2 ev1 e,
     generate_with_retry backend (contents s ++ [user_turn u])
       default_max_retries (with_turns s [user_turn u]) = (o, s2, ev1) ->
     P (Raised e, s2, ev1)) ->
  (forall r s2 ev1 c cands p ps,
     generate_with_retry backend (contents s ++ [user_turn u])
       default_max_retries (with_turns s [user_turn u])
     = (Returned (Some r), s2, ev1) ->
     candidates r = c :: cands -> parts c = p :: ps ->
     function_call p = None ->
     P (Returned tt, with_turns s2 [c],
        ev1 ++ EvPrint (OutPart p) :: parts_shown (parts c))) ->
  (forall r s2 ev1 c cands p ps fc e,
     generate_with_retry backend (contents s ++ [user_turn u])
       default_max_retries (with_turns s [user_turn u])
     = (Returned (Some r), s2, ev1) ->
     candidates r = c :: cands -> parts c = p :: ps ->
     function_call p = Some fc ->
     tool_server (tool_calls s2) (name fc) (args fc) = Raised e ->
     P (Returned tt, after_tool_call s2,
        request_events ev1 p fc ++ failure_events fc e)) ->
  (forall r s2 ev1 c cands p ps fc tool_result e,
     generate_with_retry backend (contents s ++ [user_turn u])
       default_max_retries (with_turns s [user_turn u])
     = (Returned (Some r), s2, ev1) ->
     candidates r = c :: cands -> parts c = p :: ps ->
     function_call p = Some fc ->
     tool_server (tool_calls s2) (name fc) (args fc) = Returned tool_result ->
     result_text tool_result = Raised e ->
     P (Returned tt, with_turns (after_tool_call s2) [call_turn fc],
        request_events ev1 p fc
        ++ EvPrint (OutToolResult tool_result) :: failure_events fc e)) ->
  (forall r s2 ev1 c cands p ps fc tool_result t o s4 ev2,
     generate_with_retry backend (contents s ++ [user_turn u])
       default_max_retries (with_turns s [user_turn u])
     = (Returned (Some r), s2, ev1) ->
     candidates r = c :: cands -> parts c = p :: ps ->
     function_call p = Some fc ->
     tool_server (tool_calls s2) (name fc) (args fc) = Returned tool_result ->
     result_text tool_result = Returned t ->
     generate_with_retry backend (contents (fed_back s2 fc t))
       default_max_retries (fed_back s2 fc t) = (o, s4, ev2) ->
     P (match o with
        | Returned (Some r2) =>
            match candidates r2 with
            | c2 :: _ =>
                (Returned tt, with_turns s4 [c2],
                 request_events ev1 p fc
                 ++ EvPrint (OutToolResult tool_result) :: ev2
                 ++ texts_shown (parts c2))
            | [] =>
                (Returned tt, s4,
                 request_events ev1 p fc
                 ++ EvPrint (OutToolResult tool_result) :: ev2
                 ++ failure_events fc IndexError)
            end
        | Returned None =>
            (Returned tt, s4,
             request_events ev1 p fc
             ++ EvPrint (OutToolResult tool_result) :: ev2)
        | Raised e =>
            (Returned tt, s4,
             request_events ev1 p fc
             ++ EvPrint (OutToolResult tool_result) :: ev2
             ++ failure_events fc e)
        end)) ->
  P (turn backend tool_server u s).
Proof.
  intros Hcrash Htext Hraises Hnotext Hanswers.
  assert (Hex : exists o1 s2 ev1,
             generate_with_retry backend (contents s ++ [user_turn u])
               default_max_retries (with_turns s [user_turn u]) = (o1, s2, ev1)).
  { destruct (generate_with_retry backend (contents s ++ [user_turn u])
                default_max_retries (with_turns s [user_turn u]))
      as [[o1 s2] ev1]. now exists o1, s2, ev1. }
  destruct Hex as (o1 & s2 & ev1 & Hgen).
  assert (Hc0 : (exists e, turn backend tool_server u s = (Raised e, s2, ev1)) ->
                P (turn backend tool_server u s)).
  { intros (e & ->). eapply Hcrash, Hgen. }
  destruct o1 as [[r|]|e];
    try (apply Hc0; now apply (turn_raises backend tool_server u s _ s2 ev1 Hgen)).
  destruct (candidates r) as [|c cands] eqn:Hc;
    [apply Hc0; apply (turn_raises backend tool_server u s _ s2 ev1 Hgen);
     cbn; now rewrite Hc|].
  destruct (parts c) as [|p ps] eqn:Hp;
    [apply Hc0; apply (turn_raises backend tool_server u s _ s2 ev1 Hgen);
     cbn; now rewrite Hc|].
  clear Hc0. destruct (function_call p) as [fc|] eqn:Hfc.
  - destruct (tool_server (tool_calls s2) (name fc) (args fc))
      as [tool_result|e] eqn:Htool.
    + destruct (result_text tool_result) as [t|e] eqn:Htext'.
      * assert (Hex : exists o2 s4 ev2,
                   generate_with_retry backend (contents (fed_back s2 fc t))
                     default_max_retries (fed_back s2 fc t) = (o2, s4, ev2)).
        { destruct (generate_with_retry backend (contents (fed_back s2 fc t))
                      default_max_retries (fed_back s2 fc t))
            as [[o2 s4] ev2]. now exists o2, s4, ev2. }
        destruct Hex as (o2 & s4 & ev2 & Hgen2).
        rewrite (turn_tool_answers backend tool_server _ _ _ _ _ _ _ _ _ _ _ _
                   _ _ _ Hgen Hc Hp Hfc Htool Htext' Hgen2).
        eapply Hanswers; eauto.
      * rewrite (turn_tool_no_text backend tool_server _ _ _ _ _ _ _ _ _ _ _ _
                   Hgen Hc Hp Hfc Htool Htext').
        eapply Hnotext; eauto.
    + rewrite (turn_tool_raises backend tool_server _ _ _ _ _ _ _ _ _ _ _
                 Hgen Hc Hp Hfc Htool).
      eapply Hraises; eauto.
  - rewrite (turn_text_reply backend tool_server _ _ _ _ _ _ _ _ _
               Hgen Hc Hp Hfc).
    eapply Htext; eauto.
Qed.

End Passes.

(** ** What a pass adds *)

Lemma extends_refl cs : extends cs cs.
Proof. exists []. now rewrite app_nil_r. Qed.

Lemma extends_trans cs1 cs2 cs3 :
  extends cs1 cs2 -> extends cs2 cs3 -> extends cs1 cs3.
Proof. intros [m1 ->] [m2 ->]. exists (m1 ++ m2). now rewrite app_assoc. Qed.

Lemma extends_app cs more : extends cs (cs ++ more).
Proof. now exists more. Qed.

Lemma grows_from cs cs' css : extends cs cs' -> grows cs' css -> grows cs css.
Proof.
  destruct css as [|c css]; [trivial|]. cbn. intros H [H1 H2].
  split; [eapply extends_trans; eauto|trivial].
Qed.

Lemma grows_app cs css1 : forall cs' css2,
  grows cs (css1 ++ [cs']) -> grows cs' css2 -> grows cs (css1 ++ css2).
Proof.
  revert cs. induction css1 as [|c css1 IH]; intros cs cs' css2 H1 H2.
  - cbn in H1 |- *. destruct H1 as [H1 _]. eapply grows_from; eauto.
  - cbn in H1 |- *. destruct H1 as [Hc H1]. split; [trivial|]. eapply IH; eauto.
Qed.

Lemma grows_same cs css cs' rest :
  Forall (eq cs') css -> extends cs cs' -> grows cs' rest ->
  grows cs (css ++ rest).
Proof.
  intros Hall Hext Hrest. revert cs Hext.
  induction Hall as [|c css <- _ IH]; intros cs Hext.
  - cbn. eapply grows_from; eauto.
  - cbn. split; [trivial|]. apply IH. apply extends_refl.
Qed.

Lemma generations_request_events ev1 p fc :
  generations (request_events ev1 p fc) = generations ev1.
Proof. unfold request_events. rewrite generations_app. cbn. apply app_nil_r. Qed.

Lemma tool_invocations_request_events ev1 p fc :
  tool_invocations (request_events ev1 p fc)
  = tool_invocations ev1 ++ [(name fc, args fc)].
Proof. unfold request_events. now rewrite tool_invocations_app. Qed.

(** What one invocation with the default number of attempts does. *)
Lemma invocation_summary backend cs s o s' evs :
  generate_with_retry backend cs default_max_retries s = (o, s', evs) ->
  contents s' = contents s
  /\ tool_calls s' = tool_calls s
  /\ gen_calls s' = (gen_calls s + length (generations evs))%nat
  /\ (1 <= length (generations evs) <= 3)%nat
  /\ Forall (eq cs) (generations evs)
  /\ tool_invocations evs = []
  /\ failure_notices evs = []
  /\ assistant_texts evs = []
  /\ ~ In (EvPrint OutNoResponse) evs.
Proof.
  intros Hrun.
  destruct (generate_with_retry_events _ _ _ _ _ _ _ Hrun) as (Hc & Ht & Hev).
  destruct (invoker_events_observed _ _ Hev) as (Hg & Hf & Ha & Hi).
  unfold generate_with_retry, range in Hrun.
  apply retry_loop_shape in Hrun as (delays & Hact & Hlen & Hcalls);
    [|cbn; lia|reflexivity].
  assert (Hgens : generations evs = map (fun _ => cs) delays ++ [cs])
    by (now rewrite <- generations_actions, Hact, rounds_generations).
  change (Z.to_nat default_max_retries) with 3%nat in Hlen.
  repeat split; trivial.
  - rewrite Hcalls, Hgens, length_app, length_map. cbn. lia.
  - rewrite Hgens, length_app, length_map. cbn. lia.
  - rewrite Hgens, length_app, length_map. cbn. lia.
  - intros Hin. rewrite Forall_forall in Hev. now apply Hev in Hin.
Qed.

Lemma shown_not_no_response ps :
  ~ In (EvPrint OutNoResponse) (parts_shown ps)
  /\ ~ In (EvPrint OutNoResponse) (texts_shown ps).
Proof.
  unfold parts_shown, texts_shown. split; intros Hin;
    apply in_flat_map in Hin as (p & _ & Hin);
    destruct (truthy (text p)); try (now destruct Hin as [H|[]]);
    try (now destruct Hin).
  destruct (function_call p); [now destruct Hin as [H|[]]|now destruct Hin].
Qed.

Lemma assistant_texts_parts_shown ps :
  assistant_texts (parts_shown ps) = texts_to_show ps.
Proof.
  unfold parts_shown, texts_to_show.
  induction ps as [|p ps IH]; [reflexivity|].
  cbn [flat_map]. rewrite assistant_texts_app, IH.
  destruct (truthy (text p)); [reflexivity|].
  now destruct (function_call p).
Qed.

Ltac project_events :=
  unfold failure_events;
  repeat (rewrite ?generations_app, ?tool_invocations_app,
            ?generations_request_events, ?tool_invocations_request_events;
          cbn [generations tool_invocations]);
  rewrite ?app_nil_r.

Ltac summary_goals :=
  refine (conj _ (conj _ (conj _ (conj (conj _ _) (conj _ _))))).

Ltac not_printed :=
  unfold request_events, failure_events;
  intros Hprinted;
  repeat (rewrite ?in_app_iff in Hprinted; cbn [In] in Hprinted);
  solve [intuition discriminate].

Section PassSummary.

Variable backend : nat -> list Content -> Outcome Response.
Variable tool_server : nat -> string -> json -> Outcome CallToolResult.

Lemma turn_summary u s : pass_summary s (turn backend tool_server u s).
Proof.
  apply turn_cases; unfold pass_summary; cbn [fst snd].
  - intros o s2 ev1 e Hgen.
    destruct (invocation_summary _ _ _ _ _ _ Hgen)
      as (Hc & Ht & Hg & Hn & Hall & Hi & _ & _ & Hno).
    cbn in Hc, Ht, Hg. rewrite Hi. summary_goals; try (cbn; lia); trivial.
    apply grows_same with (cs' := contents s ++ [user_turn u]); trivial.
    + apply extends_app.
    + cbn. rewrite Hc. split; [apply extends_refl|trivial].
  - intros r s2 ev1 c cands p ps Hgen Hc0 Hp Hfc.
    destruct (invocation_summary _ _ _ _ _ _ Hgen)
      as (Hc & Ht & Hg & Hn & Hall & Hi & _ & _ & Hno).
    cbn in Hc, Ht, Hg.
    destruct (parts_shown_observed (parts c)) as (Hg' & _ & Hi').
    destruct (shown_not_no_response (parts c)) as (Hno' & _).
    project_events. rewrite Hg', Hi', Hi, ?app_nil_r.
    summary_goals; try (cbn; lia); trivial.
    + apply grows_same with (cs' := contents s ++ [user_turn u]); trivial.
      * apply extends_app.
      * cbn. rewrite Hc. split; [apply extends_app|trivial].
    + not_printed.
  - intros r s2 ev1 c cands p ps fc e Hgen Hc0 Hp Hfc Htool.
    destruct (invocation_summary _ _ _ _ _ _ Hgen)
      as (Hc & Ht & Hg & Hn & Hall & Hi & _ & _ & Hno).
    cbn in Hc, Ht, Hg.
    project_events. rewrite Hi.
    summary_goals; try (cbn; lia); trivial.
    + apply grows_same with (cs' := contents s ++ [user_turn u]); trivial.
      * apply extends_app.
      * cbn. rewrite Hc. split; [apply extends_refl|trivial].
    + not_printed.
  - intros r s2 ev1 c cands p ps fc tool_result e Hgen Hc0 Hp Hfc Htool Htext.
    destruct (invocation_summary _ _ _ _ _ _ Hgen)
      as (Hc & Ht & Hg & Hn & Hall & Hi & _ & _ & Hno).
    cbn in Hc, Ht, Hg.
    project_events. rewrite Hi.
    summary_goals; try (cbn; lia); trivial.
    + apply grows_same with (cs' := contents s ++ [user_turn u]); trivial.
      * apply extends_app.
      * cbn. rewrite Hc. split; [apply extends_app|trivial].
    + not_printed.
  - intros r s2 ev1 c cands p ps fc tool_result t o s4 ev2
      Hgen Hc0 Hp Hfc Htool Htext Hgen2.
    destruct (invocation_summary _ _ _ _ _ _ Hgen)
      as (Hc & Ht & Hg & Hn & Hall & Hi & _ & _ & Hno).
    destruct (invocation_summary _ _ _ _ _ _ Hgen2)
      as (Hc2 & Ht2 & Hg2 & Hn2 & Hall2 & Hi2 & _ & _ & Hno2).
    cbn in Hc, Ht, Hg, Hc2, Ht2, Hg2.
    assert (Hgrow : forall final,
               extends (contents s4) final ->
               grows (contents s)
                 ((generations ev1 ++ generations ev2) ++ [final])).
    { intros final Hfinal. rewrite <- app_assoc.
      apply grows_same with (cs' := contents s ++ [user_turn u]); trivial.
      - apply extends_app.
      - apply grows_same with (cs' := contents (fed_back s2 fc t)); trivial.
        + cbn. rewrite Hc. apply extends_app.
        + cbn. split; [|trivial]. rewrite Hc2 in Hfinal. exact Hfinal. }
    destruct o as [[r2|]|e].
    + destruct (candidates r2) as [|c2 cands2]; cbn [fst snd].
      * project_events. rewrite Hi, Hi2.
        summary_goals;
          try (cbn; rewrite ?length_app; cbn; lia); trivial;
          try not_printed.
        apply Hgrow, extends_refl.
      * destruct (texts_shown_observed (parts c2)) as (Hg' & _ & Hi' & _).
        destruct (shown_not_no_response (parts c2)) as (_ & Hno').
        project_events. rewrite Hg', Hi', Hi, Hi2, ?app_nil_r.
        summary_goals;
          try (cbn; rewrite ?length_app; cbn; lia); trivial;
          try not_printed.
        apply Hgrow. cbn. apply extends_app.
    + cbn [fst snd]. project_events. rewrite Hi, Hi2.
      summary_goals;
        try (cbn; rewrite ?length_app; cbn; lia); trivial;
        try not_printed.
      apply Hgrow, extends_refl.
    + cbn [fst snd]. project_events. rewrite Hi, Hi2.
      summary_goals;
        try (cbn; rewrite ?length_app; cbn; lia); trivial;
        try not_printed.
      apply Hgrow, extends_refl.
Qed.

End PassSummary.

Lemma chat_loop_summary backend tool_server stdin : forall s,
  loop_summary stdin s (chat_loop backend tool_server stdin s).
Proof.
  induction stdin as [|line rest IH]; intros s.
  - cbn. unfold loop_summary. cbn.
    refine (conj _ (conj _ (conj _ (conj _ (conj _ _))))); try lia;
      try (intros []).
    split; [apply extends_refl|trivial].
  - destruct (is_exit line) eqn:Hl.
    + rewrite chat_loop_exit by now apply is_exit_true.
      unfold loop_summary. cbn.
      refine (conj _ (conj _ (conj _ (conj _ (conj _ _))))); try lia;
        try (intros [H|[H|[]]]; discriminate H).
      split; [apply extends_refl|trivial].
    + rewrite chat_loop_turn by now apply is_exit_false.
      pose proof (turn_summary backend tool_server (PyStr.strip line) s) as Hpass.
      destruct (turn backend tool_server (PyStr.strip line) s)
        as [[o1 s1] ev1].
      destruct Hpass as (Hgrow & Htool & Htc & [_ Hgen] & Hgc & Hno).
      cbn [fst snd] in *.
      destruct o1 as [u1|e].
      * specialize (IH s1).
        destruct (chat_loop backend tool_server rest s1) as [[o2 s2] ev2].
        destruct IH as (Hgrow2 & Htool2 & Htc2 & Hgen2 & Hgc2 & Hno2).
        unfold loop_summary. cbn [fst snd generations tool_invocations length] in *.
        rewrite generations_app, tool_invocations_app, !length_app.
        refine (conj _ (conj _ (conj _ (conj _ (conj _ _))))); try lia.
        -- rewrite <- app_assoc. eapply grows_app; eauto.
        -- intros [H|H]; [discriminate H|].
           apply in_app_or in H as [H|H]; auto.
      * unfold loop_summary. cbn [fst snd generations tool_invocations length].
        refine (conj _ (conj _ (conj _ (conj _ (conj _ _))))); try lia; trivial.
        intros [H|H]; [discriminate H|auto].
Qed.

(** X14. The conversation is an append-only log that is sent whole: over
    a run of the loop every conversation sent to the model extends the one
    sent before it (the first one extends the conversation the loop
    started with), and the conversation left at the end extends the last
    one sent. *)
Theorem conversation_only_grows
    (backend : nat -> list Content -> Outcome Response)
    (tool_server : nat -> string -> json -> Outcome CallToolResult)
    (stdin : list string) (s : Session) :
  let '(_, s', evs) := chat_loop backend tool_server stdin s in
  grows (contents s) (generations evs ++ [contents s']).
Proof.
  pose proof (chat_loop_summary backend tool_server stdin s) as H.
  destruct (chat_loop backend tool_server stdin s) as [[o s'] evs].
  apply H.
Qed.

(** X15. A run calls the tool server at most once and the backend at
    most six times for each line it is given, and the two counters of the
    session count exactly the calls made. *)
Theorem calls_per_line_are_bounded
    (backend : nat -> list Content -> Outcome Response)
    (tool_server : nat -> string -> json -> Outcome CallToolResult)
    (stdin : list string) (s : Session) :
  let '(_, s', evs) := chat_loop backend tool_server stdin s in
  (length (tool_invocations evs) <= length stdin)%nat
  /\ (length (generations evs) <= 6 * length stdin)%nat
  /\ tool_calls s' = (tool_calls s + length (tool_invocations evs))%nat
  /\ gen_calls s' = (gen_calls s + length (generations evs))%nat.
Proof.
  pose proof (chat_loop_summary backend tool_server stdin s) as H.
  destruct (chat_loop backend tool_server stdin s) as [[o s'] evs].
  destruct H as (_ & H1 & H2 & H3 & H4 & _). now repeat split.
Qed.

(** X16. The branch of line 186 is dead: no run prints the no-response
    message, since a first candidate without parts has already raised at
    line 121. *)
Theorem no_response_message_is_never_printed
    (backend : nat -> list Content -> Outcome Response)
    (tool_server : nat -> string -> json -> Outcome CallToolResult)
    (stdin : list string) (s : Session) :
  ~ no_response_printed (snd (chat_loop backend tool_server stdin s)).
Proof.
  pose proof (chat_loop_summary backend tool_server stdin s) as H.
  destruct (chat_loop backend tool_server stdin s) as [[o s'] evs].
  apply H.
Qed.

(** ** The ways a pass fails or succeeds *)

Section PassPaths.

Variable backend : nat -> list Content -> Outcome Response.
Variable tool_server : nat -> string -> json -> Outcome CallToolResult.

Lemma turn_generation_raises u s e s2 ev1 :
  generate_with_retry backend (contents s ++ [user_turn u]) default_max_retries
    (with_turns s [user_turn u]) = (Raised e, s2, ev1) ->
  turn backend tool_server u s = (Raised e, s2, ev1).
Proof.
  intros Hgen. unfold with_turns, user_turn in Hgen.
  run_client. now rewrite Hgen.
Qed.

Lemma turn_no_part u s r s2 ev1 :
  generate_with_retry backend (contents s ++ [user_turn u]) default_max_retries
    (with_turns s [user_turn u]) = (Returned (Some r), s2, ev1) ->
  candidates r = []
  \/ (exists c cands, candidates r = c :: cands /\ parts c = []) ->
  turn backend tool_server u s = (Raised IndexError, s2, ev1).
Proof.
  intros Hgen Hnone. unfold with_turns, user_turn in Hgen.
  run_client. rewrite Hgen.
  destruct Hnone as [->|(c & cands & -> & Hp)]; cbn.
  - events_eq.
  - rewrite Hp. cbn. events_eq.
Qed.

End PassPaths.

(** X17. The first generation of a pass is outside any [try]: when it
    raises (a failure that is not retried, or the last of the retried
    ones), the exception leaves the loop. The lines that follow are not
    read, no failure notice is printed, and the user's turn stays in the
    conversation. *)
Theorem first_generation_failure_ends_the_loop
    (backend : nat -> list Content -> Outcome Response)
    (tool_server : nat -> string -> json -> Outcome CallToolResult)
    (line : string) (rest : list string) (s : Session)
    (e : Exn) (s2 : Session) (ev1 : list Event) :
  is_exit line = false ->
  generate_with_retry backend (contents s ++ [user_turn (PyStr.strip line)])
    default_max_retries (with_turns s [user_turn (PyStr.strip line)])
  = (Raised e, s2, ev1) ->
  chat_loop backend tool_server (line :: rest) s
  = (Raised e, s2, EvInput line :: ev1)
  /\ contents s2 = contents s ++ [user_turn (PyStr.strip line)]
  /\ failure_notices (EvInput line :: ev1) = [].
Proof.
  intros Hexit Hgen.
  rewrite chat_loop_turn by now apply is_exit_false.
  rewrite (turn_generation_raises backend tool_server _ _ _ _ _ Hgen).
  destruct (invocation_summary _ _ _ _ _ _ Hgen) as (Hc & _ & _ & _ & _ & _ & Hf & _).
  now repeat split.
Qed.

Lemma first_generation_failure_ends_the_loop_witness :
  exists s2 ev1,
    chat_loop Scenario.rejecting Scenario.weather_tool
      [Scenario.question; Scenario.follow_up; "exit"] fresh
    = (Raised (ClientError (Some Scenario.invalid_body)), s2,
       EvInput Scenario.question :: ev1)
    /\ contents s2 = [user_turn Scenario.question].
Proof.
  eexists _, _.
  refine (let H := first_generation_failure_ends_the_loop Scenario.rejecting
                     Scenario.weather_tool Scenario.question
                     [Scenario.follow_up; "exit"] fresh
                     (ClientError (Some Scenario.invalid_body)) _ _
                     eq_refl eq_refl in
          conj (proj1 H) (proj1 (proj2 H))).
Defined.

(** X18. An answer whose list of candidates is empty, or whose first
    candidate has an empty list of parts, raises [IndexError] at lines
    120-121, outside any [try]: the loop ends there, with nothing
    appended for the model. *)
Theorem answer_without_part_ends_the_loop
    (backend : nat -> list Content -> Outcome Response)
    (tool_server : nat -> string -> json -> Outcome CallToolResult)
    (line : string) (rest : list string) (s : Session)
    (r : Response) (s2 : Session) (ev1 : list Event) :
  is_exit line = false ->
  generate_with_retry backend (contents s ++ [user_turn (PyStr.strip line)])
    default_max_retries (with_turns s [user_turn (PyStr.strip line)])
  = (Returned (Some r), s2, ev1) ->
  candidates r = []
  \/ (exists c cands, candidates r = c :: cands /\ parts c = []) ->
  chat_loop backend tool_server (line :: rest) s
  = (Raised IndexError, s2, EvInput line :: ev1)
  /\ contents s2 = contents s ++ [user_turn (PyStr.strip line)].
Proof.
  intros Hexit Hgen Hnone.
  rewrite chat_loop_turn by now apply is_exit_false.
  rewrite (turn_no_part backend tool_server _ _ _ _ _ Hgen Hnone).
  destruct (invocation_summary _ _ _ _ _ _ Hgen) as (Hc & _).
  now split.
Qed.

Lemma answer_without_part_ends_the_loop_witness :
  chat_loop Scenario2.mute_backend Scenario.weather_tool
    [Scenario.question; "exit"] fresh
  = (Raised IndexError,
     after_generations 1 (with_turns fresh [user_turn Scenario.question]),
     [EvInput Scenario.question; EvGenerate [user_turn Scenario.question]]).
Proof.
  apply (answer_without_part_ends_the_loop Scenario2.mute_backend
           Scenario.weather_tool Scenario.question ["exit"] fresh
           (Scenario.reply [])
           (after_generations 1 (with_turns fresh [user_turn Scenario.question]))
           [EvGenerate [user_turn Scenario.question]]); try reflexivity.
  right. now exists {| role := model; parts := [] |}, [].
Defined.

(** X19. A failure of the generation that follows a tool call is caught
    by the [except] of line 172 and reported as a failure of the tool: one
    notice naming the tool, no assistant text, the pass returns, and the
    conversation keeps the call and its response, twice, without an
    answer of the model. *)
Theorem second_generation_failure_is_reported_as_tool_failure
    (backend : nat -> list Content -> Outcome Response)
    (tool_server : nat -> string -> json -> Outcome CallToolResult)
    (u : string) (s : Session)
    (r : Response) (s2 : Session) (ev1 : list Event)
    (c : Content) (cands : list Content) (p : Part) (ps : list Part)
    (fc : FunctionCall) (tool_result : CallToolResult) (t : string)
    (e : Exn) (s4 : Session) (ev2 : list Event) :
  generate_with_retry backend (contents s ++ [user_turn u])
    default_max_retries (with_turns s [user_turn u])
  = (Returned (Some r), s2, ev1) ->
  candidates r = c :: cands -> parts c = p :: ps ->
  function_call p = Some fc ->
  tool_server (tool_calls s2) (name fc) (args fc) = Returned tool_result ->
  result_text tool_result = Returned t ->
  generate_with_retry backend (contents (fed_back s2 fc t)) default_max_retries
    (fed_back s2 fc t) = (Raised e, s4, ev2) ->
  exists s' evs,
    turn backend tool_server u s = (Returned tt, s', evs)
    /\ failure_notices evs = [name fc]
    /\ assistant_texts evs = []
    /\ contents s'
       = contents s
         ++ [user_turn u; call_turn fc; response_turn fc t;
             call_turn fc; response_turn fc t].
Proof.
  intros Hgen Hc Hp Hfc Htool Htext Hgen2.
  pose proof (turn_tool_answers backend tool_server _ _ _ _ _ _ _ _ _ _ _ _ _ _ _
                Hgen Hc Hp Hfc Htool Htext Hgen2) as Hturn.
  cbn in Hturn.
  destruct (invocation_summary _ _ _ _ _ _ Hgen)
    as (Hcs & _ & _ & _ & _ & _ & Hf1 & Ha1 & _).
  destruct (invocation_summary _ _ _ _ _ _ Hgen2)
    as (Hcs2 & _ & _ & _ & _ & _ & Hf2 & Ha2 & _).
  eexists _, _. split; [exact Hturn|]. split; [|split].
  - unfold request_events, failure_events.
    change (EvPrint (OutToolResult tool_result) :: ev2 ++ ?l)
      with ([EvPrint (OutToolResult tool_result)] ++ ev2 ++ l).
    now rewrite !failure_notices_app, Hf1, Hf2.
  - unfold request_events, failure_events.
    change (EvPrint (OutToolResult tool_result) :: ev2 ++ ?l)
      with ([EvPrint (OutToolResult tool_result)] ++ ev2 ++ l).
    now rewrite !assistant_texts_app, Ha1, Ha2.
  - cbn in Hcs, Hcs2. rewrite Hcs2, Hcs, <- app_assoc. reflexivity.
Qed.

Lemma second_generation_failure_is_reported_as_tool_failure_witness :
  exists s' evs,
    turn Scenario2.failing_after_call Scenario.weather_tool Scenario.question
      fresh = (Returned tt, s', evs)
    /\ failure_notices evs = ["get_weather"]
    /\ assistant_texts evs = [].
Proof.
  destruct (second_generation_failure_is_reported_as_tool_failure
              Scenario2.failing_after_call Scenario.weather_tool
              Scenario.question fresh
              (Scenario.reply [function_call_part Scenario.get_weather])
              (after_generations 1 (with_turns fresh [user_turn Scenario.question]))
              [EvGenerate [user_turn Scenario.question]]
              {| role := model;
                 parts := [function_call_part Scenario.get_weather] |}
              [] (function_call_part Scenario.get_weather) []
              Scenario.get_weather {| content := [TextContent "22C, sunny"] |}
              "22C, sunny" (ClientError (Some Scenario.invalid_body))
              (snd (fst (generate_with_retry Scenario2.failing_after_call
                           (contents (fed_back
                              (after_generations 1
                                 (with_turns fresh [user_turn Scenario.question]))
                              Scenario.get_weather "22C, sunny"))
                           default_max_retries
                           (fed_back
                              (after_generations 1
                                 (with_turns fresh [user_turn Scenario.question]))
                              Scenario.get_weather "22C, sunny"))))
              (snd (generate_with_retry Scenario2.failing_after_call
                      (contents (fed_back
                         (after_generations 1
                            (with_turns fresh [user_turn Scenario.question]))
                         Scenario.get_weather "22C, sunny"))
                      default_max_retries
                      (fed_back
                         (after_generations 1
                            (with_turns fresh [user_turn Scenario.question]))
                         Scenario.get_weather "22C, sunny"))))
    as (s' & evs & Hturn & Hf & Ha & _); try reflexivity.
  now exists s', evs.
Defined.

(** X20. When the first element of the tool's answer has no text, line
    145 raises after line 136 has appended the call: the pass reports a
    tool failure, sends nothing more to the model, and leaves in the
    conversation a FunctionCall turn with no FunctionResponse turn after
    it. *)
Theorem answer_without_text_leaves_a_dangling_call
    (backend : nat -> list Content -> Outcome Response)
    (tool_server : nat -> string -> json -> Outcome CallToolResult)
    (u : string) (s : Session)
    (r : Response) (s2 : Session) (ev1 : list Event)
    (c : Content) (cands : list Content) (p : Part) (ps : list Part)
    (fc : FunctionCall) (tool_result : CallToolResult)
    (items : list ContentItem) :
  generate_with_retry backend (contents s ++ [user_turn u])
    default_max_retries (with_turns s [user_turn u])
  = (Returned (Some r), s2, ev1) ->
  candidates r = c :: cands -> parts c = p :: ps ->
  function_call p = Some fc ->
  tool_server (tool_calls s2) (name fc) (args fc) = Returned tool_result ->
  content tool_result = OtherContent :: items ->
  exists s' evs,
    turn backend tool_server u s = (Returned tt, s', evs)
    /\ contents s' = contents s ++ [user_turn u; call_turn fc]
    /\ failure_notices evs = [name fc]
    /\ generations evs = generations ev1.
Proof.
  intros Hgen Hc Hp Hfc Htool Hcontent.
  assert (Htext : result_text tool_result = Raised AttributeError)
    by (unfold result_text; now rewrite Hcontent).
  pose proof (turn_tool_no_text backend tool_server _ _ _ _ _ _ _ _ _ _ _ _
                Hgen Hc Hp Hfc Htool Htext) as Hturn.
  destruct (invocation_summary _ _ _ _ _ _ Hgen)
    as (Hcs & _ & _ & _ & _ & _ & Hf1 & _).
  eexists _, _. split; [exact Hturn|]. split; [|split].
  - cbn in Hcs |- *. now rewrite Hcs, <- app_assoc.
  - unfold request_events, failure_events.
    change (EvPrint (OutToolResult tool_result) :: ?l)
      with ([EvPrint (OutToolResult tool_result)] ++ l).
    now rewrite !failure_notices_app, Hf1.
  - project_events. reflexivity.
Qed.

Lemma answer_without_text_leaves_a_dangling_call_witness :
  exists s' evs,
    turn Scenario.weather_backend Scenario2.image_tool Scenario.question fresh
    = (Returned tt, s', evs)
    /\ contents s'
       = [user_turn Scenario.question; call_turn Scenario.get_weather]
    /\ failure_notices evs = ["get_weather"].
Proof.
  destruct (answer_without_text_leaves_a_dangling_call
              Scenario.weather_backend Scenario2.image_tool
              Scenario.question fresh
              (Scenario.reply [function_call_part Scenario.get_weather])
              (after_generations 1 (with_turns fresh [user_turn Scenario.question]))
              [EvGenerate [user_turn Scenario.question]]
              {| role := model;
                 parts := [function_call_part Scenario.get_weather] |}
              [] (function_call_part Scenario.get_weather) []
              Scenario.get_weather
              {| content := [OtherContent; TextContent "22C, sunny"] |}
              [TextContent "22C, sunny"])
    as (s' & evs & Hturn & Hc & Hf & _); try reflexivity.
  now exists s', evs.
Defined.

(** X21. When the first part of the answer carries no call, the pass
    appends the user's turn and the model's turn as received, sends
    nothing more to the model, and shows the texts of the parts in order,
    leaving out the parts without text and those whose text is empty. *)
Theorem text_answer_is_stored_and_shown
    (backend : nat -> list Content -> Outcome Response)
    (tool_server : nat -> string -> json -> Outcome CallToolResult)
    (u : string) (s : Session)
    (r : Response) (s2 : Session) (ev1 : list Event)
    (c : Content) (cands : list Content) (p : Part) (ps : list Part) :
  generate_with_retry backend (contents s ++ [user_turn u])
    default_max_retries (with_turns s [user_turn u])
  = (Returned (Some r), s2, ev1) ->
  candidates r = c :: cands -> parts c = p :: ps ->
  function_call p = None ->
  exists s' evs,
    turn backend tool_server u s = (Returned tt, s', evs)
    /\ contents s' = contents s ++ [user_turn u; c]
    /\ assistant_texts evs = texts_to_show (parts c)
    /\ generations evs = generations ev1.
Proof.
  intros Hgen Hc Hp Hfc.
  pose proof (turn_text_reply backend tool_server _ _ _ _ _ _ _ _ _
                Hgen Hc Hp Hfc) as Hturn.
  destruct (invocation_summary _ _ _ _ _ _ Hgen)
    as (Hcs & _ & _ & _ & _ & _ & _ & Ha1 & _).
  destruct (parts_shown_observed (parts c)) as (Hg' & _).
  eexists _, _. split; [exact Hturn|]. split; [|split].
  - cbn in Hcs |- *. now rewrite Hcs, <- app_assoc.
  - change (EvPrint (OutPart p) :: parts_shown (parts c))
      with ([EvPrint (OutPart p)] ++ parts_shown (parts c)).
    now rewrite !assistant_texts_app, Ha1, assistant_texts_parts_shown.
  - project_events. now rewrite Hg', app_nil_r.
Qed.

Lemma text_answer_is_stored_and_shown_witness :
  exists s' evs,
    turn Scenario2.wordy_backend Scenario.weather_tool Scenario.question fresh
    = (Returned tt, s', evs)
    /\ contents s' = [user_turn Scenario.question; Scenario2.two_texts]
    /\ assistant_texts evs = ["It is sunny."; "Take a hat."].
Proof.
  destruct (text_answer_is_stored_and_shown Scenario2.wordy_backend
              Scenario.weather_tool Scenario.question fresh
              {| candidates := [Scenario2.two_texts] |}
              (after_generations 1 (with_turns fresh [user_turn Scenario.question]))
              [EvGenerate [user_turn Scenario.question]]
              Scenario2.two_texts [] (text_part "It is sunny.")
              [text_part EmptyString; text_part "Take a hat."])
    as (s' & evs & Hturn & Hc & Ha & _); try reflexivity.
  now exists s', evs.
Defined.

(** ** The tool declarations *)

Lemma declared_tool_of tool : declared_tool (function_declaration tool) = Some tool.
Proof. destruct tool as [n [d|] schema]; reflexivity. Qed.

(** X22. The declarations sent to the model lose nothing: there is one
    bundle whatever the number of tools, and the name, the description
    (absent or not) and the schema of every tool can be read back from it,
    in the order of the tool list. *)
Theorem declarations_lose_nothing (mcp_tools : list Tool) :
  tools_declared (tools_of mcp_tools) = Some mcp_tools.
Proof.
  unfold tools_declared, tools_of. cbn.
  induction mcp_tools as [|tool rest IH]; [reflexivity|].
  cbn [map declared_tools]. now rewrite declared_tool_of, IH.
Qed.

(** ** What is dispatched and what is shown *)

(** X23. When the first part of the answer carries a call, the pass calls
    the tool server exactly once, with the name and the arguments of that
    call, whatever the tool and the model do next; calls carried by other
    parts of the answer are not dispatched. *)
Theorem only_the_first_call_is_dispatched
    (backend : nat -> list Content -> Outcome Response)
    (tool_server : nat -> string -> json -> Outcome CallToolResult)
    (u : string) (s : Session)
    (r : Response) (s2 : Session) (ev1 : list Event)
    (c : Content) (cands : list Content) (p : Part) (ps : list Part)
    (fc : FunctionCall) :
  generate_with_retry backend (contents s ++ [user_turn u])
    default_max_retries (with_turns s [user_turn u])
  = (Returned (Some r), s2, ev1) ->
  candidates r = c :: cands -> parts c = p :: ps ->
  function_call p = Some fc ->
  tool_invocations (snd (turn backend tool_server u s)) = [(name fc, args fc)]
  /\ fst (fst (turn backend tool_server u s)) = Returned tt.
Proof.
  intros Hgen Hc Hp Hfc.
  destruct (invocation_summary _ _ _ _ _ _ Hgen)
    as (_ & _ & _ & _ & _ & Hi & _).
  destruct (tool_server (tool_calls s2) (name fc) (args fc))
    as [tool_result|e] eqn:Htool.
  - destruct (result_text tool_result) as [t|e] eqn:Htext.
    + destruct (generate_with_retry backend (contents (fed_back s2 fc t))
                  default_max_retries (fed_back s2 fc t))
        as [[o s4] ev2] eqn:Hgen2.
      destruct (invocation_summary _ _ _ _ _ _ Hgen2)
        as (_ & _ & _ & _ & _ & Hi2 & _).
      rewrite (turn_tool_answers backend tool_server _ _ _ _ _ _ _ _ _ _ _ _
                 _ _ _ Hgen Hc Hp Hfc Htool Htext Hgen2).
      destruct o as [[r2|]|e]; [destruct (candidates r2) as [|c2 cands2]| |];
        cbn [fst snd]; project_events; rewrite Hi, Hi2;
        try (destruct (texts_shown_observed (parts c2)) as (_ & _ & -> & _));
        now split.
    + rewrite (turn_tool_no_text backend tool_server _ _ _ _ _ _ _ _ _ _ _ _
                 Hgen Hc Hp Hfc Htool Htext).
      cbn [fst snd]. project_events. now rewrite Hi.
  - rewrite (turn_tool_raises backend tool_server _ _ _ _ _ _ _ _ _ _ _
               Hgen Hc Hp Hfc Htool).
    cbn [fst snd]. project_events. now rewrite Hi.
Qed.

Lemma only_the_first_call_is_dispatched_witness :
  tool_invocations
    (snd (turn Scenario3.two_calls_backend Scenario.weather_tool
            Scenario.question fresh))
  = [("get_weather", JObject [("city", JString "Paris")])].
Proof.
  apply (only_the_first_call_is_dispatched Scenario3.two_calls_backend
           Scenario.weather_tool Scenario.question fresh
           (Scenario.reply [function_call_part Scenario.get_weather;
                            function_call_part Scenario3.get_time])
           (after_generations 1 (with_turns fresh [user_turn Scenario.question]))
           [EvGenerate [user_turn Scenario.question]]
           {| role := model;
              parts := [function_call_part Scenario.get_weather;
                        function_call_part Scenario3.get_time] |}
           [] (function_call_part Scenario.get_weather)
           [function_call_part Scenario3.get_time] Scenario.get_weather);
    reflexivity.
Defined.

Lemma tool_requests_app evs evs' :
  tool_requests (evs ++ evs') = tool_requests evs ++ tool_requests evs'.
Proof.
  induction evs as [|e evs IH]; [reflexivity|].
  destruct e as [| | | | |o]; cbn; rewrite ?IH; trivial.
  destruct o; cbn; now rewrite ?IH.
Qed.

Lemma invoker_no_requests cs evs :
  Forall (invoker_event cs) evs -> tool_requests evs = [].
Proof.
  induction 1 as [|e evs He _ IH]; [reflexivity|].
  destruct e as [| | | | |o]; cbn in He |- *; trivial.
  destruct o; cbn; trivial; now destruct He.
Qed.

Lemma texts_shown_no_requests ps : tool_requests (texts_shown ps) = [].
Proof.
  unfold texts_shown. induction ps as [|q ps IH]; [reflexivity|].
  cbn [flat_map]. rewrite tool_requests_app, IH.
  now destruct (truthy (text q)).
Qed.

(** X24. After a tool round trip only the texts of the model's answer
    are shown: the non-empty texts of its parts, in order. A call carried
    by that answer is neither shown nor dispatched, and no notice is
    printed for it. *)
Theorem final_answer_shows_texts_only
    (backend : nat -> list Content -> Outcome Response)
    (tool_server : nat -> string -> json -> Outcome CallToolResult)
    (u : string) (s : Session)
    (r : Response) (s2 : Session) (ev1 : list Event)
    (c : Content) (cands : list Content) (p : Part) (ps : list Part)
    (fc : FunctionCall) (tool_result : CallToolResult) (t : string)
    (r2 : Response) (s4 : Session) (ev2 : list Event)
    (c2 : Content) (cands2 : list Content) :
  generate_with_retry backend (contents s ++ [user_turn u])
    default_max_retries (with_turns s [user_turn u])
  = (Returned (Some r), s2, ev1) ->
  candidates r = c :: cands -> parts c = p :: ps ->
  function_call p = Some fc ->
  tool_server (tool_calls s2) (name fc) (args fc) = Returned tool_result ->
  result_text tool_result = Returned t ->
  generate_with_retry backend (contents (fed_back s2 fc t)) default_max_retries
    (fed_back s2 fc t) = (Returned (Some r2), s4, ev2) ->
  candidates r2 = c2 :: cands2 ->
  exists s' evs,
    turn backend tool_server u s = (Returned tt, s', evs)
    /\ assistant_texts evs = texts_to_show (parts c2)
    /\ failure_notices evs = []
    /\ tool_requests evs = [fc]
    /\ tool_invocations evs = [(name fc, args fc)].
Proof.
  intros Hgen Hc Hp Hfc Htool Htext Hgen2 Hc2.
  pose proof (turn_tool_answers backend tool_server _ _ _ _ _ _ _ _ _ _ _ _ _ _ _
                Hgen Hc Hp Hfc Htool Htext Hgen2) as Hturn.
  cbn in Hturn. rewrite Hc2 in Hturn.
  destruct (generate_with_retry_events _ _ _ _ _ _ _ Hgen) as (_ & _ & Hev1).
  destruct (generate_with_retry_events _ _ _ _ _ _ _ Hgen2) as (_ & _ & Hev2).
  destruct (invoker_events_observed _ _ Hev1) as (_ & Hf1 & Ha1 & Hi1).
  destruct (invoker_events_observed _ _ Hev2) as (_ & Hf2 & Ha2 & Hi2).
  destruct (texts_shown_observed (parts c2)) as (_ & Hf3 & _).
  eexists _, _. split; [exact Hturn|]. split; [|split; [|split]].
  - unfold request_events.
    change (EvPrint (OutToolResult tool_result) :: ev2 ++ ?l)
      with ([EvPrint (OutToolResult tool_result)] ++ ev2 ++ l).
    now rewrite !assistant_texts_app, Ha1, Ha2, assistant_texts_texts_shown.
  - unfold request_events.
    change (EvPrint (OutToolResult tool_result) :: ev2 ++ ?l)
      with ([EvPrint (OutToolResult tool_result)] ++ ev2 ++ l).
    now rewrite !failure_notices_app, Hf1, Hf2, Hf3.
  - unfold request_events.
    change (EvPrint (OutToolResult tool_result) :: ev2 ++ ?l)
      with ([EvPrint (OutToolResult tool_result)] ++ ev2 ++ l).
    rewrite !tool_requests_app, (invoker_no_requests _ _ Hev1),
      (invoker_no_requests _ _ Hev2), texts_shown_no_requests.
    reflexivity.
  - project_events. rewrite Hi1, Hi2.
    now destruct (texts_shown_observed (parts c2)) as (_ & _ & -> & _).
Qed.

Lemma final_answer_shows_texts_only_witness :
  exists s' evs,
    turn Scenario3.two_calls_backend Scenario.weather_tool Scenario.question
      fresh = (Returned tt, s', evs)
    /\ assistant_texts evs = []
    /\ failure_notices evs = [].
Proof.
  destruct (final_answer_shows_texts_only Scenario3.two_calls_backend
              Scenario.weather_tool Scenario.question fresh
              (Scenario.reply [function_call_part Scenario.get_weather;
                               function_call_part Scenario3.get_time])
              (after_generations 1 (with_turns fresh [user_turn Scenario.question]))
              [EvGenerate [user_turn Scenario.question]]
              {| role := model;
                 parts := [function_call_part Scenario.get_weather;
                           function_call_part Scenario3.get_time] |}
              [] (function_call_part Scenario.get_weather)
              [function_call_part Scenario3.get_time] Scenario.get_weather
              {| content := [TextContent "22C, sunny"] |} "22C, sunny"
              (Scenario.reply [function_call_part Scenario3.get_time])
              (snd (fst (generate_with_retry Scenario3.two_calls_backend
                           (contents (fed_back
                              (after_generations 1
                                 (with_turns fresh [user_turn Scenario.question]))
                              Scenario.get_weather "22C, sunny"))
                           default_max_retries
                           (fed_back
                              (after_generations 1
                                 (with_turns fresh [user_turn Scenario.question]))
                              Scenario.get_weather "22C, sunny"))))
              (snd (generate_with_retry Scenario3.two_calls_backend
                      (contents (fed_back
                         (after_generations 1
                            (with_turns fresh [user_turn Scenario.question]))
                         Scenario.get_weather "22C, sunny"))
                      default_max_retries
                      (fed_back
                         (after_generations 1
                            (with_turns fresh [user_turn Scenario.question]))
                         Scenario.get_weather "22C, sunny")))
              {| role := model;
                 parts := [function_call_part Scenario3.get_time] |} [])
    as (s' & evs & Hturn & Ha & Hf & _); try reflexivity.
  now exists s', evs.
Defined.

(** ** What the invoker prints *)

Lemma retry_notices_app evs evs' :
  retry_notices (evs ++ evs') = retry_notices evs ++ retry_notices evs'.
Proof.
  induction evs as [|e evs IH]; [reflexivity|].
  destruct e as [| | | | |o]; cbn; rewrite ?IH; trivial.
  destruct o; cbn; now rewrite ?IH.
Qed.

Lemma gave_up_app evs evs' : gave_up (evs ++ evs') = (gave_up evs + gave_up evs')%nat.
Proof.
  induction evs as [|e evs IH]; [reflexivity|].
  destruct e as [| | | | |o]; cbn; rewrite ?IH; trivial.
  destruct o; cbn; now rewrite ?IH.
Qed.

Lemma notices_of_waits cs max_retries bodies : forall i,
  retry_notices (waits cs max_retries i bodies) = notices_from max_retries i bodies
  /\ gave_up (waits cs max_retries i bodies) = 0%nat.
Proof.
  induction bodies as [|b bodies IH]; intros i; [now split|].
  destruct (IH (S i)) as [IH1 IH2].
  cbn [waits notices_from retry_notices gave_up].
  rewrite retry_notices_app, gave_up_app, IH1, IH2.
  unfold retry_events. now destruct (parse_retry_delay b) as [[d|]|pe].
Qed.

Lemma on_client_error_gives_up e error_data attempt max_retries s :
  rate_limited error_data = true ->
  (max_retries - 1 <= attempt)%Z ->
  exists evs,
    on_client_error e (Some error_data) attempt max_retries s
    = (Raised e, s, evs)
    /\ retry_notices evs = [] /\ gave_up evs = 1%nat.
Proof.
  intros Hrl Hge. destruct (rate_limited_status _ Hrl) as (st & Hst & Hrate).
  apply Z.ltb_ge in Hge.
  unfold on_client_error, retry_delay_of, bind, lift, print, sleep, emit,
    ret, raise.
  rewrite Hst, Hrate.
  destruct (parse_retry_delay error_data) as [[d|]|pe]; cbn; rewrite Hge;
    eexists; repeat split.
Qed.

(** X25. The retry notices are numbered from 1: when the delays of the
    failures waited out are ones [sleep] takes, the notice printed
    after the [i]-th failure shows the delay about to be slept, attempt
    [i] and [max_retries]. The give-up message is printed once when the
    last attempt fails with a rate-limit status, and not at all when an
    answer arrives. *)
Theorem retry_notices_are_numbered
    (backend : nat -> list Content -> Outcome Response)
    (cs : list Content) (max_retries : Z) (s : Session) (bodies : list json) :
  (Z.of_nat (length bodies) < max_retries)%Z ->
  (forall j b, nth_error bodies j = Some b ->
     backend (gen_calls s + j) cs = Raised (ClientError (Some b))
     /\ rate_limited b = true) ->
  (forall b, In b bodies -> sleepable (retry_delay b) = true) ->
  let evs := snd (generate_with_retry backend cs max_retries s) in
  (forall r,
     backend (gen_calls s + length bodies) cs = Returned r ->
     retry_notices evs = notices_from max_retries 0 bodies
     /\ gave_up evs = 0%nat)
  /\ (forall b,
        backend (gen_calls s + length bodies) cs
        = Raised (ClientError (Some b)) ->
        rate_limited b = true ->
        (Z.of_nat (length bodies) + 1 = max_retries)%Z ->
        retry_notices evs = notices_from max_retries 0 bodies
        /\ gave_up evs = 1%nat).
Proof.
  intros Hlt Hb Hsl evs. subst evs.
  destruct (notices_of_waits cs max_retries bodies 0) as [Hn Hg].
  split.
  - intros r Hr.
    rewrite (generate_with_retry_recovers backend bodies max_retries cs s r
               Hb Hsl Hlt Hr).
    cbn [snd]. now rewrite retry_notices_app, gave_up_app, Hn, Hg, app_nil_r.
  - intros b Hlast Hrl Hmax.
    rewrite (generate_with_retry_waits backend bodies max_retries cs s Hb Hsl
               Hlt).
    rewrite (retry_loop_client_error backend _ _ _ _ _ (Some b))
      by (cbn [after_generations gen_calls]; now rewrite Nat.add_comm).
    destruct (on_client_error_gives_up (ClientError (Some b)) b
                (Z.of_nat (length bodies)) max_retries
                (after_generations 1 (after_generations (length bodies) s)) Hrl)
      as (ev & -> & Hn' & Hg'); [lia|].
    cbn [snd].
    change (EvGenerate cs :: ev) with ([EvGenerate cs] ++ ev).
    rewrite !retry_notices_app, !gave_up_app, Hn, Hg, Hn', Hg'.
    cbn. now rewrite app_nil_r.
Qed.

Lemma retry_notices_are_numbered_witness :
  retry_notices
    (snd (generate_with_retry Scenario.out_of_quota [] default_max_retries fresh))
  = [(5, 1, 3); (5, 2, 3)]%Z
  /\ gave_up
       (snd (generate_with_retry Scenario.out_of_quota [] default_max_retries
               fresh)) = 1%nat.
Proof.
  destruct (retry_notices_are_numbered Scenario.out_of_quota []
              default_max_retries fresh
              [Scenario.quota_body "5s"; Scenario.quota_body "5s"])
    as [_ Hgives_up].
  - reflexivity.
  - intros j b Hj.
    do 2 (destruct j as [|j]; [injection Hj as <-; split; reflexivity|]).
    destruct j; discriminate Hj.
  - intros b [<-|[<-|[]]]; reflexivity.
  - apply (Hgives_up (Scenario.quota_body "5s")); reflexivity.
Defined.
